(** * vigIA: grid-to-geography projection and temporal burn aggregation

    A shallow embedding of the computational core of the three scripts
    [scripts/visualize_openstreetmap.py], [scripts/export_geojson.py] and
    [scripts/animate_fire_spread.py], followed by the properties proved about
    it.

    Conventions.
    - Python [int] is [Z].  A NumPy [int32] cell is a [Z] stored through
      [to_int32], the two's-complement wrap-around.
    - Python [float] is an abstract carrier [F] with the operations of the
      class [PyFloat].  Two instances are given: [B64] (IEEE-754 binary64 on
      the kernel's primitive floats, what CPython computes) and [Exact] (the
      real numbers, rounding ignored).
    - A call that can raise returns a [Result]. *)

From Stdlib Require Import String Ascii.
From Stdlib Require Import Reals Lra.
From Stdlib Require Import Floats Uint63.
From Stdlib Require Import ZArith List Bool Lia Sorted.
Import ListNotations.

Open Scope Z_scope.

(* ================================================================== *)
(** ** Exceptions *)

Inductive PyExn : Type :=
| ZeroDivisionError
| ValueError
| IndexError
| OverflowError.

Inductive Result (A : Type) : Type :=
| Ok (a : A)
| Raise (e : PyExn).

Arguments Ok {A} a.
Arguments Raise {A} e.

Definition bind {A B : Type} (m : Result A) (k : A -> Result B) : Result B :=
  match m with
  | Ok a => k a
  | Raise e => Raise e
  end.

Notation "x <- m ;; k" := (bind m (fun x => k))
  (at level 61, m at next level, right associativity).
Notation "' p <- m ;; k" := (bind m (fun p => k))
  (at level 61, p pattern, m at next level, right associativity).

(* ================================================================== *)
(** ** Python floats *)

(** The float operations the scripts use.  [tdiv a b] is the quotient [a / b]
    of two integers and [fdiv x y] the quotient of two floats, both for a
    divisor that is not zero: the zero test that raises [ZeroDivisionError]
    is written out in [py_truediv], [py_fdiv] and [py_fdiv_int].
    [fpow2 x] is [x ** 2] and [ftrunc x] is [int(x)]. *)
Class PyFloat (F : Type) : Type := {
  fadd : F -> F -> F;
  fsub : F -> F -> F;
  fmul : F -> F -> F;
  fdiv : F -> F -> F;
  fpow2 : F -> F;
  fis_zero : F -> bool;
  flt : F -> F -> bool;
  of_int : Z -> F;
  tdiv : Z -> Z -> F;
  ftrunc : F -> Result Z;
  lit_0_5 : F;
  lit_0_25 : F;
  lit_0_75 : F;
  lit_0_3048 : F
}.

Section PyDivision.
Context {F : Type} {ops : PyFloat F}.

(** [a / b] on two Python ints. *)
Definition py_truediv (a b : Z) : Result F :=
  if b =? 0 then Raise ZeroDivisionError else Ok (tdiv a b).

(** [x / y] on two floats. *)
Definition py_fdiv (x y : F) : Result F :=
  if fis_zero y then Raise ZeroDivisionError else Ok (fdiv x y).

(** [x / n] for a float [x] and an int [n]: [n] is converted, and the
    converted value is zero exactly when [n] is. *)
Definition py_fdiv_int (x : F) (n : Z) : Result F :=
  if n =? 0 then Raise ZeroDivisionError else Ok (fdiv x (of_int n)).

End PyDivision.

(* ================================================================== *)
(** ** The simulation output: [fire_map]

    [fire_map] is a NumPy array of shape [(T, H, W)].  It is kept as the list
    of its [T] frames together with [H] and [W]; [wf_fire_map] says that
    every frame has [H] rows of [W] cells, which an [ndarray] guarantees. *)

Definition Frame2D := list (list Z).

Record FireMap : Type := {
  fm_frames : list Frame2D;
  fm_height : nat;
  fm_width : nat
}.

Definition has_shape (h w : nat) (m : Frame2D) : Prop :=
  length m = h /\ Forall (fun row => length row = w) m.

Definition wf_fire_map (fm : FireMap) : Prop :=
  Forall (has_shape (fm_height fm) (fm_width fm)) (fm_frames fm).

(** [fire_map.shape[0]] *)
Definition shape0 (fm : FireMap) : Z := Z.of_nat (length (fm_frames fm)).

(** [fire_map[t][y, x]], for indices inside the array. *)
Definition cell (m : Frame2D) (y x : nat) : option Z :=
  match nth_error m y with
  | Some row => nth_error row x
  | None => None
  end.

Definition state_at (fm : FireMap) (t y x : nat) : option Z :=
  match nth_error (fm_frames fm) t with
  | Some m => cell m y x
  | None => None
  end.

(** Cell values of the fixed domain 0 = unburned, 1 = burning, 2 = burned. *)
Definition valid_states (fm : FireMap) : Prop :=
  Forall (Forall (Forall (fun s => s = 0 \/ s = 1 \/ s = 2))) (fm_frames fm).

(* ================================================================== *)
(** ** Burn-time matrix
    [FireSimulationVisualizer._compute_burn_time_matrix]
    (visualize_openstreetmap.py) and the same loop in [export_to_geojson] and
    [export_burn_time_matrix] (export_geojson.py). *)

(** Storing a Python int in an [int32] cell. *)
Definition to_int32 (z : Z) : Z := (z + 2 ^ 31) mod 2 ^ 32 - 2 ^ 31.

(** [np.full((h, w), v)] *)
Definition np_full (h w : nat) (v : Z) : Frame2D := repeat (repeat v w) h.

Fixpoint map2 {A B C : Type} (f : A -> B -> C) (l : list A) (l' : list B) : list C :=
  match l, l' with
  | a :: t, b :: t' => f a b :: map2 f t t'
  | _, _ => []
  end.

(** One pass of the loop body:
    [newly_burning = (fire_map[t] >= 1) & (burn_time == -1)] and
    [burn_time[newly_burning] = t]. *)
Definition mark_cell (t : Z) (s b : Z) : Z :=
  if (s >=? 1) && (b =? -1) then to_int32 t else b.

Definition mark_newly_burning (t : Z) (frame burn_time : Frame2D) : Frame2D :=
  map2 (map2 (mark_cell t)) frame burn_time.

(** [for t in range(fire_map.shape[0])], the frames taken in order from
    index [t]. *)
Fixpoint burn_loop (t : Z) (frames : list Frame2D) (burn_time : Frame2D) : Frame2D :=
  match frames with
  | [] => burn_time
  | frame :: rest => burn_loop (t + 1) rest (mark_newly_burning t frame burn_time)
  end.

Definition _compute_burn_time_matrix (fm : FireMap) : Frame2D :=
  burn_loop 0 (fm_frames fm) (np_full (fm_height fm) (fm_width fm) (-1)).

(** [burn_time.max()]: NumPy raises [ValueError] on an empty array. *)
Definition np_max (m : Frame2D) : Result Z :=
  match concat m with
  | [] => Raise ValueError
  | v :: vs => Ok (fold_left Z.max vs v)
  end.

(* ================================================================== *)
(** ** Geographic coordinates

    [_setup_coordinates] is the same method in [FireSimulationVisualizer]
    (visualize_openstreetmap.py) and [FireAnimationGenerator]
    (animate_fire_spread.py). *)

(** The fields of [metadata["config"]] the scripts read:
    [operational.latitude], [operational.longitude],
    [area.screen_size = [height, width]] and [area.pixel_scale] (feet). *)
Record GridConfig (F : Type) : Type := {
  latitude : F;
  longitude : F;
  screen_height : Z;
  screen_width : Z;
  pixel_scale : F
}.

Arguments latitude {F} _.
Arguments longitude {F} _.
Arguments screen_height {F} _.
Arguments screen_width {F} _.
Arguments pixel_scale {F} _.

(** The attributes [_setup_coordinates] sets on [self]. *)
Record Coordinates (F : Type) : Type := {
  center_lat : F;
  center_lon : F;
  grid_height : Z;
  grid_width : Z;
  pixel_scale_m : F;
  area_width_m : F;
  area_height_m : F;
  meters_per_deg_lat : Z;
  meters_per_deg_lon : F;
  delta_lat : F;
  delta_lon : F;
  north_lat : F;
  south_lat : F;
  west_lon : F;
  east_lon : F
}.

Arguments center_lat {F} _.
Arguments center_lon {F} _.
Arguments grid_height {F} _.
Arguments grid_width {F} _.
Arguments pixel_scale_m {F} _.
Arguments area_width_m {F} _.
Arguments area_height_m {F} _.
Arguments meters_per_deg_lat {F} _.
Arguments meters_per_deg_lon {F} _.
Arguments delta_lat {F} _.
Arguments delta_lon {F} _.
Arguments north_lat {F} _.
Arguments south_lat {F} _.
Arguments west_lon {F} _.
Arguments east_lon {F} _.

Section SetupCoordinates.
Context {F : Type} {ops : PyFloat F}.

(** [cos_lat_rad] stands for [math.cos(math.radians(abs(center_lat)))]: the
    cosine is the C library's and is passed in as the value it returned.
    The divisions by the literals [111320] and [2] cannot raise; the one by
    [meters_per_deg_lon] can. *)
Definition _setup_coordinates (cos_lat_rad : F) (config : GridConfig F)
  : Result (Coordinates F) :=
  let center_lat := latitude config in
  let center_lon := longitude config in
  let grid_height := screen_height config in
  let grid_width := screen_width config in
  let pixel_scale_m := fmul (pixel_scale config) lit_0_3048 in
  let area_width_m := fmul (of_int grid_width) pixel_scale_m in
  let area_height_m := fmul (of_int grid_height) pixel_scale_m in
  let meters_per_deg_lat := 111320 in
  let meters_per_deg_lon := fmul (of_int 111320) cos_lat_rad in
  let delta_lat := fdiv area_height_m (of_int meters_per_deg_lat) in
  delta_lon <- py_fdiv area_width_m meters_per_deg_lon ;;
  Ok {| center_lat := center_lat;
        center_lon := center_lon;
        grid_height := grid_height;
        grid_width := grid_width;
        pixel_scale_m := pixel_scale_m;
        area_width_m := area_width_m;
        area_height_m := area_height_m;
        meters_per_deg_lat := meters_per_deg_lat;
        meters_per_deg_lon := meters_per_deg_lon;
        delta_lat := delta_lat;
        delta_lon := delta_lon;
        north_lat := fadd center_lat (fdiv delta_lat (of_int 2));
        south_lat := fsub center_lat (fdiv delta_lat (of_int 2));
        west_lon := fsub center_lon (fdiv delta_lon (of_int 2));
        east_lon := fadd center_lon (fdiv delta_lon (of_int 2)) |}.

(** The single parameterized projection of the specification (section
    4.1), written from its words to compare the three functions of the
    scripts with:
    [lat = north - ((y + offset) / grid_height) * delta_lat],
    [lon = west + ((x + offset) / grid_width) * delta_lon]. *)
Definition project (c : Coordinates F) (x y : Z) (offset : F) : Result (F * F) :=
  qy <- py_fdiv_int (fadd (of_int y) offset) (grid_height c) ;;
  qx <- py_fdiv_int (fadd (of_int x) offset) (grid_width c) ;;
  Ok (fsub (north_lat c) (fmul qy (delta_lat c)),
      fadd (west_lon c) (fmul qx (delta_lon c))).

End SetupCoordinates.

(* ================================================================== *)
(** ** Python and NumPy helpers *)

(** [a[i]] on a sequence: a negative index counts from the end, an index
    outside the sequence raises [IndexError]. *)
Definition np_getitem {A : Type} (a : list A) (i : Z) : Result A :=
  let n := Z.of_nat (length a) in
  let k := if i <? 0 then i + n else i in
  if (k <? 0) || (n <=? k) then Raise IndexError
  else match nth_error a (Z.to_nat k) with
       | Some v => Ok v
       | None => Raise IndexError
       end.

(** [frame[y, x]] *)
Definition np_getitem2 (frame : Frame2D) (y x : Z) : Result Z :=
  row <- np_getitem frame y ;;
  np_getitem row x.

(** [range(stop)] *)
Definition range_upto (stop : Z) : list Z :=
  map Z.of_nat (seq 0 (Z.to_nat stop)).

(** [range(start, stop, step)]: [ValueError] on a zero step; otherwise the
    length is computed as CPython does and element [i] is
    [start + i * step]. *)
Definition py_range (start stop step : Z) : Result (list Z) :=
  if step =? 0 then Raise ValueError
  else
    let n :=
      if 0 <? step
      then (if start <? stop then (stop - start - 1) / step + 1 else 0)
      else (if stop <? start then (start - stop - 1) / (- step) + 1 else 0) in
    Ok (map (fun i => start + Z.of_nat i * step) (seq 0 (Z.to_nat n))).

(** A [for] loop over a list, threading the variables the body updates. *)
Fixpoint for_each {A S : Type} (l : list A) (body : A -> S -> Result S) (s : S)
  : Result S :=
  match l with
  | [] => Ok s
  | a :: rest => s' <- body a s ;; for_each rest body s'
  end.

(** [(frame == v).sum()] *)
Definition np_count_eq (frame : Frame2D) (v : Z) : Z :=
  fold_left Z.add (map (fun s => if s =? v then 1 else 0) (concat frame)) 0.

(** [f"{n:02x}"]: lower-case hexadecimal, zero-padded to two characters
    (a minus sign counts as one of them). *)
Definition hex_digit (d : Z) : string :=
  String (nth (Z.to_nat d)
            ["0"; "1"; "2"; "3"; "4"; "5"; "6"; "7"; "8"; "9";
             "a"; "b"; "c"; "d"; "e"; "f"]%char "0"%char) EmptyString.

Fixpoint hex_digits (fuel : nat) (n : Z) : string :=
  match fuel with
  | O => EmptyString
  | S fuel' =>
      if n <? 16 then hex_digit n
      else String.append (hex_digits fuel' (n / 16)) (hex_digit (n mod 16))
  end.

Definition format_02x (n : Z) : string :=
  let body := hex_digits (S (Z.to_nat (Z.log2 (Z.abs n)))) (Z.abs n) in
  if n <? 0 then String.append "-" body
  else if n <? 16 then String.append "0" body
  else body.

(** [f"#{r:02x}{g:02x}{b:02x}"] *)
Definition hex_color (r g b : Z) : string :=
  String.append "#"
    (String.append (format_02x r) (String.append (format_02x g) (format_02x b))).

(** A Python number that is an [int] or a [float]. *)
Inductive PyNumber (F : Type) : Type :=
| PyInt (n : Z)
| PyFloatValue (x : F).

Arguments PyInt {F} n.
Arguments PyFloatValue {F} x.

(* ================================================================== *)
(** ** visualize_openstreetmap.py *)

(** The dict [get_statistics] returns; [bounds] is
    (north, south, east, west). *)
Record Statistics (F : Type) : Type := {
  total_pixels : Z;
  burned_pixels : Z;
  burned_percentage : F;
  area_total_ha : F;
  area_burned_ha : F;
  simulation_frames : Z;
  max_burn_time : Z;
  bounds : F * F * F * F
}.

Arguments total_pixels {F} _.
Arguments burned_pixels {F} _.
Arguments burned_percentage {F} _.
Arguments area_total_ha {F} _.
Arguments area_burned_ha {F} _.
Arguments simulation_frames {F} _.
Arguments max_burn_time {F} _.
Arguments bounds {F} _.

Module Visualizer.
Section Visualizer.
Context {F : Type} {ops : PyFloat F}.

(** [pixel_to_latlon(x, y)]: both arguments and the grid sizes are ints, so
    the quotients are int / int. *)
Definition pixel_to_latlon (self : Coordinates F) (x y : Z) : Result (F * F) :=
  qx <- py_truediv x (grid_width self) ;;
  let lon := fadd (west_lon self) (fmul qx (delta_lon self)) in
  qy <- py_truediv y (grid_height self) ;;
  let lat := fsub (north_lat self) (fmul qy (delta_lat self)) in
  Ok (lat, lon).

(** [get_pixel_bounds(x, y)] returns [[[se_lat, nw_lon], [nw_lat, se_lon]]],
    that is [[[south, west], [north, east]]]. *)
Definition get_pixel_bounds (self : Coordinates F) (x y : Z)
  : Result ((F * F) * (F * F)) :=
  '(nw_lat, nw_lon) <- pixel_to_latlon self x y ;;
  '(se_lat, se_lon) <- pixel_to_latlon self (x + 1) (y + 1) ;;
  Ok ((se_lat, nw_lon), (nw_lat, se_lon)).

(** The line [t = burn_time / max_time if max_time > 0 else 0] of
    [time_to_color]; the int 0 of the [else] enters the formulas below as
    the float 0.0, with the same results. *)
Definition color_parameter (burn_time max_time : Z) : Result F :=
  if max_time >? 0 then py_truediv burn_time max_time else Ok (of_int 0).

(** The three colour maps of [time_to_color], as (r, g, b) for a
    parameter [t]. *)
Definition YlOrRd (t : F) : Result (Z * Z * Z) :=
  if flt t lit_0_5 then
    let r := 255 in
    g <- ftrunc (fsub (of_int 255) (fmul (of_int (255 - 165)) (fmul t (of_int 2)))) ;;
    b <- ftrunc (fmul (of_int 200) (fsub (of_int 1) (fmul t (of_int 2)))) ;;
    Ok (r, g, b)
  else
    r <- ftrunc (fsub (of_int 255)
                   (fmul (of_int (255 - 139)) (fmul (fsub t lit_0_5) (of_int 2)))) ;;
    g <- ftrunc (fmul (of_int 165)
                   (fsub (of_int 1) (fmul (fsub t lit_0_5) (of_int 2)))) ;;
    let b := 0 in
    Ok (r, g, b).

Definition inferno (t : F) : Result (Z * Z * Z) :=
  if flt t lit_0_25 then
    r <- ftrunc (fmul (fmul t (of_int 4)) (of_int 120)) ;;
    b <- ftrunc (fmul (fmul t (of_int 4)) (of_int 150)) ;;
    Ok (r, 0, b)
  else if flt t lit_0_5 then
    r <- ftrunc (fadd (of_int 120)
                   (fmul (of_int (255 - 120)) (fmul (fsub t lit_0_25) (of_int 4)))) ;;
    g <- ftrunc (fmul (fmul (fsub t lit_0_25) (of_int 4)) (of_int 100)) ;;
    b <- ftrunc (fmul (of_int 150)
                   (fsub (of_int 1) (fmul (fsub t lit_0_25) (of_int 4)))) ;;
    Ok (r, g, b)
  else if flt t lit_0_75 then
    let r := 255 in
    g <- ftrunc (fadd (of_int 100)
                   (fmul (of_int (200 - 100)) (fmul (fsub t lit_0_5) (of_int 4)))) ;;
    let b := 0 in
    Ok (r, g, b)
  else
    let r := 255 in
    g <- ftrunc (fadd (of_int 200)
                   (fmul (of_int (255 - 200)) (fmul (fsub t lit_0_75) (of_int 4)))) ;;
    b <- ftrunc (fmul (fmul (fsub t lit_0_75) (of_int 4)) (of_int 150)) ;;
    Ok (r, g, b).

Definition Reds (t : F) : Result (Z * Z * Z) :=
  let intensity := fsub (of_int 1) t in
  r <- ftrunc (fadd (of_int 139) (fmul (of_int (255 - 139)) intensity)) ;;
  g <- ftrunc (fmul (of_int 69) (fsub (of_int 1) intensity)) ;;
  b <- ftrunc (fmul (of_int 19) (fsub (of_int 1) intensity)) ;;
  Ok (r, g, b).

(** [time_to_color(burn_time, max_time, colormap)]: [None] for a cell that
    did not burn, otherwise the string ["#rrggbb"]. *)
Definition time_to_color (burn_time max_time : Z) (colormap : string)
  : Result (option string) :=
  if burn_time <? 0 then Ok None
  else
    t <- color_parameter burn_time max_time ;;
    '(r, g, b) <- (if String.eqb colormap "YlOrRd" then YlOrRd t
                   else if String.eqb colormap "inferno" then inferno t
                   else Reds t) ;;
    Ok (Some (hex_color r g b)).

(** [get_statistics()]; [self] carries the coordinates, [fire_map] and the
    burn-time matrix computed from it by the constructor. *)
Definition get_statistics (self : Coordinates F) (fire_map : FireMap)
  : Result (Statistics F) :=
  last_frame <- np_getitem (fm_frames fire_map) (-1) ;;
  let burned_pixels := np_count_eq last_frame 2 in
  let total_pixels := Z.of_nat (fm_height fire_map * fm_width fire_map) in
  let area_per_pixel := fdiv (fpow2 (pixel_scale_m self)) (of_int 10000) in
  max_time <- np_max (_compute_burn_time_matrix fire_map) ;;
  Ok {| total_pixels := total_pixels;
        burned_pixels := burned_pixels;
        burned_percentage :=
          fmul (tdiv burned_pixels total_pixels) (of_int 100);
        area_total_ha := fmul (of_int total_pixels) area_per_pixel;
        area_burned_ha := fmul (of_int burned_pixels) area_per_pixel;
        simulation_frames := shape0 fire_map;
        max_burn_time := max_time;
        bounds := (north_lat self, south_lat self, east_lon self, west_lon self) |}.

End Visualizer.
End Visualizer.

(** The four edges of a rectangle [[[south, west], [north, east]]]. *)
Definition south_edge {F : Type} (b : (F * F) * (F * F)) : F := fst (fst b).
Definition west_edge {F : Type} (b : (F * F) * (F * F)) : F := snd (fst b).
Definition north_edge {F : Type} (b : (F * F) * (F * F)) : F := fst (snd b).
Definition east_edge {F : Type} (b : (F * F) * (F * F)) : F := snd (snd b).

(* ================================================================== *)
(** ** animate_fire_spread.py *)

(** One entry of [frames_data]. *)
Record FrameData (F : Type) : Type := {
  time : Z;
  burning : list (F * F);
  burned_count : Z;
  burning_count : Z
}.

Arguments time {F} _.
Arguments burning {F} _.
Arguments burned_count {F} _.
Arguments burning_count {F} _.

Module Animation.
Section Animation.
Context {F : Type} {ops : PyFloat F}.

(** [pixel_to_latlon(x, y)]: [x + 0.5] is a float, divided by an int. *)
Definition pixel_to_latlon (self : Coordinates F) (x y : Z) : Result (F * F) :=
  qx <- py_fdiv_int (fadd (of_int x) lit_0_5) (grid_width self) ;;
  let lon := fadd (west_lon self) (fmul qx (delta_lon self)) in
  qy <- py_fdiv_int (fadd (of_int y) lit_0_5) (grid_height self) ;;
  let lat := fsub (north_lat self) (fmul qy (delta_lat self)) in
  Ok (lat, lon).

(** The body of the two inner loops of [prepare_animation_data]; the state
    is the pair ([burning_pixels], [burned_pixels]). *)
Definition classify_pixel (self : Coordinates F) (frame : Frame2D) (y x : Z)
    (acc : list (F * F) * list (F * F)) : Result (list (F * F) * list (F * F)) :=
  let '(burning_pixels, burned_pixels) := acc in
  status <- np_getitem2 frame y x ;;
  if status =? 1 then
    p <- pixel_to_latlon self x y ;;
    Ok (burning_pixels ++ [p], burned_pixels)
  else if status =? 2 then
    p <- pixel_to_latlon self x y ;;
    Ok (burning_pixels, burned_pixels ++ [p])
  else Ok (burning_pixels, burned_pixels).

Definition classify_frame (self : Coordinates F) (frame : Frame2D)
  : Result (list (F * F) * list (F * F)) :=
  for_each (range_upto (grid_height self))
    (fun y => for_each (range_upto (grid_width self))
                (fun x => classify_pixel self frame y x))
    ([], []).

(** The first loop of [prepare_animation_data(sample_rate)], which builds
    [frames_data]. *)
Definition prepare_animation_frames (self : Coordinates F) (fire_map : FireMap)
    (sample_rate : Z) : Result (list (FrameData F)) :=
  let total_frames := shape0 fire_map in
  ts <- py_range 0 total_frames sample_rate ;;
  for_each ts
    (fun t frames_data =>
       frame <- np_getitem (fm_frames fire_map) t ;;
       '(burning_pixels, burned_pixels) <- classify_frame self frame ;;
       Ok (frames_data ++
             [{| time := t;
                 burning := burning_pixels;
                 burned_count := Z.of_nat (length burned_pixels);
                 burning_count := Z.of_nat (length burning_pixels) |}]))
    [].

End Animation.
End Animation.

(* ================================================================== *)
(** ** export_geojson.py *)

(** The [properties] of one GeoJSON feature and the feature itself. *)
Record FeatureProperties (F : Type) : Type := {
  pixel_x : Z;
  pixel_y : Z;
  burn_time : Z;
  burn_time_normalized : PyNumber F;
  color_rgb : Z * Z * Z;
  color_hex : string
}.

Arguments pixel_x {F} _.
Arguments pixel_y {F} _.
Arguments burn_time {F} _.
Arguments burn_time_normalized {F} _.
Arguments color_rgb {F} _.
Arguments color_hex {F} _.

Record Feature (F : Type) : Type := {
  coordinates : list (list (F * F));
  properties : FeatureProperties F
}.

Arguments coordinates {F} _.
Arguments properties {F} _.

Module GeoJSON.
Section GeoJSON.
Context {F : Type} {ops : PyFloat F}.

(** [pixel_to_polygon(x, y, config)] returns one ring of five [[lon, lat]]
    vertices; [cos_lat_rad] is as in [_setup_coordinates]. *)
Definition pixel_to_polygon (cos_lat_rad : F) (x y : Z) (config : GridConfig F)
  : Result (list (list (F * F))) :=
  let center_lat := latitude config in
  let center_lon := longitude config in
  let grid_height := screen_height config in
  let grid_width := screen_width config in
  let pixel_scale_m := fmul (pixel_scale config) lit_0_3048 in
  let area_width_m := fmul (of_int grid_width) pixel_scale_m in
  let area_height_m := fmul (of_int grid_height) pixel_scale_m in
  let meters_per_deg_lat := 111320 in
  let meters_per_deg_lon := fmul (of_int 111320) cos_lat_rad in
  let delta_lat := fdiv area_height_m (of_int meters_per_deg_lat) in
  delta_lon <- py_fdiv area_width_m meters_per_deg_lon ;;
  let north_lat := fadd center_lat (fdiv delta_lat (of_int 2)) in
  let west_lon := fsub center_lon (fdiv delta_lon (of_int 2)) in
  pixel_lat <- py_fdiv_int delta_lat grid_height ;;
  pixel_lon <- py_fdiv_int delta_lon grid_width ;;
  let nw_lat := fsub north_lat (fmul (of_int y) pixel_lat) in
  let nw_lon := fadd west_lon (fmul (of_int x) pixel_lon) in
  let se_lat := fsub nw_lat pixel_lat in
  let se_lon := fadd nw_lon pixel_lon in
  Ok [[(nw_lon, nw_lat); (se_lon, nw_lat); (se_lon, se_lat); (nw_lon, se_lat);
       (nw_lon, nw_lat)]].

(** [time_to_color_rgb(burn_time, max_time)] *)
Definition time_to_color_rgb (burn_time max_time : Z) : Result (Z * Z * Z) :=
  if (burn_time <? 0) || (max_time <=? 0) then Ok (128, 128, 128)
  else
    t <- py_truediv burn_time max_time ;;
    if flt t lit_0_5 then
      let r := 255 in
      g <- ftrunc (fmul (of_int 255) (fmul t (of_int 2))) ;;
      let b := 0 in
      Ok (r, g, b)
    else
      let r := 255 in
      let g := 255 in
      b <- ftrunc (fmul (of_int 255) (fmul (fsub t lit_0_5) (of_int 2))) ;;
      Ok (r, g, b).

(** The entry ["burn_time_normalized"]:
    [float(bt / max_time) if max_time > 0 else 0]. *)
Definition normalized_burn_time (bt max_time : Z) : Result (PyNumber F) :=
  if max_time >? 0 then q <- py_truediv bt max_time ;; Ok (PyFloatValue q)
  else Ok (PyInt 0).

(** The feature [export_to_geojson] appends for a cell with [bt >= 0]. *)
Definition make_feature (cos_lat_rad : F) (config : GridConfig F)
    (x y bt max_time : Z) : Result (Feature F) :=
  '(r, g, b) <- time_to_color_rgb bt max_time ;;
  polygon <- pixel_to_polygon cos_lat_rad x y config ;;
  normalized <- normalized_burn_time bt max_time ;;
  Ok {| coordinates := polygon;
        properties := {| pixel_x := x;
                         pixel_y := y;
                         burn_time := bt;
                         burn_time_normalized := normalized;
                         color_rgb := (r, g, b);
                         color_hex := hex_color r g b |} |}.

(** The part of [export_to_geojson] between loading the data and writing
    the file: the burn-time matrix, [max_time] and the list [features]. *)
Definition export_features (cos_lat_rad : F) (config : GridConfig F)
    (fire_map : FireMap) : Result (Z * list (Feature F)) :=
  let grid_height := Z.of_nat (fm_height fire_map) in
  let grid_width := Z.of_nat (fm_width fire_map) in
  let burn_time := _compute_burn_time_matrix fire_map in
  max_time <- np_max burn_time ;;
  features <-
    for_each (range_upto grid_height)
      (fun y => for_each (range_upto grid_width)
         (fun x features =>
            bt <- np_getitem2 burn_time y x ;;
            if bt >=? 0 then
              feature <- make_feature cos_lat_rad config x y bt max_time ;;
              Ok (features ++ [feature])
            else Ok features))
      [] ;;
  Ok (max_time, features).

End GeoJSON.
End GeoJSON.

(* ================================================================== *)
(** ** Vocabulary of the properties *)

(** The cells of a frame whose state is [v], as (x, y) pairs in row-major
    order. *)
Fixpoint row_cells (v : Z) (y x : Z) (row : list Z) : list (Z * Z) :=
  match row with
  | [] => []
  | s :: rest => (if s =? v then [(x, y)] else []) ++ row_cells v y (x + 1) rest
  end.

Fixpoint frame_cells (v : Z) (y : Z) (frame : Frame2D) : list (Z * Z) :=
  match frame with
  | [] => []
  | row :: rest => row_cells v y 0 row ++ frame_cells v (y + 1) rest
  end.

Definition cells_with_state (v : Z) (frame : Frame2D) : list (Z * Z) :=
  frame_cells v 0 frame.

(** The number of cells of a matrix that hold [v]. *)
Definition count_cells (v : Z) (frame : Frame2D) : Z :=
  Z.of_nat (count_occ Z.eq_dec (concat frame) v).

(** The number of cells of a burn-time matrix that ignited. *)
Definition count_ignited (burn_time : Frame2D) : Z :=
  Z.of_nat (length (filter (fun v => v >=? 0) (concat burn_time))).

(** The grid of the coordinates is the grid of the array. *)
Definition grid_matches {F : Type} (self : Coordinates F) (fm : FireMap) : Prop :=
  grid_height self = Z.of_nat (fm_height fm) /\
  grid_width self = Z.of_nat (fm_width fm).

(** No cell of the array is ever burning or burned. *)
Definition never_ignites (fm : FireMap) : Prop :=
  Forall (Forall (Forall (fun s => s < 1))) (fm_frames fm).

(** The anchor colours of the palettes: the colour the first segment of the
    interpolation starts from and the colour its last segment arrives at,
    read off the constants of the formulas. *)
Definition palette_endpoints (colormap : string) : string * string :=
  if String.eqb colormap "YlOrRd" then ("#ffffc8"%string, "#8b0000"%string)
  else if String.eqb colormap "inferno" then ("#000000"%string, "#ffff96"%string)
  else ("#ff0000"%string, "#8b4513"%string).

Definition rgb_endpoints : (Z * Z * Z) * (Z * Z * Z) :=
  ((255, 0, 0), (255, 255, 255)).

(** The colour [time_to_color_rgb] gives a cell that did not burn. *)
Definition unburned_rgb : Z * Z * Z := (128, 128, 128).

Section Vocabulary.
Context {F : Type} {ops : PyFloat F}.

(** The value [Animation.pixel_to_latlon] returns on a grid that is not
    empty. *)
Definition cell_center (self : Coordinates F) (xy : Z * Z) : F * F :=
  (fsub (north_lat self)
     (fmul (fdiv (fadd (of_int (snd xy)) lit_0_5) (of_int (grid_height self)))
        (delta_lat self)),
   fadd (west_lon self)
     (fmul (fdiv (fadd (of_int (fst xy)) lit_0_5) (of_int (grid_width self)))
        (delta_lon self))).

(** One entry of [frames_data], as a function of the frame. *)
Definition frame_data_of (self : Coordinates F) (t : Z) (frame : Frame2D)
  : FrameData F :=
  {| time := t;
     burning := map (cell_center self) (cells_with_state 1 frame);
     burned_count := count_cells 2 frame;
     burning_count := count_cells 1 frame |}.

End Vocabulary.

(* ================================================================== *)
(** ** The two arithmetics *)

(** IEEE-754 binary64, rounding to nearest even: the arithmetic of CPython
    and NumPy [float64], on the kernel's primitive floats.  [from_int] is
    the conversion of an int, rounded to nearest even, and [quotient a b]
    the correctly rounded quotient of two ints, as CPython computes
    [a / b]; both go through the library's specification of binary64
    ([binary_normalize], [SFdiv]) so that they are defined on every integer
    (an int beyond the range of a float gives an infinity here, where
    Python raises [OverflowError]).  [x ** 2] is taken as [x * x]. *)
Module B64.

Definition from_int (z : Z) : float :=
  SF2Prim (binary_normalize prec emax z 0 false).

Definition SF_of_int (z : Z) : spec_float :=
  match z with
  | Z0 => S754_zero false
  | Zpos p => S754_finite false p 0
  | Zneg p => S754_finite true p 0
  end.

Definition quotient (a b : Z) : float :=
  SF2Prim (SFdiv prec emax (SF_of_int a) (SF_of_int b)).

(** [int(x)]: truncation towards zero; [OverflowError] on an infinity and
    [ValueError] on a NaN. *)
Definition trunc (x : float) : Result Z :=
  match Prim2SF x with
  | S754_zero _ => Ok 0
  | S754_finite s m e =>
      let q := if 0 <=? e then Zpos m * 2 ^ e else Zpos m / 2 ^ (- e) in
      Ok (if s then - q else q)
  | S754_infinity _ => Raise OverflowError
  | S754_nan => Raise ValueError
  end.

#[global] Instance ops : PyFloat float := {|
  fadd := PrimFloat.add;
  fsub := PrimFloat.sub;
  fmul := PrimFloat.mul;
  fdiv := PrimFloat.div;
  fpow2 := fun x => PrimFloat.mul x x;
  fis_zero := fun x => PrimFloat.eqb x PrimFloat.zero;
  flt := PrimFloat.ltb;
  of_int := from_int;
  tdiv := quotient;
  ftrunc := trunc;
  lit_0_5 := quotient 1 2;
  lit_0_25 := quotient 1 4;
  lit_0_75 := quotient 3 4;
  lit_0_3048 := quotient 3048 10000
|}.

End B64.

(** Exact arithmetic on the real numbers: what the formulas mean when
    rounding is ignored. *)
Module Exact.

(** [int(x)] *)
Definition trunc (x : R) : Z :=
  if Rle_dec 0 x then Int_part x else (- Int_part (- x))%Z.

#[global] Instance ops : PyFloat R := {|
  fadd := Rplus;
  fsub := Rminus;
  fmul := Rmult;
  fdiv := Rdiv;
  fpow2 := fun x => (x * x)%R;
  fis_zero := fun x => if Req_dec_T x 0%R then true else false;
  flt := fun x y => if Rlt_dec x y then true else false;
  of_int := IZR;
  tdiv := fun a b => (IZR a / IZR b)%R;
  ftrunc := fun x => Ok (trunc x);
  lit_0_5 := (1 / 2)%R;
  lit_0_25 := (1 / 4)%R;
  lit_0_75 := (3 / 4)%R;
  lit_0_3048 := (3048 / 10000)%R
|}.

(** [math.cos(math.radians(abs(center_lat)))] *)
Definition cos_lat_rad (center_lat : R) : R :=
  cos (Rabs center_lat * (PI / 180)).

Definition setup_coordinates (config : GridConfig R) : Result (Coordinates R) :=
  _setup_coordinates (cos_lat_rad (latitude config)) config.

End Exact.

(* ================================================================== *)
(** ** Configurations and arrays of the examples *)

(** The scenario of the specification: a 2 x 2 grid observed three times. *)
Definition scenario_fire_map : FireMap :=
  {| fm_frames := [ [[0; 0]; [0; 0]]; [[1; 0]; [0; 0]]; [[2; 1]; [0; 0]] ];
     fm_height := 2;
     fm_width := 2 |}.

(** The scenario with its last frame replaced: the cell that ignited in
    frame 1 is read as unburned again, which changes nothing. *)
Definition scenario_fire_map_relit : FireMap :=
  {| fm_frames := [ [[0; 0]; [0; 0]]; [[1; 0]; [0; 0]]; [[0; 1]; [0; 0]] ];
     fm_height := 2;
     fm_width := 2 |}.

(** The grid of the examples: 3 x 3 cells of 50 ft centred on the equator
    at longitude 10.  On the equator
    [math.cos(math.radians(abs(0.0)))] is [math.cos(0.0)], which is 1.0
    exactly. *)
Definition equator_config : GridConfig float :=
  {| latitude := B64.from_int 0;
     longitude := B64.from_int 10;
     screen_height := 3;
     screen_width := 3;
     pixel_scale := B64.from_int 50 |}.

(** The default configuration of the scripts, on the reals. *)
Definition default_config : GridConfig R :=
  {| latitude := (-16571175 / 1000000)%R;
     longitude := (-49181467 / 1000000)%R;
     screen_height := 100;
     screen_width := 100;
     pixel_scale := 50%R |}.

(** The 100 x 100 grid of 50 ft cells of the scripts' defaults, moved onto
    the equator (where the cosine is 1.0 exactly). *)
Definition equator_config_100 : GridConfig float :=
  {| latitude := B64.from_int 0;
     longitude := B64.quotient (-49181467) 1000000;
     screen_height := 100;
     screen_width := 100;
     pixel_scale := B64.from_int 50 |}.

(** A 3 x 3 grid observed twice in which nothing burns. *)
Definition calm_fire_map : FireMap :=
  {| fm_frames := [ [[0; 0; 0]; [0; 0; 0]; [0; 0; 0]];
                    [[0; 0; 0]; [0; 0; 0]; [0; 0; 0]] ];
     fm_height := 3;
     fm_width := 3 |}.

(** The grid of the specification's scenario: 2 x 2 cells centred on
    (0, 0). *)
Definition scenario_config : GridConfig float :=
  {| latitude := B64.from_int 0;
     longitude := B64.from_int 0;
     screen_height := 2;
     screen_width := 2;
     pixel_scale := B64.from_int 50 |}.

(** The default configuration of the scripts in binary64: centre
    (-16.571175, -49.181467), 100 x 100 cells of 50 ft. *)
Definition default_config_b64 : GridConfig float :=
  {| latitude := B64.quotient (-16571175) 1000000;
     longitude := B64.quotient (-49181467) 1000000;
     screen_height := 100;
     screen_width := 100;
     pixel_scale := B64.from_int 50 |}.

(** A binary64 value that is finite and strictly positive. *)
Definition positive_finite (x : float) : Prop :=
  exists m e, Prim2SF x = S754_finite false m e.

(** A binary64 value other than the negative zero. *)
Definition not_negative_zero (x : float) : Prop :=
  Prim2SF x <> S754_zero true.

From Stdlib Require DecimalString OrderedTypeEx.

(* ================================================================== *)
(** ** Vocabulary of the further properties *)

(** The cells of a burn-time matrix that ignited, as (x, y, burn time)
    triples in row-major order. *)
Fixpoint ignited_row (y x : Z) (row : list Z) : list (Z * Z * Z) :=
  match row with
  | [] => []
  | v :: rest =>
      (if v >=? 0 then [(x, y, v)] else []) ++ ignited_row y (x + 1) rest
  end.

Fixpoint ignited_rows (y : Z) (burn_time : Frame2D) : list (Z * Z * Z) :=
  match burn_time with
  | [] => []
  | row :: rest => ignited_row y 0 row ++ ignited_rows (y + 1) rest
  end.

Definition ignited_cells (burn_time : Frame2D) : list (Z * Z * Z) :=
  ignited_rows 0 burn_time.

(** A list built by calling [f] on every element in turn; the first call
    that raises ends it. *)
Fixpoint map_result {A B : Type} (f : A -> Result B) (l : list A)
  : Result (list B) :=
  match l with
  | [] => Ok []
  | a :: rest => b <- f a ;; bs <- map_result f rest ;; Ok (b :: bs)
  end.

(** The value [Visualizer.pixel_to_latlon] returns on a grid that is not
    empty: the north-west corner of a cell. *)
Definition cell_corner {F : Type} {ops : PyFloat F} (self : Coordinates F)
    (xy : Z * Z) : F * F :=
  (fsub (north_lat self)
     (fmul (tdiv (snd xy) (grid_height self)) (delta_lat self)),
   fadd (west_lon self)
     (fmul (tdiv (fst xy) (grid_width self)) (delta_lon self))).

(* ================================================================== *)
(** ** visualize_openstreetmap.py: [create_animation_data] *)

Module Timeline.

(** One entry of [frames] and the dict the method returns. *)
Record MapFrame (F : Type) : Type := {
  time : Z;
  burning : list (F * F);
  burned : list (F * F)
}.

Arguments time {F} _.
Arguments burning {F} _.
Arguments burned {F} _.

Record AnimationData (F : Type) : Type := {
  frames : list (MapFrame F);
  total_frames : Z
}.

Arguments frames {F} _.
Arguments total_frames {F} _.

Section Timeline.
Context {F : Type} {ops : PyFloat F}.

(** The body of the two inner loops: the state [fire_map[t, y, x]] is
    read and the cell projected before the state is tested. *)
Definition classify_pixel (self : Coordinates F) (fire_map : FireMap)
    (t y x : Z) (frame_data : MapFrame F) : Result (MapFrame F) :=
  frame <- np_getitem (fm_frames fire_map) t ;;
  status <- np_getitem2 frame y x ;;
  '(lat, lon) <- Visualizer.pixel_to_latlon self x y ;;
  if status =? 1 then
    Ok {| time := time frame_data;
          burning := burning frame_data ++ [(lat, lon)];
          burned := burned frame_data |}
  else if status =? 2 then
    Ok {| time := time frame_data;
          burning := burning frame_data;
          burned := burned frame_data ++ [(lat, lon)] |}
  else Ok frame_data.

Definition create_animation_data (self : Coordinates F) (fire_map : FireMap)
  : Result (AnimationData F) :=
  frames <-
    for_each (range_upto (shape0 fire_map))
      (fun t frames =>
         frame_data <-
           for_each (range_upto (grid_height self))
             (fun y => for_each (range_upto (grid_width self))
                         (fun x => classify_pixel self fire_map t y x))
             {| time := t; burning := []; burned := [] |} ;;
         Ok (frames ++ [frame_data]))
      [] ;;
  Ok {| frames := frames; total_frames := Z.of_nat (length frames) |}.

End Timeline.
End Timeline.

(* ================================================================== *)
(** ** animate_fire_spread.py: [prepare_animation_data]

    The second half of the method computes its own burn-time matrix, of the
    shape [(grid_height, grid_width)] of the configuration, so the frame of
    the array and the matrix meet as two NumPy operands whose shapes need
    not agree. *)

(** A two-dimensional [ndarray]: its shape and its rows. *)
Record Matrix (A : Type) : Type := {
  rows : nat;
  cols : nat;
  data : list (list A)
}.

Arguments rows {A} _.
Arguments cols {A} _.
Arguments data {A} _.

(** [np.full((h, w), v)] for two Python ints: a negative dimension is a
    [ValueError]. *)
Definition np_full_shape (h w : Z) (v : Z) : Result (Matrix Z) :=
  if (h <? 0) || (w <? 0) then Raise ValueError
  else Ok {| rows := Z.to_nat h; cols := Z.to_nat w;
             data := np_full (Z.to_nat h) (Z.to_nat w) v |}.

(** [a >= v] and [a == v] *)
Definition np_ge (a : Matrix Z) (v : Z) : Matrix bool :=
  {| rows := rows a; cols := cols a;
     data := map (map (fun s => s >=? v)) (data a) |}.

Definition np_eq (a : Matrix Z) (v : Z) : Matrix bool :=
  {| rows := rows a; cols := cols a;
     data := map (map (fun s => s =? v)) (data a) |}.

(** Broadcasting of one axis: two sizes are compatible when they are equal
    or one of them is 1, and the other one is then the common size. *)
Definition broadcast_size (n m : nat) : Result nat :=
  if (n =? m)%nat then Ok n
  else if (n =? 1)%nat then Ok m
  else if (m =? 1)%nat then Ok n
  else Raise ValueError.

(** An axis of size 1 is repeated to the common size. *)
Definition broadcast_axis {A : Type} (n : nat) (l : list A) : list A :=
  match l with
  | [a] => repeat a n
  | _ => l
  end.

Definition broadcast_to {A : Type} (h w : nat) (a : Matrix A) : list (list A) :=
  map (broadcast_axis w) (broadcast_axis h (data a)).

(** [a & b] on two boolean arrays: [ValueError] when the shapes cannot be
    broadcast together. *)
Definition np_and (a b : Matrix bool) : Result (Matrix bool) :=
  h <- broadcast_size (rows a) (rows b) ;;
  w <- broadcast_size (cols a) (cols b) ;;
  Ok {| rows := h; cols := w;
        data := map2 (map2 andb) (broadcast_to h w a) (broadcast_to h w b) |}.

(** [a[mask] = v] for a boolean [mask]: [IndexError] when the mask has not
    the shape of [a]. *)
Definition np_setitem_mask (a : Matrix Z) (mask : Matrix bool) (v : Z)
  : Result (Matrix Z) :=
  if ((rows mask =? rows a) && (cols mask =? cols a))%nat then
    Ok {| rows := rows a; cols := cols a;
          data := map2 (map2 (fun (m : bool) (s : Z) => if m then v else s))
                    (data mask) (data a) |}
  else Raise IndexError.

Module Payload.

(** One entry of [burned_pixels] and the dict the method returns; [bounds]
    is (north, south, east, west), [center] and [pixel_size] are
    (lat, lon) and [grid] is (width, height). *)
Record BurnedPixel (F : Type) : Type := {
  lat : F;
  lon : F;
  time : Z
}.

Arguments lat {F} _.
Arguments lon {F} _.
Arguments time {F} _.

Record AnimationData (F : Type) : Type := {
  frames : list (FrameData F);
  total_frames : Z;
  sample_rate : Z;
  burned_pixels : list (BurnedPixel F);
  bounds : F * F * F * F;
  center : F * F;
  pixel_size : F * F;
  grid : Z * Z
}.

Arguments frames {F} _.
Arguments total_frames {F} _.
Arguments sample_rate {F} _.
Arguments burned_pixels {F} _.
Arguments bounds {F} _.
Arguments center {F} _.
Arguments pixel_size {F} _.
Arguments grid {F} _.

Section Payload.
Context {F : Type} {ops : PyFloat F}.

(** The cumulative matrix.  [np.full] without a [dtype] gives the default
    integer type, 64 bits wide, which holds every frame index as it is. *)
Definition burn_time_matrix (self : Coordinates F) (fire_map : FireMap)
  : Result (Matrix Z) :=
  burn_time_matrix <- np_full_shape (grid_height self) (grid_width self) (-1) ;;
  for_each (range_upto (shape0 fire_map))
    (fun t burn_time_matrix =>
       frame <- np_getitem (fm_frames fire_map) t ;;
       newly_burning <-
         np_and (np_ge {| rows := fm_height fire_map;
                          cols := fm_width fire_map;
                          data := frame |} 1)
                (np_eq burn_time_matrix (-1)) ;;
       np_setitem_mask burn_time_matrix newly_burning t)
    burn_time_matrix.

(** The list [burned_pixels_with_time]. *)
Definition burned_pixels_with_time (self : Coordinates F)
    (burn_time_matrix : Matrix Z) : Result (list (BurnedPixel F)) :=
  for_each (range_upto (grid_height self))
    (fun y => for_each (range_upto (grid_width self))
       (fun x burned_pixels_with_time =>
          bt <- np_getitem2 (data burn_time_matrix) y x ;;
          if bt >=? 0 then
            '(lat, lon) <- Animation.pixel_to_latlon self x y ;;
            Ok (burned_pixels_with_time ++
                  [{| lat := lat; lon := lon; time := bt |}])
          else Ok burned_pixels_with_time))
    [].

Definition prepare_animation_data (self : Coordinates F) (fire_map : FireMap)
    (sample_rate : Z) : Result (AnimationData F) :=
  let total_frames := shape0 fire_map in
  frames_data <- Animation.prepare_animation_frames self fire_map sample_rate ;;
  burn_time_matrix <- burn_time_matrix self fire_map ;;
  burned_pixels_with_time <- burned_pixels_with_time self burn_time_matrix ;;
  pixel_lat <- py_fdiv_int (delta_lat self) (grid_height self) ;;
  pixel_lon <- py_fdiv_int (delta_lon self) (grid_width self) ;;
  Ok {| frames := frames_data;
        total_frames := total_frames;
        sample_rate := sample_rate;
        burned_pixels := burned_pixels_with_time;
        bounds := (north_lat self, south_lat self, east_lon self, west_lon self);
        center := (center_lat self, center_lon self);
        pixel_size := (pixel_lat, pixel_lon);
        grid := (grid_width self, grid_height self) |}.

End Payload.
End Payload.

(* ================================================================== *)
(** ** visualize_openstreetmap.py: the legend

    The two values [_create_legend_html] computes before it fills its HTML
    template: the list [colors] and the string [gradient_stops]. *)

(** [str(n)] for an int. *)
Definition py_str_int (n : Z) : string :=
  DecimalString.NilZero.string_of_int (Z.to_int n).

Module Legend.
Section Legend.
Context {F : Type} {ops : PyFloat F}.

(** [colors]: for [i] in [range(6)] the time [int(i * max_time / 5)] and
    its colour. *)
Definition colors (max_time : Z) (colormap : string)
  : Result (list (Z * option string)) :=
  for_each (range_upto 6)
    (fun i colors =>
       t <- ftrunc (tdiv (i * max_time) 5) ;;
       color <- Visualizer.time_to_color t max_time colormap ;;
       Ok (colors ++ [(t, color)]))
    [].

End Legend.

(** [f"{c[1]} {i*20}%"]: a colour that is [None] is written ["None"]. *)
Definition gradient_stop (i : Z) (c : Z * option string) : string :=
  String.append
    (match snd c with Some color => color | None => "None" end)
    (String.append " " (String.append (py_str_int (i * 20)) "%")).

(** [", ".join([... for i, c in enumerate(colors)])] *)
Definition gradient_stops (colors : list (Z * option string)) : string :=
  String.concat ", "
    (map (fun ic => gradient_stop (fst ic) (snd ic))
       (combine (range_upto (Z.of_nat (length colors))) colors)).

End Legend.

(* ================================================================== *)
(** ** [find_latest_simulation]

    The same function in the three scripts.  The file system is a tree of
    files and directories; a directory lists its entries by name.  A path is
    given by the node it leads to, if any. *)

Module Files.

#[warnings="-register-all"]
Inductive Node : Type :=
| File
| Directory (entries : list (string * Node)).

(** [NotADirectoryError], which [iterdir()] raises on a file. *)
Inductive OSError : Type :=
| NotADirectoryError.

(** [path / name] *)
Definition child (path : option Node) (name : string) : option Node :=
  match path with
  | Some (Directory entries) =>
      match find (fun e => String.eqb (fst e) name) entries with
      | Some e => Some (snd e)
      | None => None
      end
  | _ => None
  end.

(** [path.exists()] and [path.is_dir()] *)
Definition path_exists (path : option Node) : bool :=
  match path with Some _ => true | None => false end.

Definition is_dir (path : option Node) : bool :=
  match path with Some (Directory _) => true | _ => false end.

(** [sorted(paths, reverse=True)]: paths of one directory are ordered by
    their names, compared character by character; the names of one
    directory are distinct, so the order of the result is determined. *)
Fixpoint insert_descending (e : string * Node) (l : list (string * Node))
  : list (string * Node) :=
  match l with
  | [] => [e]
  | e' :: rest =>
      if String.ltb (fst e) (fst e') then e' :: insert_descending e rest
      else e :: l
  end.

Definition sorted_reverse (l : list (string * Node)) : list (string * Node) :=
  fold_right insert_descending [] l.

(** [find_latest_simulation(base_dir)]: the name of the directory returned,
    or [None]. *)
Definition find_latest_simulation (base_dir : option Node)
  : OSError + option string :=
  let data_dir := child base_dir "data" in
  if negb (path_exists data_dir) then inr None
  else
    match data_dir with
    | Some (Directory entries) =>
        let sim_dirs := sorted_reverse entries in
        inr (option_map fst
               (find (fun d => is_dir (Some (snd d)) &&
                               path_exists (child (Some (snd d)) "fire_map.npy"))
                     sim_dirs))
    | _ => inl NotADirectoryError
    end.

End Files.

(** One entry of the frames of [create_animation_data], as a function of
    the frame. *)
Definition map_frame_of {F : Type} {ops : PyFloat F} (self : Coordinates F)
    (t : Z) (frame : Frame2D) : Timeline.MapFrame F :=
  {| Timeline.time := t;
     Timeline.burning := map (cell_corner self) (cells_with_state 1 frame);
     Timeline.burned := map (cell_corner self) (cells_with_state 2 frame) |}.

(** The entry of [burned_pixels] for an ignited cell (x, y, burn time). *)
Definition burned_pixel_of {F : Type} {ops : PyFloat F} (self : Coordinates F)
    (c : Z * Z * Z) : Payload.BurnedPixel F :=
  {| Payload.lat := fst (cell_center self (fst c));
     Payload.lon := snd (cell_center self (fst c));
     Payload.time := snd c |}.

(** Row-major order on (x, y, value) triples: by row, then by column. *)
Definition row_major (c c' : Z * Z * Z) : Prop :=
  snd (fst c) < snd (fst c') \/
  (snd (fst c) = snd (fst c') /\ fst (fst c) < fst (fst c')).

(** What one pass of the animation's loop does to a cell when the frame
    and the matrix have one shape, and the passes over a list of frames. *)
Definition mark_cell_wide (t s b : Z) : Z :=
  if (s >=? 1) && (b =? -1) then t else b.

Fixpoint burn_loop_wide (t : Z) (frames : list Frame2D) (burn_time : Frame2D)
  : Frame2D :=
  match frames with
  | [] => burn_time
  | frame :: rest =>
      burn_loop_wide (t + 1) rest (map2 (map2 (mark_cell_wide t)) frame burn_time)
  end.

(* ================================================================== *)
(** ** visualize_openstreetmap.py: the burned-area layer of [create_map]

    The part of [create_map] that computes: the rectangles it adds to
    [fire_layer].  A rectangle is kept as the arguments [folium.Rectangle]
    is called with ([color] and [fill_color] are the same value). *)

Module MapLayer.

Record Rectangle (F : Type) : Type := {
  bounds : (F * F) * (F * F);
  color : option string;
  fill_opacity : F;
  weight : PyNumber F;
  tooltip : string
}.

Arguments bounds {F} _.
Arguments color {F} _.
Arguments fill_opacity {F} _.
Arguments weight {F} _.
Arguments tooltip {F} _.

(** [f"Pixel ({x}, {y})<br>Queimou no frame {burn_time}<br>Tempo: {burn_time} min"] *)
Definition tooltip_text (x y burn_time : Z) : string :=
  String.concat ""
    ["Pixel ("; py_str_int x; ", "; py_str_int y; ")<br>Queimou no frame ";
     py_str_int burn_time; "<br>Tempo: "; py_str_int burn_time; " min"]%string.

Section MapLayer.
Context {F : Type} {ops : PyFloat F}.

Definition rectangle (self : Coordinates F) (colormap : string) (opacity : F)
    (show_grid : bool) (x y burn_time max_time : Z) : Result (Rectangle F) :=
  color <- Visualizer.time_to_color burn_time max_time colormap ;;
  bounds <- Visualizer.get_pixel_bounds self x y ;;
  Ok {| bounds := bounds;
        color := color;
        fill_opacity := opacity;
        weight := if show_grid then PyFloatValue lit_0_5 else PyInt 0;
        tooltip := tooltip_text x y burn_time |}.

(** The loop over the grid of the configuration. *)
Definition fire_layer (self : Coordinates F) (burn_time_matrix : Frame2D)
    (colormap : string) (opacity : F) (show_grid : bool)
  : Result (list (Rectangle F)) :=
  max_time <- np_max burn_time_matrix ;;
  for_each (range_upto (grid_height self))
    (fun y => for_each (range_upto (grid_width self))
       (fun x fire_layer =>
          burn_time <- np_getitem2 burn_time_matrix y x ;;
          if burn_time >=? 0 then
            r <- rectangle self colormap opacity show_grid x y burn_time max_time ;;
            Ok (fire_layer ++ [r])
          else Ok fire_layer))
    [].

End MapLayer.
End MapLayer.

(** A triple of colour channels, each between 0 and 255. *)
Definition is_rgb (c : Z * Z * Z) : Prop :=
  0 <= fst (fst c) <= 255 /\ 0 <= snd (fst c) <= 255 /\ 0 <= snd c <= 255.


(** A directory entry that [find_latest_simulation] accepts: a directory
    that has an entry [fire_map.npy]. *)
Definition holds_fire_map (e : string * Files.Node) : Prop :=
  exists entries node,
    snd e = Files.Directory entries /\ In ("fire_map.npy"%string, node) entries.

(** The order of a list sorted in reverse: later entries are not greater. *)
Definition descending (a b : string * Files.Node) : Prop :=
  String.leb (fst b) (fst a) = true.

(* ================================================================== *)
(** ** animate_fire_spread.py: the player of the generated page

    The script that [_generate_html_template] writes into the page, as a
    state machine.  Its data are [animData], the payload of
    [prepare_animation_data], and [areaPerPixel].  The numbers that count
    frames are JavaScript numbers holding integers and are kept as [Z]
    ([Math.floor(a / b)] is [a / b]); [sampleRate] is never 0 in a page,
    since [prepare_animation_data] fails for it.  The layers of the map are
    kept as the lists of the rectangles added to them, and the texts
    [updateStats] writes as the values they render. *)

Module Player.

(** [L.rectangle(bounds, {color, weight: 0, fillColor: color, fillOpacity})];
    [bounds] is [[[south, west], [north, east]]]. *)
Record Rect (F : Type) : Type := {
  bounds : (F * F) * (F * F);
  color : string;
  fillOpacity : F
}.

Arguments bounds {F} _.
Arguments color {F} _.
Arguments fillOpacity {F} _.

(** What [updateStats] writes: [statArea] and [statPercent] are the numbers
    shown with one decimal, [progressFill] the width in percent. *)
Record Stats (F : Type) : Type := {
  statTime : Z;
  statBurning : Z;
  statBurned : Z;
  statArea : F;
  statPercent : F;
  progressFill : F;
  timeDisplay : string;
  timeSlider : Z
}.

Arguments statTime {F} _.
Arguments statBurning {F} _.
Arguments statBurned {F} _.
Arguments statArea {F} _.
Arguments statPercent {F} _.
Arguments progressFill {F} _.
Arguments timeDisplay {F} _.
Arguments timeSlider {F} _.

(** The variables of the script and the parts of the page it changes;
    [playInterval] holds the delay of the running timer and [stats] is
    [None] while the page shows the texts of its markup. *)
Record State (F : Type) : Type := {
  currentFrame : Z;
  isPlaying : bool;
  playInterval : option Z;
  speed : Z;
  burningLayer : list (Rect F);
  burnedLayer : list (Rect F);
  burnedRects : list (Z * Rect F);
  lastBurnedFrame : Z;
  playIcon : string;
  playText : string;
  stats : option (Stats F)
}.

Arguments currentFrame {F} _.
Arguments isPlaying {F} _.
Arguments playInterval {F} _.
Arguments speed {F} _.
Arguments burningLayer {F} _.
Arguments burnedLayer {F} _.
Arguments burnedRects {F} _.
Arguments lastBurnedFrame {F} _.
Arguments playIcon {F} _.
Arguments playText {F} _.
Arguments stats {F} _.

(** How a handler ends: it returns, it throws a [TypeError] (the state is
    the one reached when it throws), or it never returns. *)
Inductive Outcome (F : Type) : Type :=
| Done (s : State F)
| TypeError (s : State F)
| Hangs.

Arguments Done {F} s.
Arguments TypeError {F} s.
Arguments Hangs {F}.

(** What the user and the timer do. *)
Inductive Event : Type :=
| TogglePlay
| Reset
| StepBackward
| StepForward
| Seek (frame : Z)
| ChangeSpeed (newSpeed : Z)
| Tick.

(** [String(n).padStart(2, '0')] *)
Definition pad2 (n : Z) : string :=
  let s := py_str_int n in
  if (String.length s <? 2)%nat then String.append "0" s else s.

(** [a[i]] on an array: [undefined] outside it. *)
Definition js_index {A : Type} (a : list A) (i : Z) : option A :=
  if i <? 0 then None else nth_error a (Z.to_nat i).

(** The times [t] of [for (let t = start; t <= stop; t += step)]; with a
    step that is not positive the loop, once entered, never ends. *)
Definition js_for_times (start stop step : Z) : option (list Z) :=
  if stop <? start then Some []
  else if step <=? 0 then None
  else Some (map (fun i => start + Z.of_nat i * step)
               (seq 0 (Z.to_nat ((stop - start) / step + 1)))).

Section Player.
Context {F : Type} {ops : PyFloat F}.
Variable animData : Payload.AnimationData F.
Variable areaPerPixel : F.

Definition pixelSizeLat : F := fst (Payload.pixel_size animData).
Definition pixelSizeLon : F := snd (Payload.pixel_size animData).
Definition totalFrames : Z := Payload.total_frames animData.
Definition sampleRate : Z := Payload.sample_rate animData.

(** [Math.floor(p.time / sampleRate) * sampleRate] *)
Definition bucket (time : Z) : Z := time / sampleRate * sampleRate.

(** [if (!burnedByTime[t]) burnedByTime[t] = []; burnedByTime[t].push(p)] *)
Fixpoint push (t : Z) (p : Payload.BurnedPixel F)
    (m : list (Z * list (Payload.BurnedPixel F)))
  : list (Z * list (Payload.BurnedPixel F)) :=
  match m with
  | [] => [(t, [p])]
  | e :: rest =>
      if fst e =? t then (fst e, snd e ++ [p]) :: rest
      else e :: push t p rest
  end.

Definition burnedByTime : list (Z * list (Payload.BurnedPixel F)) :=
  fold_left (fun m p => push (bucket (Payload.time p)) p m)
    (Payload.burned_pixels animData) [].

(** [burnedByTime[t] || []] *)
Definition pixels_at (t : Z) : list (Payload.BurnedPixel F) :=
  match find (fun e => fst e =? t) burnedByTime with
  | Some e => snd e
  | None => []
  end.

(** [createPixelRect(lat, lon, color, opacity)]; the script calls it
    with the opacities 0.9 and 0.6, the floats nearest to 9/10 and 6/10. *)
Definition createPixelRect (lat lon : F) (color : string) (opacity : F)
  : Rect F :=
  let halfLat := fdiv pixelSizeLat (of_int 2) in
  let halfLon := fdiv pixelSizeLon (of_int 2) in
  {| bounds := ((fsub lat halfLat, fsub lon halfLon),
                (fadd lat halfLat, fadd lon halfLon));
     color := color;
     fillOpacity := opacity |}.

(** [updateStats(frame)] *)
Definition updateStats (frame : FrameData F) (s : State F) : State F :=
  let burnedCount := Z.of_nat (length (burnedRects s)) in
  let burningCount := Z.of_nat (length (burning frame)) in
  let totalPixels := fst (Payload.grid animData) * snd (Payload.grid animData) in
  let areaHa := fmul (of_int burnedCount) areaPerPixel in
  let percent := fmul (tdiv burnedCount totalPixels) (of_int 100) in
  let progress := fmul (tdiv (currentFrame s) totalFrames) (of_int 100) in
  let minutes := currentFrame s in
  let hours := minutes / 60 in
  let mins := Z.rem minutes 60 in
  {| currentFrame := currentFrame s;
     isPlaying := isPlaying s;
     playInterval := playInterval s;
     speed := speed s;
     burningLayer := burningLayer s;
     burnedLayer := burnedLayer s;
     burnedRects := burnedRects s;
     lastBurnedFrame := lastBurnedFrame s;
     playIcon := playIcon s;
     playText := playText s;
     stats := Some {| statTime := currentFrame s;
                      statBurning := burningCount;
                      statBurned := burnedCount;
                      statArea := areaHa;
                      statPercent := percent;
                      progressFill := progress;
                      timeDisplay :=
                        String.append (pad2 hours)
                          (String.append ":" (pad2 mins));
                      timeSlider := currentFrame s |} |}.

(** The rectangles one pass of the loop over [t] adds. *)
Definition burned_at (t : Z) : list (Z * Rect F) :=
  map (fun p => (t, createPixelRect (Payload.lat p) (Payload.lon p)
                      "#8b4513" (tdiv 6 10)))
    (pixels_at t).

(** [updateVisualization()] *)
Definition updateVisualization (s : State F) : Outcome F :=
  let frameIndex := currentFrame s / sampleRate in
  let frame :=
    js_index (Payload.frames animData)
      (Z.min frameIndex (Z.of_nat (length (Payload.frames animData)) - 1)) in
  match frame with
  | None =>
      TypeError {| currentFrame := currentFrame s;
                   isPlaying := isPlaying s;
                   playInterval := playInterval s;
                   speed := speed s;
                   burningLayer := [];
                   burnedLayer := burnedLayer s;
                   burnedRects := burnedRects s;
                   lastBurnedFrame := lastBurnedFrame s;
                   playIcon := playIcon s;
                   playText := playText s;
                   stats := stats s |}
  | Some frame =>
      match js_for_times ((lastBurnedFrame s + 1) * sampleRate)
              (currentFrame s) sampleRate with
      | None => Hangs
      | Some ts =>
          let added := flat_map burned_at ts in
          Done (updateStats frame
                  {| currentFrame := currentFrame s;
                     isPlaying := isPlaying s;
                     playInterval := playInterval s;
                     speed := speed s;
                     burningLayer :=
                       map (fun p => createPixelRect (fst p) (snd p)
                                       "#ff4444" (tdiv 9 10))
                         (burning frame);
                     burnedLayer := burnedLayer s ++ map snd added;
                     burnedRects := burnedRects s ++ added;
                     lastBurnedFrame := frameIndex;
                     playIcon := playIcon s;
                     playText := playText s;
                     stats := stats s |})
      end
  end.

(** [startPlayback()] and [stopPlayback()]: the callback of the timer is
    the event [Tick]. *)
Definition startPlayback (s : State F) : State F :=
  {| currentFrame := currentFrame s;
     isPlaying := isPlaying s;
     playInterval := Some (speed s);
     speed := speed s;
     burningLayer := burningLayer s;
     burnedLayer := burnedLayer s;
     burnedRects := burnedRects s;
     lastBurnedFrame := lastBurnedFrame s;
     playIcon := playIcon s;
     playText := playText s;
     stats := stats s |}.

Definition stopPlayback (s : State F) : State F :=
  {| currentFrame := currentFrame s;
     isPlaying := isPlaying s;
     playInterval := None;
     speed := speed s;
     burningLayer := burningLayer s;
     burnedLayer := burnedLayer s;
     burnedRects := burnedRects s;
     lastBurnedFrame := lastBurnedFrame s;
     playIcon := playIcon s;
     playText := playText s;
     stats := stats s |}.

(** [togglePlay()] *)
Definition togglePlay (s : State F) : State F :=
  let playing := negb (isPlaying s) in
  let s' :=
    {| currentFrame := currentFrame s;
       isPlaying := playing;
       playInterval := playInterval s;
       speed := speed s;
       burningLayer := burningLayer s;
       burnedLayer := burnedLayer s;
       burnedRects := burnedRects s;
       lastBurnedFrame := lastBurnedFrame s;
       playIcon := if playing then "fas fa-pause" else "fas fa-play";
       playText := if playing then "Pause" else "Play";
       stats := stats s |} in
  if playing then startPlayback s' else stopPlayback s'.

(** The callback of [setInterval]. *)
Definition tick (s : State F) : Outcome F :=
  if currentFrame s >=? totalFrames - 1 then Done (togglePlay s)
  else
    updateVisualization
      {| currentFrame := currentFrame s + sampleRate;
         isPlaying := isPlaying s;
         playInterval := playInterval s;
         speed := speed s;
         burningLayer := burningLayer s;
         burnedLayer := burnedLayer s;
         burnedRects := burnedRects s;
         lastBurnedFrame := lastBurnedFrame s;
         playIcon := playIcon s;
         playText := playText s;
         stats := stats s |}.

(** [resetAnimation()] *)
Definition resetAnimation (s : State F) : Outcome F :=
  updateVisualization
    {| currentFrame := 0;
       isPlaying := false;
       playInterval := None;
       speed := speed s;
       burningLayer := burningLayer s;
       burnedLayer := [];
       burnedRects := [];
       lastBurnedFrame := -1;
       playIcon := "fas fa-play";
       playText := "Play";
       stats := stats s |}.

(** [seekTo(frame)], for the integer [parseInt] reads from the slider. *)
Definition seekTo (frame : Z) (s : State F) : Outcome F :=
  let back := frame <? currentFrame s in
  updateVisualization
    {| currentFrame := frame;
       isPlaying := isPlaying s;
       playInterval := playInterval s;
       speed := speed s;
       burningLayer := burningLayer s;
       burnedLayer := if back then [] else burnedLayer s;
       burnedRects := if back then [] else burnedRects s;
       lastBurnedFrame := if back then -1 else lastBurnedFrame s;
       playIcon := playIcon s;
       playText := playText s;
       stats := stats s |}.

(** [stepForward()] and [stepBackward()] *)
Definition stepForward (s : State F) : Outcome F :=
  if currentFrame s <? totalFrames - 1 then
    updateVisualization
      {| currentFrame := currentFrame s + sampleRate;
         isPlaying := isPlaying s;
         playInterval := playInterval s;
         speed := speed s;
         burningLayer := burningLayer s;
         burnedLayer := burnedLayer s;
         burnedRects := burnedRects s;
         lastBurnedFrame := lastBurnedFrame s;
         playIcon := playIcon s;
         playText := playText s;
         stats := stats s |}
  else Done s.

Definition stepBackward (s : State F) : Outcome F :=
  if currentFrame s >? 0 then seekTo (Z.max 0 (currentFrame s - sampleRate)) s
  else Done s.

(** [changeSpeed(newSpeed)] *)
Definition changeSpeed (newSpeed : Z) (s : State F) : State F :=
  let s' :=
    {| currentFrame := currentFrame s;
       isPlaying := isPlaying s;
       playInterval := playInterval s;
       speed := newSpeed;
       burningLayer := burningLayer s;
       burnedLayer := burnedLayer s;
       burnedRects := burnedRects s;
       lastBurnedFrame := lastBurnedFrame s;
       playIcon := playIcon s;
       playText := playText s;
       stats := stats s |} in
  if isPlaying s' then startPlayback (stopPlayback s') else s'.

(** The state when the script has declared its variables, and the call
    [updateVisualization()] that ends it. *)
Definition loaded : State F :=
  {| currentFrame := 0;
     isPlaying := false;
     playInterval := None;
     speed := 500;
     burningLayer := [];
     burnedLayer := [];
     burnedRects := [];
     lastBurnedFrame := -1;
     playIcon := "fas fa-play";
     playText := "Play";
     stats := None |}.

Definition initialise : Outcome F := updateVisualization loaded.

(** An event can happen: the timer fires only while it runs, and the
    slider gives a frame between its [min], 0, and its [max],
    [total_frames - 1]. *)
Definition enabled (e : Event) (s : State F) : Prop :=
  match e with
  | Tick => playInterval s <> None
  | Seek frame => 0 <= frame <= Z.max 0 (totalFrames - 1)
  | _ => True
  end.

Definition handle (e : Event) (s : State F) : Outcome F :=
  match e with
  | TogglePlay => Done (togglePlay s)
  | Reset => resetAnimation s
  | StepBackward => stepBackward s
  | StepForward => stepForward s
  | Seek frame => seekTo frame s
  | ChangeSpeed newSpeed => Done (changeSpeed newSpeed s)
  | Tick => tick s
  end.

(** The states the page can be in: after the script has run, and after
    each event that ended (an event that threw leaves the state it had
    reached). *)
Definition state_after (o : Outcome F) : option (State F) :=
  match o with
  | Done s => Some s
  | TypeError s => Some s
  | Hangs => None
  end.

Inductive reachable : State F -> Prop :=
| reach_load (s : State F) :
    state_after initialise = Some s -> reachable s
| reach_event (s s' : State F) (e : Event) :
    reachable s -> enabled e s -> state_after (handle e s) = Some s' ->
    reachable s'.

(** The rectangles of the burned layer when the current frame is in the
    sample of index [k]: those of the times [0], [sampleRate], ...,
    [k * sampleRate], in this order. *)
Definition burned_upto (k : Z) : list (Z * Rect F) :=
  flat_map (fun j => burned_at (j * sampleRate)) (range_upto (k + 1)).

(** The burned pixels whose time falls in a sample of index at most [k]. *)
Definition ignited_by (k : Z) : list (Payload.BurnedPixel F) :=
  filter (fun p => (0 <=? Payload.time p / sampleRate) &&
                   (Payload.time p / sampleRate <=? k))
    (Payload.burned_pixels animData).

(** [n] firings of the timer, as long as each one returns. *)
Fixpoint ticks (n : nat) (s : State F) : Outcome F :=
  match n with
  | O => Done s
  | S n' =>
      match tick s with
      | Done s' => ticks n' s'
      | o => o
      end
  end.

End Player.
End Player.

(** A state of the player in which the page shows what belongs to the
    current frame: the burned layer holds the rectangles of every sample up
    to the current one and none twice, the burning layer those of the frame
    shown, the statistics are up to date, the timer runs exactly while the
    player is playing and the button says so. *)
Definition player_consistent {F : Type} {ops : PyFloat F}
    (animData : Payload.AnimationData F) (areaPerPixel : F)
    (s : Player.State F) : Prop :=
  let k := Player.currentFrame s / Payload.sample_rate animData in
  0 <= Player.currentFrame s /\
  Player.currentFrame s <=
    Z.max 0 (Payload.total_frames animData - 1) +
    Payload.sample_rate animData - 1 /\
  Player.lastBurnedFrame s = k /\
  Player.burnedRects s = Player.burned_upto animData k /\
  Player.burnedLayer s = map snd (Player.burnedRects s) /\
  (Player.playInterval s <> None <-> Player.isPlaying s = true) /\
  Player.playText s =
    (if Player.isPlaying s then "Pause" else "Play")%string /\
  exists frame,
    Player.js_index (Payload.frames animData)
      (Z.min k (Z.of_nat (length (Payload.frames animData)) - 1)) =
      Some frame /\
    Player.burningLayer s =
      map (fun p => Player.createPixelRect animData (fst p) (snd p)
                      "#ff4444" (tdiv 9 10))
        (burning frame) /\
    Player.updateStats animData areaPerPixel frame s = s.

(* ================================================================== *)
(** ** Further configurations and arrays of the examples *)


(** A recording of two frames on a grid without rows, and its
    configuration. *)
Definition empty_grid_fire_map : FireMap :=
  {| fm_frames := [ []; [] ];
     fm_height := 0;
     fm_width := 3 |}.

Definition empty_grid_config : GridConfig float :=
  {| latitude := B64.from_int 0;
     longitude := B64.from_int 0;
     screen_height := 0;
     screen_width := 3;
     pixel_scale := B64.from_int 50 |}.

(* ================================================================== *)
(* ================================================================== *)
(** * Properties *)

(* ================================================================== *)
(** ** Matrices of a given shape *)

Lemma cell_in_shape {h w : nat} {m : Frame2D} {y x : nat} :
  has_shape h w m -> (y < h)%nat -> (x < w)%nat -> exists v, cell m y x = Some v.
Proof.
  intros [Hlen Hrows] Hy Hx. unfold cell.
  destruct (nth_error m y) as [row|] eqn:E.
  - assert (Hw : length row = w).
    { rewrite Forall_forall in Hrows. apply Hrows. eapply nth_error_In; eauto. }
    destruct (nth_error row x) as [v|] eqn:E'; [eauto|].
    apply nth_error_None in E'. lia.
  - apply nth_error_None in E. lia.
Qed.

Lemma map2_length {A B C : Type} (f : A -> B -> C) (l : list A) (l' : list B) :
  length l = length l' -> length (map2 f l l') = length l.
Proof.
  revert l'. induction l as [|a l IH]; intros [|b l'] H; simpl in *; try lia.
  rewrite IH; lia.
Qed.

Lemma map2_nth_error {A B C : Type} (f : A -> B -> C) {l : list A} {l' : list B} {n a b} :
  nth_error l n = Some a -> nth_error l' n = Some b ->
  nth_error (map2 f l l') n = Some (f a b).
Proof.
  revert l' n. induction l as [|a0 l IH]; intros [|b0 l'] [|n] Ha Hb;
    simpl in *; try discriminate.
  - congruence.
  - eauto.
Qed.

Lemma has_shape_np_full (h w : nat) (v : Z) : has_shape h w (np_full h w v).
Proof.
  unfold np_full. split.
  - apply repeat_length.
  - apply Forall_forall. intros row Hin. apply repeat_spec in Hin. subst.
    apply repeat_length.
Qed.

Lemma cell_np_full {h w : nat} (v : Z) {y x : nat} :
  (y < h)%nat -> (x < w)%nat -> cell (np_full h w v) y x = Some v.
Proof.
  intros Hy Hx. unfold cell, np_full.
  rewrite (nth_error_repeat _ Hy). apply nth_error_repeat. exact Hx.
Qed.

Lemma has_shape_mark {h w : nat} (t : Z) {frame bt : Frame2D} :
  has_shape h w frame -> has_shape h w bt ->
  has_shape h w (mark_newly_burning t frame bt).
Proof.
  intros [Hl1 Hr1] [Hl2 Hr2]. unfold mark_newly_burning. split.
  - rewrite map2_length; lia.
  - clear Hl1 Hl2. revert bt Hr2.
    induction frame as [|r1 frame IH]; intros [|r2 bt] Hr2; simpl; try constructor.
    + inversion Hr1; inversion Hr2; subst. rewrite map2_length; lia.
    + inversion Hr1; inversion Hr2; subst. apply IH; assumption.
Qed.

Lemma cell_mark (t : Z) {frame bt : Frame2D} {y x : nat} {s v : Z} :
  cell frame y x = Some s -> cell bt y x = Some v ->
  cell (mark_newly_burning t frame bt) y x = Some (mark_cell t s v).
Proof.
  unfold cell, mark_newly_burning. intros Hs Hv.
  destruct (nth_error frame y) as [r1|] eqn:E1; [|discriminate].
  destruct (nth_error bt y) as [r2|] eqn:E2; [|discriminate].
  rewrite (map2_nth_error _ E1 E2).
  apply map2_nth_error; assumption.
Qed.

Lemma burn_loop_shape {h w : nat} {frames : list Frame2D} :
  Forall (has_shape h w) frames ->
  forall t bt, has_shape h w bt -> has_shape h w (burn_loop t frames bt).
Proof.
  induction 1 as [|frame rest Hf _ IH]; intros t bt Hbt; simpl; [assumption|].
  apply IH. apply has_shape_mark; assumption.
Qed.

(** Two matrices of one shape that agree cell by cell are equal. *)
Lemma shape_ext {h w : nat} {m m' : Frame2D} :
  has_shape h w m -> has_shape h w m' ->
  (forall y x, (y < h)%nat -> (x < w)%nat -> cell m y x = cell m' y x) ->
  m = m'.
Proof.
  intros [Hl Hr] [Hl' Hr'] Hc.
  apply nth_error_ext. intros y.
  destruct (Nat.lt_ge_cases y h) as [Hy|Hy].
  - destruct (nth_error m y) as [r|] eqn:E; [|apply nth_error_None in E; lia].
    destruct (nth_error m' y) as [r'|] eqn:E'; [|apply nth_error_None in E'; lia].
    f_equal. apply nth_error_ext. intros x.
    assert (Hw : length r = w).
    { rewrite Forall_forall in Hr. apply Hr. eapply nth_error_In; eauto. }
    assert (Hw' : length r' = w).
    { rewrite Forall_forall in Hr'. apply Hr'. eapply nth_error_In; eauto. }
    destruct (Nat.lt_ge_cases x w) as [Hx|Hx].
    + specialize (Hc y x Hy Hx). unfold cell in Hc. rewrite E, E' in Hc. exact Hc.
    + transitivity (@None Z); [|symmetry]; apply nth_error_None; lia.
  - transitivity (@None (list Z)); [|symmetry]; apply nth_error_None; lia.
Qed.

(* ================================================================== *)
(** ** The burn-time matrix is the time of first ignition *)

Lemma to_int32_small (z : Z) : 0 <= z < 2 ^ 31 -> to_int32 z = z.
Proof.
  intros H. unfold to_int32. rewrite Z.mod_small; lia.
Qed.

Lemma mark_cell_frozen (t s v : Z) : v <> -1 -> mark_cell t s v = v.
Proof.
  intros Hv. unfold mark_cell.
  destruct (v =? -1) eqn:E; [apply Z.eqb_eq in E; contradiction|].
  now rewrite andb_false_r.
Qed.

Lemma mark_cell_cold (t : Z) {s : Z} : s < 1 -> mark_cell t s (-1) = -1.
Proof.
  intros Hs. unfold mark_cell.
  destruct (s >=? 1) eqn:E; [|reflexivity].
  apply Z.geb_le in E. lia.
Qed.

Lemma mark_cell_ignites {t s : Z} :
  s >= 1 -> 0 <= t < 2 ^ 31 -> mark_cell t s (-1) = t.
Proof.
  intros Hs Ht. unfold mark_cell.
  destruct (s >=? 1) eqn:E.
  - simpl. apply to_int32_small. exact Ht.
  - rewrite Z.geb_leb in E. apply Z.leb_gt in E. lia.
Qed.

(** A cell that holds a frame index is never written again. *)
Lemma burn_loop_frozen {h w : nat} {frames : list Frame2D} :
  Forall (has_shape h w) frames ->
  forall t {bt y x v},
    has_shape h w bt -> (y < h)%nat -> (x < w)%nat ->
    cell bt y x = Some v -> v <> -1 ->
    cell (burn_loop t frames bt) y x = Some v.
Proof.
  induction 1 as [|frame rest Hf _ IH]; intros t bt y x v Hbt Hy Hx Hc Hv; simpl.
  - exact Hc.
  - destruct (cell_in_shape Hf Hy Hx) as [s Hs].
    apply IH; auto using has_shape_mark.
    rewrite (cell_mark t Hs Hc). f_equal. now apply mark_cell_frozen.
Qed.

(** The loop seen from one cell that is still [-1]: either no frame ignites
    it and it stays [-1], or it receives the index of the first frame in
    which its state is at least 1. *)
Lemma burn_loop_first {h w : nat} {frames : list Frame2D} :
  Forall (has_shape h w) frames ->
  forall t {bt y x},
    has_shape h w bt -> (y < h)%nat -> (x < w)%nat ->
    0 <= t -> t + Z.of_nat (length frames) <= 2 ^ 31 ->
    cell bt y x = Some (-1) ->
    (cell (burn_loop t frames bt) y x = Some (-1) /\
     forall k m s, nth_error frames k = Some m -> cell m y x = Some s -> s < 1)
    \/
    (exists k m s,
        nth_error frames k = Some m /\ cell m y x = Some s /\ s >= 1 /\
        cell (burn_loop t frames bt) y x = Some (t + Z.of_nat k) /\
        forall k' m' s', (k' < k)%nat ->
          nth_error frames k' = Some m' -> cell m' y x = Some s' -> s' < 1).
Proof.
  induction 1 as [|frame rest Hf Hrest IH]; intros t bt y x Hbt Hy Hx Ht HT Hc.
  - left. split; [exact Hc|]. intros [|k] m s Hk; discriminate.
  - simpl. simpl length in HT.
    destruct (cell_in_shape Hf Hy Hx) as [s Hs].
    assert (Hm := cell_mark t Hs Hc).
    assert (Hsh := has_shape_mark t Hf Hbt).
    destruct (Z_lt_ge_dec s 1) as [Hlo|Hhi].
    + rewrite (mark_cell_cold t Hlo) in Hm.
      destruct (IH (t + 1) _ y x Hsh Hy Hx ltac:(lia) ltac:(lia) Hm)
        as [[Hres Hall]|(k & m & s' & Hk & Hcs & Hge & Hres & Hbefore)].
      * left. split; [exact Hres|].
        intros [|k] m s' Hk Hcs; simpl in Hk.
        -- injection Hk as <-. congruence.
        -- eauto.
      * right. exists (S k), m, s'. repeat split; auto.
        -- rewrite Hres. f_equal. lia.
        -- intros [|k'] m' s'' Hlt Hk' Hcs'; simpl in Hk'.
           ++ injection Hk' as <-. congruence.
           ++ apply (Hbefore k' m' s''); auto. lia.
    + rewrite (mark_cell_ignites Hhi) in Hm by lia.
      right. exists 0%nat, frame, s. repeat split; auto.
      * rewrite (burn_loop_frozen Hrest (t + 1) Hsh Hy Hx Hm) by lia.
        f_equal. lia.
      * intros k' m' s' Hlt. lia.
Qed.

Lemma valid_cell {fm : FireMap} {t y x : nat} {s : Z} :
  valid_states fm -> state_at fm t y x = Some s -> s = 0 \/ s = 1 \/ s = 2.
Proof.
  unfold valid_states, state_at, cell. intros Hv Hs.
  destruct (nth_error (fm_frames fm) t) as [m|] eqn:Em; [|discriminate].
  destruct (nth_error m y) as [row|] eqn:Er; [|discriminate].
  rewrite Forall_forall in Hv. specialize (Hv m (nth_error_In _ _ Em)).
  rewrite Forall_forall in Hv. specialize (Hv row (nth_error_In _ _ Er)).
  rewrite Forall_forall in Hv. exact (Hv s (nth_error_In _ _ Hs)).
Qed.

Lemma state_at_in_shape {fm : FireMap} (t : nat) {y x : nat} :
  wf_fire_map fm -> (t < length (fm_frames fm))%nat ->
  (y < fm_height fm)%nat -> (x < fm_width fm)%nat ->
  exists m s, nth_error (fm_frames fm) t = Some m /\ cell m y x = Some s /\
              state_at fm t y x = Some s.
Proof.
  intros Hwf Ht Hy Hx. unfold state_at.
  destruct (nth_error (fm_frames fm) t) as [m|] eqn:Em;
    [|apply nth_error_None in Em; lia].
  unfold wf_fire_map in Hwf. rewrite Forall_forall in Hwf.
  destruct (cell_in_shape (Hwf m (nth_error_In _ _ Em)) Hy Hx) as [s Hs].
  exists m, s. auto.
Qed.

(** C1.  For a [fire_map] with states in {0, 1, 2} (and no more frames than
    an [int32] cell can number), the burn-time matrix has the shape of a
    frame and every cell of it holds [-1] when the cell's state is 0 in every
    frame, and otherwise the least frame index [t] at which the state is at
    least 1: the state at that index is at least 1 and the state at every
    earlier index is 0. *)
Theorem burn_time_is_first_ignition (fm : FireMap) :
  wf_fire_map fm -> valid_states fm -> shape0 fm <= 2 ^ 31 ->
  has_shape (fm_height fm) (fm_width fm) (_compute_burn_time_matrix fm) /\
  forall y x, (y < fm_height fm)%nat -> (x < fm_width fm)%nat ->
    exists v, cell (_compute_burn_time_matrix fm) y x = Some v /\
      ((v = -1 /\
        forall t, (t < length (fm_frames fm))%nat -> state_at fm t y x = Some 0)
       \/
       (exists t s, (t < length (fm_frames fm))%nat /\ v = Z.of_nat t /\
          state_at fm t y x = Some s /\ s >= 1 /\
          forall t', (t' < t)%nat -> state_at fm t' y x = Some 0)).
Proof.
  intros Hwf Hval HT. unfold _compute_burn_time_matrix. split.
  - apply burn_loop_shape; [exact Hwf|apply has_shape_np_full].
  - intros y x Hy Hx.
    assert (Hzero : forall t, (t < length (fm_frames fm))%nat ->
              (forall m s', nth_error (fm_frames fm) t = Some m ->
                            cell m y x = Some s' -> s' < 1) ->
              state_at fm t y x = Some 0).
    { intros t Ht Hlow.
      destruct (state_at_in_shape t Hwf Ht Hy Hx) as (m & s & Hm & Hc & Hs).
      specialize (Hlow m s Hm Hc).
      destruct (valid_cell Hval Hs) as [->|[->| ->]]; [exact Hs|lia|lia]. }
    destruct (burn_loop_first Hwf 0 (has_shape_np_full _ _ (-1)) Hy Hx
                (Z.le_refl 0) HT (cell_np_full (-1) Hy Hx))
      as [[Hres Hall]|(k & m & s & Hk & Hcs & Hge & Hres & Hbefore)].
    + exists (-1). split; [exact Hres|]. left. split; [reflexivity|].
      intros t Ht. apply (Hzero t Ht). intros m s' Hm Hc. eauto.
    + exists (Z.of_nat k). split; [exact Hres|]. right. exists k, s.
      assert (Hlt : (k < length (fm_frames fm))%nat).
      { apply nth_error_Some. congruence. }
      repeat split; auto.
      * unfold state_at. rewrite Hk. exact Hcs.
      * intros t' Hlt'. apply (Hzero t'); [lia|].
        intros m' s' Hm' Hc'. eauto.
Qed.

Example scenario_burn_time :
  _compute_burn_time_matrix scenario_fire_map = [[1; 2]; [-1; -1]] /\
  np_max (_compute_burn_time_matrix scenario_fire_map) = Ok 2.
Proof. split; reflexivity. Qed.

Lemma scenario_wf : wf_fire_map scenario_fire_map.
Proof.
  unfold wf_fire_map, has_shape. simpl. repeat constructor.
Defined.

Lemma scenario_valid : valid_states scenario_fire_map.
Proof.
  unfold valid_states. simpl.
  repeat (constructor; try (now left); try (now right; left); try (now right; right)).
Defined.

Lemma burn_time_is_first_ignition_witness :
  has_shape 2 2 (_compute_burn_time_matrix scenario_fire_map) /\
  forall y x, (y < 2)%nat -> (x < 2)%nat ->
    exists v, cell (_compute_burn_time_matrix scenario_fire_map) y x = Some v /\
      ((v = -1 /\
        forall t, (t < 3)%nat -> state_at scenario_fire_map t y x = Some 0)
       \/
       (exists t s, (t < 3)%nat /\ v = Z.of_nat t /\
          state_at scenario_fire_map t y x = Some s /\ s >= 1 /\
          forall t', (t' < t)%nat -> state_at scenario_fire_map t' y x = Some 0)).
Proof.
  apply (burn_time_is_first_ignition scenario_fire_map scenario_wf scenario_valid).
  vm_compute. discriminate.
Defined.

(* ================================================================== *)
(** ** States after the first ignition do not matter *)

Lemma burn_loop_agree {h w : nat} (frames1 : list Frame2D) :
  forall frames2, Forall (has_shape h w) frames1 -> Forall (has_shape h w) frames2 ->
  length frames1 = length frames2 ->
  forall t bt1 bt2 y x,
    has_shape h w bt1 -> has_shape h w bt2 -> (y < h)%nat -> (x < w)%nat ->
    cell bt1 y x = Some (-1) -> cell bt2 y x = Some (-1) ->
    0 <= t -> t + Z.of_nat (length frames1) <= 2 ^ 31 ->
    (forall k, (k < length frames1)%nat ->
       (forall k', (k' < k)%nat ->
          exists m s, nth_error frames1 k' = Some m /\ cell m y x = Some s /\ s < 1) ->
       match nth_error frames1 k with Some m => cell m y x | None => None end =
       match nth_error frames2 k with Some m => cell m y x | None => None end) ->
    cell (burn_loop t frames1 bt1) y x = cell (burn_loop t frames2 bt2) y x.
Proof.
  induction frames1 as [|f1 r1 IH]; intros [|f2 r2] H1 H2 Hlen; try discriminate;
    intros t bt1 bt2 y x Hb1 Hb2 Hy Hx Hc1 Hc2 Ht HT Hagree.
  - simpl. congruence.
  - simpl. simpl length in HT, Hlen.
    inversion H1 as [|? ? Hf1 Hr1]; inversion H2 as [|? ? Hf2 Hr2]; subst.
    destruct (cell_in_shape Hf1 Hy Hx) as [s1 Hs1].
    destruct (cell_in_shape Hf2 Hy Hx) as [s2 Hs2].
    assert (Heq : s1 = s2).
    { specialize (Hagree 0%nat ltac:(simpl; lia) ltac:(intros; lia)).
      simpl in Hagree. congruence. }
    subst s2.
    assert (Hm1 := cell_mark t Hs1 Hc1). assert (Hm2 := cell_mark t Hs2 Hc2).
    assert (Hsh1 := has_shape_mark t Hf1 Hb1).
    assert (Hsh2 := has_shape_mark t Hf2 Hb2).
    destruct (Z_lt_ge_dec s1 1) as [Hlo|Hhi].
    + rewrite (mark_cell_cold t Hlo) in Hm1, Hm2.
      apply IH; auto; try lia.
      intros k Hk Hbefore. apply (Hagree (S k)); [simpl; lia|].
      intros [|k'] Hlt; simpl.
      * exists f1, s1. auto.
      * apply Hbefore. lia.
    + rewrite (mark_cell_ignites Hhi) in Hm1, Hm2 by lia.
      rewrite (burn_loop_frozen Hr1 (t + 1) Hsh1 Hy Hx Hm1) by lia.
      rewrite (burn_loop_frozen Hr2 (t + 1) Hsh2 Hy Hx Hm2) by lia.
      reflexivity.
Qed.

(** C5.  Two [fire_map]s of one shape that agree, at every cell, on every
    frame up to and including the first one in which the cell's state is at
    least 1 (on every frame, for a cell that never reaches it) have the same
    burn-time matrix. *)
Theorem burn_time_ignores_later_states (fm1 fm2 : FireMap) :
  wf_fire_map fm1 -> wf_fire_map fm2 ->
  fm_height fm1 = fm_height fm2 -> fm_width fm1 = fm_width fm2 ->
  length (fm_frames fm1) = length (fm_frames fm2) ->
  shape0 fm1 <= 2 ^ 31 ->
  (forall t y x,
      (t < length (fm_frames fm1))%nat ->
      (y < fm_height fm1)%nat -> (x < fm_width fm1)%nat ->
      (forall t', (t' < t)%nat ->
         exists s, state_at fm1 t' y x = Some s /\ s < 1) ->
      state_at fm1 t y x = state_at fm2 t y x) ->
  _compute_burn_time_matrix fm1 = _compute_burn_time_matrix fm2.
Proof.
  intros Hwf1 Hwf2 Hh Hw Hlen HT Hagree.
  unfold _compute_burn_time_matrix. rewrite <- Hh, <- Hw.
  unfold wf_fire_map in Hwf2. rewrite <- Hh, <- Hw in Hwf2.
  set (h := fm_height fm1) in *. set (w := fm_width fm1) in *.
  apply (@shape_ext h w).
  - apply burn_loop_shape; [exact Hwf1|apply has_shape_np_full].
  - apply burn_loop_shape; [exact Hwf2|apply has_shape_np_full].
  - intros y x Hy Hx.
    apply (@burn_loop_agree h w);
      try exact Hwf1; try exact Hwf2;
      auto using has_shape_np_full, cell_np_full;
      try (unfold shape0 in HT; lia).
    intros k Hk Hbefore.
    apply (Hagree k y x Hk Hy Hx).
    intros t' Hlt. destruct (Hbefore t' Hlt) as (m & s & Hm & Hc & Hs).
    exists s. unfold state_at. rewrite Hm. auto.
Qed.

Lemma scenario_relit_wf : wf_fire_map scenario_fire_map_relit.
Proof.
  unfold wf_fire_map, has_shape. simpl. repeat constructor.
Defined.

Lemma scenario_relit_agrees :
  forall t y x,
    (t < 3)%nat -> (y < 2)%nat -> (x < 2)%nat ->
    (forall t', (t' < t)%nat ->
       exists s, state_at scenario_fire_map t' y x = Some s /\ s < 1) ->
    state_at scenario_fire_map t y x = state_at scenario_fire_map_relit t y x.
Proof.
  intros t y x Ht Hy Hx Hbefore.
  destruct t as [|[|[|t]]]; try lia; try reflexivity.
  destruct y as [|[|y]]; try lia; try reflexivity.
  destruct x as [|[|x]]; try lia; try reflexivity.
  destruct (Hbefore 1%nat ltac:(lia)) as (s & Hs & Hlt).
  vm_compute in Hs. injection Hs as <-. lia.
Defined.

Lemma burn_time_ignores_later_states_witness :
  _compute_burn_time_matrix scenario_fire_map =
  _compute_burn_time_matrix scenario_fire_map_relit.
Proof.
  apply (burn_time_ignores_later_states scenario_fire_map scenario_fire_map_relit
           scenario_wf scenario_relit_wf eq_refl eq_refl eq_refl).
  - vm_compute. discriminate.
  - exact scenario_relit_agrees.
Defined.

(* ================================================================== *)
(** ** Cell rectangles tile the grid *)

Section Tiling.
Context {F : Type} {ops : PyFloat F}.

Lemma py_truediv_ok (a : Z) {b : Z} : b <> 0 -> py_truediv a b = Ok (tdiv a b).
Proof.
  intros Hb. unfold py_truediv.
  destruct (b =? 0) eqn:E; [apply Z.eqb_eq in E; contradiction|reflexivity].
Qed.

Lemma py_fdiv_int_ok (x : F) {n : Z} :
  n <> 0 -> py_fdiv_int x n = Ok (fdiv x (of_int n)).
Proof.
  intros Hn. unfold py_fdiv_int.
  destruct (n =? 0) eqn:E; [apply Z.eqb_eq in E; contradiction|reflexivity].
Qed.

Lemma corner_ok (self : Coordinates F) (x y : Z) :
  grid_width self <> 0 -> grid_height self <> 0 ->
  Visualizer.pixel_to_latlon self x y =
  Ok (fsub (north_lat self) (fmul (tdiv y (grid_height self)) (delta_lat self)),
      fadd (west_lon self) (fmul (tdiv x (grid_width self)) (delta_lon self))).
Proof.
  intros Hw Hh. unfold Visualizer.pixel_to_latlon.
  rewrite (py_truediv_ok x Hw), (py_truediv_ok y Hh). reflexivity.
Qed.

(** C3.  For a cell (x, y) of the grid, the rectangles of the cell, of its
    eastern neighbour and of its southern neighbour are all defined; the
    east edge of the cell is the west edge of the eastern neighbour and its
    south edge is the north edge of the southern neighbour.  The equalities
    are between the values computed, whatever the arithmetic: they hold in
    binary64 as they do on the reals. *)
Theorem pixel_bounds_tile (self : Coordinates F) (x y : Z) :
  0 <= x < grid_width self -> 0 <= y < grid_height self ->
  exists b b_east b_south,
    Visualizer.get_pixel_bounds self x y = Ok b /\
    Visualizer.get_pixel_bounds self (x + 1) y = Ok b_east /\
    Visualizer.get_pixel_bounds self x (y + 1) = Ok b_south /\
    east_edge b = west_edge b_east /\
    south_edge b = north_edge b_south.
Proof.
  intros Hx Hy.
  assert (Hw : grid_width self <> 0) by lia.
  assert (Hh : grid_height self <> 0) by lia.
  unfold Visualizer.get_pixel_bounds.
  rewrite !(corner_ok self _ _ Hw Hh). simpl.
  do 3 eexists. repeat split; reflexivity.
Qed.

End Tiling.

Lemma pixel_bounds_tile_witness :
  exists self,
    _setup_coordinates (B64.from_int 1) equator_config = Ok self /\
    exists b b_east b_south,
      Visualizer.get_pixel_bounds self 1 1 = Ok b /\
      Visualizer.get_pixel_bounds self (1 + 1) 1 = Ok b_east /\
      Visualizer.get_pixel_bounds self 1 (1 + 1) = Ok b_south /\
      east_edge b = west_edge b_east /\
      south_edge b = north_edge b_south.
Proof.
  eexists. split.
  - vm_compute. reflexivity.
  - apply (@pixel_bounds_tile float B64.ops); simpl; lia.
Defined.

(* ================================================================== *)
(** ** Corners of the bounding box *)

(** Two floats that the comparison [==] tells apart are different values. *)
Lemma float_neq (a b : float) :
  PrimFloat.eqb a a = true -> PrimFloat.eqb a b = false -> a <> b.
Proof.
  intros Haa Hab E. rewrite <- E in Hab. congruence.
Qed.

Lemma exact_py_fdiv_ok (x y : R) : y <> 0%R -> py_fdiv x y = Ok (x / y)%R.
Proof.
  intros Hy. unfold py_fdiv. simpl.
  destruct (Req_dec_T y 0); [contradiction|reflexivity].
Qed.

Lemma cos_lat_rad_pos (lat : R) : (Rabs lat < 90)%R -> (0 < Exact.cos_lat_rad lat)%R.
Proof.
  intros Hlat. unfold Exact.cos_lat_rad.
  assert (Hpi := PI_RGT_0). assert (Habs := Rabs_pos lat).
  apply cos_gt_0; nra.
Qed.

(** [_setup_coordinates] succeeds away from the poles, and gives the
    bounding box its textbook form. *)
Lemma exact_setup_ok (config : GridConfig R) :
  (Rabs (latitude config) < 90)%R ->
  exists self,
    Exact.setup_coordinates config = Ok self /\
    grid_height self = screen_height config /\
    grid_width self = screen_width config /\
    north_lat self = (latitude config + delta_lat self / 2)%R /\
    south_lat self = (latitude config - delta_lat self / 2)%R /\
    west_lon self = (longitude config - delta_lon self / 2)%R /\
    east_lon self = (longitude config + delta_lon self / 2)%R /\
    delta_lat self =
      (IZR (screen_height config) * (pixel_scale config * (3048 / 10000))
       / 111320)%R /\
    delta_lon self =
      (IZR (screen_width config) * (pixel_scale config * (3048 / 10000))
       / (111320 * Exact.cos_lat_rad (latitude config)))%R.
Proof.
  intros Hlat. apply cos_lat_rad_pos in Hlat.
  unfold Exact.setup_coordinates, _setup_coordinates.
  rewrite exact_py_fdiv_ok by (simpl; nra).
  simpl. eexists. split; [reflexivity|]. simpl. repeat split; reflexivity.
Qed.

(** Both corners in exact arithmetic. *)
Lemma corner_projection_exact (config : GridConfig R) :
  0 < screen_height config -> 0 < screen_width config ->
  (Rabs (latitude config) < 90)%R ->
  exists self,
    Exact.setup_coordinates config = Ok self /\
    Visualizer.pixel_to_latlon self 0 0 = Ok (north_lat self, west_lon self) /\
    Visualizer.pixel_to_latlon self (grid_width self) (grid_height self) =
      Ok (south_lat self, east_lon self).
Proof.
  intros Hh Hw Hlat.
  destruct (exact_setup_ok config Hlat)
    as (self & Hself & Hgh & Hgw & Hn & Hs & Hwest & He & _ & _).
  exists self. split; [exact Hself|].
  assert (Hw0 : grid_width self <> 0) by lia.
  assert (Hh0 : grid_height self <> 0) by lia.
  assert (Hwr : IZR (grid_width self) <> 0%R) by (apply not_0_IZR; exact Hw0).
  assert (Hhr : IZR (grid_height self) <> 0%R) by (apply not_0_IZR; exact Hh0).
  rewrite !(corner_ok self _ _ Hw0 Hh0). simpl.
  split; f_equal; f_equal.
  - field. exact Hhr.
  - field. exact Hwr.
  - rewrite Hn, Hs. field. exact Hhr.
  - rewrite Hwest, He. field. exact Hwr.
Qed.

(** In binary64 the quotient of a positive int by itself is 1.0 and the
    quotient of 0 by a positive int is 0.0, whatever the size of the int. *)
Lemma div_eucl_shift (p : positive) :
  Z.div_eucl (Z.shiftl (Zpos p) 53) (Zpos p) = (2 ^ 53, 0).
Proof.
  rewrite Z.shiftl_mul_pow2 by lia.
  pose proof (Z.div_mul (2 ^ 53) (Zpos p) ltac:(lia)) as Hd.
  pose proof (Z.mod_mul (2 ^ 53) (Zpos p) ltac:(lia)) as Hm.
  rewrite (Z.mul_comm (Z.pos p)).
  unfold Z.div, Z.modulo in Hd, Hm.
  destruct (Z.div_eucl (2 ^ 53 * Z.pos p) (Z.pos p)) as [q r].
  simpl in *. congruence.
Qed.

Lemma SFdiv_self (s : bool) (p : positive) (e : Z) :
  SFdiv prec emax (S754_finite s p e) (S754_finite s p e) =
  S754_finite false 4503599627370496 (-52).
Proof.
  unfold SFdiv, SFdiv_core_binary.
  replace (Zdigits2 (Z.pos p) + e - (Zdigits2 (Z.pos p) + e)) with 0 by lia.
  replace (e - e) with 0 by lia.
  change (Z.min (fexp prec emax 0) 0) with (-53).
  change (0 - -53) with 53.
  cbv iota beta zeta.
  rewrite div_eucl_shift. cbv iota beta.
  rewrite xorb_nilpotent.
  unfold new_location. destruct (Z.even (Z.pos p)); reflexivity.
Qed.

Lemma b64_quotient_self (m : Z) : 1 <= m -> B64.quotient m m = B64.from_int 1.
Proof.
  intros Hm. destruct m as [|p|p]; try lia.
  unfold B64.quotient. cbn [B64.SF_of_int]. rewrite SFdiv_self. reflexivity.
Qed.

Lemma b64_quotient_zero (m : Z) : 1 <= m -> B64.quotient 0 m = B64.from_int 0.
Proof.
  intros Hm. destruct m as [|p|p]; try lia. reflexivity.
Qed.

(** The north-west corner is exact in binary64 too: [0 / n] is 0.0, 0.0
    times a positive extent is 0.0, and adding or subtracting 0.0 changes
    nothing. *)
Lemma b64_mul_zero (d : float) :
  positive_finite d -> PrimFloat.mul (B64.from_int 0) d = B64.from_int 0.
Proof.
  intros (m & e & Hd). apply Prim2SF_inj. rewrite FloatAxioms.mul_spec, Hd. reflexivity.
Qed.

Lemma b64_sub_zero (x : float) : PrimFloat.sub x (B64.from_int 0) = x.
Proof.
  apply Prim2SF_inj. rewrite FloatAxioms.sub_spec.
  change (Prim2SF (B64.from_int 0)) with (S754_zero false).
  destruct (Prim2SF x) as [[|]| [|] | |]; reflexivity.
Qed.

Lemma b64_add_zero (x : float) :
  not_negative_zero x -> PrimFloat.add x (B64.from_int 0) = x.
Proof.
  unfold not_negative_zero. intros Hx. apply Prim2SF_inj. rewrite FloatAxioms.add_spec.
  change (Prim2SF (B64.from_int 0)) with (S754_zero false).
  destruct (Prim2SF x) as [[|]| [|] | |]; try reflexivity. contradiction.
Qed.

Lemma corner_origin_binary64 (self : Coordinates float) :
  1 <= grid_width self -> 1 <= grid_height self ->
  positive_finite (delta_lat self) -> positive_finite (delta_lon self) ->
  not_negative_zero (west_lon self) ->
  Visualizer.pixel_to_latlon self 0 0 = Ok (north_lat self, west_lon self).
Proof.
  intros Hw Hh Hdlat Hdlon Hwest.
  rewrite corner_ok by lia. cbn [tdiv fmul fsub fadd B64.ops].
  rewrite !b64_quotient_zero by assumption.
  rewrite (b64_mul_zero _ Hdlat), (b64_mul_zero _ Hdlon).
  rewrite b64_sub_zero, (b64_add_zero _ Hwest). reflexivity.
Qed.

(** C2 (as amended).  In exact real arithmetic, for every configuration with
    a positive grid height and width and a centre latitude strictly between
    the poles, [_setup_coordinates] succeeds and the corner projection maps
    (0, 0) to the north-west corner (north_lat, west_lon) of the bounding box
    and (grid_width, grid_height) to its south-east corner
    (south_lat, east_lon).  In binary64 the first of the two still holds
    exactly, for every grid with positive finite extents (and a western edge
    that is not the negative zero); the second holds only up to rounding
    (see [corner_projection_rounds_in_binary64]). *)
Theorem corner_projection_hits_bounding_box :
  (forall config : GridConfig R,
     0 < screen_height config -> 0 < screen_width config ->
     (Rabs (latitude config) < 90)%R ->
     exists self,
       Exact.setup_coordinates config = Ok self /\
       Visualizer.pixel_to_latlon self 0 0 = Ok (north_lat self, west_lon self) /\
       Visualizer.pixel_to_latlon self (grid_width self) (grid_height self) =
         Ok (south_lat self, east_lon self)) /\
  (forall self : Coordinates float,
     1 <= grid_width self -> 1 <= grid_height self ->
     positive_finite (delta_lat self) -> positive_finite (delta_lon self) ->
     not_negative_zero (west_lon self) ->
     Visualizer.pixel_to_latlon self 0 0 = Ok (north_lat self, west_lon self)).
Proof.
  split.
  - exact corner_projection_exact.
  - exact corner_origin_binary64.
Qed.

Lemma default_config_latitude : (Rabs (latitude default_config) < 90)%R.
Proof.
  simpl. apply Rabs_def1; lra.
Defined.

Lemma corner_projection_hits_bounding_box_witness :
  (exists self,
     Exact.setup_coordinates default_config = Ok self /\
     Visualizer.pixel_to_latlon self 0 0 = Ok (north_lat self, west_lon self) /\
     Visualizer.pixel_to_latlon self (grid_width self) (grid_height self) =
       Ok (south_lat self, east_lon self)) /\
  (exists self,
     _setup_coordinates (B64.from_int 1) equator_config = Ok self /\
     Visualizer.pixel_to_latlon self 0 0 = Ok (north_lat self, west_lon self)).
Proof.
  split.
  - apply (proj1 corner_projection_hits_bounding_box default_config);
      [reflexivity | reflexivity | exact default_config_latitude].
  - eexists. split; [vm_compute; reflexivity|].
    apply (proj2 corner_projection_hits_bounding_box).
    + vm_compute. discriminate.
    + vm_compute. discriminate.
    + do 2 eexists. vm_compute. reflexivity.
    + do 2 eexists. vm_compute. reflexivity.
    + unfold not_negative_zero. vm_compute. discriminate.
Defined.

(** C2 as stated fails in binary64.  On the equator grid the projection of
    (grid_width, grid_height) = (3, 3) has longitude 10.000205353934602
    where [east_lon] is 10.000205353934604: [west + 1.0 * delta_lon] and
    [center + delta_lon / 2] round differently. *)
Lemma corner_projection_rounds_in_binary64 :
  exists self,
    _setup_coordinates (B64.from_int 1) equator_config = Ok self /\
    grid_width self = 3 /\ grid_height self = 3 /\
    exists lat lon,
      Visualizer.pixel_to_latlon self 3 3 = Ok (lat, lon) /\
      lat = south_lat self /\
      lon <> east_lon self.
Proof.
  eexists. split; [vm_compute; reflexivity|].
  split; [reflexivity|]. split; [reflexivity|].
  eexists. eexists. split; [vm_compute; reflexivity|].
  split; [vm_compute; reflexivity|].
  apply float_neq; vm_compute; reflexivity.
Qed.

(** The same happens at the scripts' default configuration, on the
    latitude, which does not depend on the cosine: whatever value
    [math.cos] returns, the projection of (100, 100) has latitude
    -16.57802013115343 where [south_lat] is -16.578020131153433. *)
Lemma default_grid_south_edge_rounds (cos_lat_rad : float)
    (self : Coordinates float) (lat lon : float) :
  _setup_coordinates cos_lat_rad default_config_b64 = Ok self ->
  Visualizer.pixel_to_latlon self 100 100 = Ok (lat, lon) ->
  lat <> south_lat self.
Proof.
  unfold _setup_coordinates, py_fdiv. intros Hself Hp.
  destruct (fis_zero _); [discriminate|].
  cbn [bind] in Hself. injection Hself as <-.
  unfold Visualizer.pixel_to_latlon in Hp.
  cbn [grid_width grid_height north_lat south_lat delta_lat] in *.
  rewrite !py_truediv_ok in Hp by discriminate. cbn [bind] in Hp.
  injection Hp as <- _.
  apply float_neq; vm_compute; reflexivity.
Qed.

(* ================================================================== *)
(** ** The three projections and the parameterized formula *)

Section CentreProjection.
Context {F : Type} {ops : PyFloat F}.

(** The animation script's projection is [project] at offset 0.5, as
    computed: this needs no law of arithmetic. *)
Lemma animation_is_project_half (self : Coordinates F) (x y : Z) :
  Animation.pixel_to_latlon self x y = project self x y lit_0_5.
Proof.
  unfold Animation.pixel_to_latlon, project, py_fdiv_int.
  destruct (grid_width self =? 0); destruct (grid_height self =? 0); reflexivity.
Qed.

End CentreProjection.

(** The three projections against the formula, in exact arithmetic. *)
Lemma projections_exact (config : GridConfig R) (x y : Z) :
  0 < screen_height config -> 0 < screen_width config ->
  (Rabs (latitude config) < 90)%R ->
  exists self nw_lat nw_lon ring,
    Exact.setup_coordinates config = Ok self /\
    Animation.pixel_to_latlon self x y = project self x y (1 / 2)%R /\
    Visualizer.pixel_to_latlon self x y = project self x y 0%R /\
    GeoJSON.pixel_to_polygon (Exact.cos_lat_rad (latitude config)) x y config =
      Ok [(nw_lon, nw_lat) :: ring] /\
    project self x y 0%R = Ok (nw_lat, nw_lon) /\
    Animation.pixel_to_latlon self x y =
      Ok ((nw_lat - delta_lat self / IZR (grid_height self) / 2)%R,
          (nw_lon + delta_lon self / IZR (grid_width self) / 2)%R).
Proof.
  intros Hh Hw Hlat.
  destruct (exact_setup_ok config Hlat)
    as (self & Hself & Hgh & Hgw & Hn & Hs & Hwest & He & Hdlat & Hdlon).
  assert (Hcos := cos_lat_rad_pos _ Hlat).
  assert (Hw0 : grid_width self <> 0) by lia.
  assert (Hh0 : grid_height self <> 0) by lia.
  assert (Hwr : IZR (grid_width self) <> 0%R) by (apply not_0_IZR; exact Hw0).
  assert (Hhr : IZR (grid_height self) <> 0%R) by (apply not_0_IZR; exact Hh0).
  assert (Hw0' : screen_width config <> 0) by lia.
  assert (Hh0' : screen_height config <> 0) by lia.
  exists self.
  exists (north_lat self - IZR y / IZR (grid_height self) * delta_lat self)%R.
  exists (west_lon self + IZR x / IZR (grid_width self) * delta_lon self)%R.
  eexists.
  split; [exact Hself|].
  split; [exact (animation_is_project_half (ops:=Exact.ops) self x y)|].
  assert (Hproj0 : project self x y 0%R =
            Ok ((north_lat self - IZR y / IZR (grid_height self) * delta_lat self)%R,
                (west_lon self + IZR x / IZR (grid_width self) * delta_lon self)%R)).
  { unfold project. rewrite !py_fdiv_int_ok by assumption. simpl.
    f_equal. f_equal; f_equal; f_equal; field; assumption. }
  split; [rewrite Hproj0; exact (corner_ok (ops:=Exact.ops) self x y Hw0 Hh0)|].
  split.
  - unfold GeoJSON.pixel_to_polygon.
    rewrite exact_py_fdiv_ok by (simpl; nra).
    repeat (rewrite py_fdiv_int_ok by assumption; simpl).
    apply f_equal.
    apply (f_equal2 cons); [|reflexivity].
    apply (f_equal2 cons); [|reflexivity].
    apply (f_equal2 pair).
    + rewrite Hwest, Hdlon, Hgw. field. split; [lra|].
      apply not_0_IZR; assumption.
    + rewrite Hn, Hdlat, Hgh. field. apply not_0_IZR; assumption.
  - split; [exact Hproj0|].
    unfold Animation.pixel_to_latlon.
    rewrite !py_fdiv_int_ok by assumption. simpl.
    f_equal. f_equal; field; assumption.
Qed.

(** C6 (as amended).  The animation script's [pixel_to_latlon] is the
    formula [project] at offset 0.5 as it is computed, in any arithmetic.
    In exact real arithmetic, for every configuration with a positive grid
    and a centre latitude between the poles and for every integer cell
    (x, y): the map script's [pixel_to_latlon] is [project] at offset 0, the
    first vertex of the exporter's polygon is the point [project] gives at
    offset 0, and the animation script's point lies half a cell south and
    half a cell east of that corner.  In binary64 the exporter's corner
    agrees with the formula only up to rounding (see
    [geojson_corner_rounds_in_binary64]). *)
Theorem projections_are_instances_of_project :
  (forall (F : Type) (ops : PyFloat F) (self : Coordinates F) (x y : Z),
     Animation.pixel_to_latlon self x y = project self x y lit_0_5) /\
  (forall (config : GridConfig R) (x y : Z),
     0 < screen_height config -> 0 < screen_width config ->
     (Rabs (latitude config) < 90)%R ->
     exists self nw_lat nw_lon ring,
       Exact.setup_coordinates config = Ok self /\
       Animation.pixel_to_latlon self x y = project self x y (1 / 2)%R /\
       Visualizer.pixel_to_latlon self x y = project self x y 0%R /\
       GeoJSON.pixel_to_polygon (Exact.cos_lat_rad (latitude config)) x y config =
         Ok [(nw_lon, nw_lat) :: ring] /\
       project self x y 0%R = Ok (nw_lat, nw_lon) /\
       Animation.pixel_to_latlon self x y =
         Ok ((nw_lat - delta_lat self / IZR (grid_height self) / 2)%R,
             (nw_lon + delta_lon self / IZR (grid_width self) / 2)%R)).
Proof.
  split.
  - intros F ops. exact (@animation_is_project_half F ops).
  - exact projections_exact.
Qed.

Lemma projections_are_instances_of_project_witness :
  exists self nw_lat nw_lon ring,
    Exact.setup_coordinates default_config = Ok self /\
    Animation.pixel_to_latlon self 3 27 = project self 3 27 (1 / 2)%R /\
    Visualizer.pixel_to_latlon self 3 27 = project self 3 27 0%R /\
    GeoJSON.pixel_to_polygon
      (Exact.cos_lat_rad (latitude default_config)) 3 27 default_config =
      Ok [(nw_lon, nw_lat) :: ring] /\
    project self 3 27 0%R = Ok (nw_lat, nw_lon) /\
    Animation.pixel_to_latlon self 3 27 =
      Ok ((nw_lat - delta_lat self / IZR (grid_height self) / 2)%R,
          (nw_lon + delta_lon self / IZR (grid_width self) / 2)%R).
Proof.
  apply (proj2 projections_are_instances_of_project default_config 3 27);
    [reflexivity | reflexivity | exact default_config_latitude].
Defined.

(** C6 as stated fails in binary64.  For the cell (0, 27) of the equator
    grid the exporter's north-west latitude
    [north - 27 * (delta_lat / 100)] is 0.0031487603305785125 while the
    formula [north - (27 / 100) * delta_lat], and with it the map script,
    gives 0.0031487603305785121. *)
Lemma geojson_corner_rounds_in_binary64 :
  exists self nw_lon nw_lat ring lat lon,
    _setup_coordinates (B64.from_int 1) equator_config_100 = Ok self /\
    GeoJSON.pixel_to_polygon (B64.from_int 1) 0 27 equator_config_100 =
      Ok [(nw_lon, nw_lat) :: ring] /\
    project self 0 27 (B64.from_int 0) = Ok (lat, lon) /\
    Visualizer.pixel_to_latlon self 0 27 = Ok (lat, lon) /\
    lon = nw_lon /\
    lat <> nw_lat.
Proof.
  do 6 eexists.
  split; [vm_compute; reflexivity|].
  split; [vm_compute; reflexivity|].
  split; [vm_compute; reflexivity|].
  split; [vm_compute; reflexivity|].
  split; [vm_compute; reflexivity|].
  apply float_neq; vm_compute; reflexivity.
Qed.

(* ================================================================== *)
(** ** Colours: the unburned sentinel and the palette endpoints *)











(** On ints that a float holds exactly the quotient is the division of
    the two converted values, checked here on a grid of pairs. *)
Example b64_quotient_is_division :
  forallb
    (fun a =>
       forallb
         (fun b =>
            PrimFloat.Leibniz.eqb
              (B64.quotient (Z.of_nat a - 20) (Z.of_nat b + 1))
              (PrimFloat.div (B64.from_int (Z.of_nat a - 20))
                             (B64.from_int (Z.of_nat b + 1))) &&
            PrimFloat.Leibniz.eqb
              (B64.quotient (Z.of_nat a * 104729) (Z.of_nat b * 7919 + 1))
              (PrimFloat.div (B64.from_int (Z.of_nat a * 104729))
                             (B64.from_int (Z.of_nat b * 7919 + 1))))
         (seq 0 60))
    (seq 0 60) = true.
Proof. vm_compute. reflexivity. Qed.

(** C7.  [time_to_color] and [time_to_color_rgb] give a cell that did not
    burn (burn time -1) the fixed sentinel, [None] and grey, whatever
    [max_time] is; and for every [max_time >= 1] the burn times 0 and
    [max_time] get the two anchor colours of the palette.  This is the
    binary64 computation of the scripts; [color_endpoints_exact] is the same
    statement in exact arithmetic. *)
Theorem color_endpoints (max_time : Z) (colormap : string) :
  Visualizer.time_to_color (F:=float) (-1) max_time colormap = Ok None /\
  GeoJSON.time_to_color_rgb (F:=float) (-1) max_time = Ok unburned_rgb /\
  (1 <= max_time ->
   Visualizer.time_to_color (F:=float) 0 max_time colormap =
     Ok (Some (fst (palette_endpoints colormap))) /\
   Visualizer.time_to_color (F:=float) max_time max_time colormap =
     Ok (Some (snd (palette_endpoints colormap))) /\
   GeoJSON.time_to_color_rgb (F:=float) 0 max_time = Ok (fst rgb_endpoints) /\
   GeoJSON.time_to_color_rgb (F:=float) max_time max_time =
     Ok (snd rgb_endpoints)).
Proof.
  split; [reflexivity|]. split; [reflexivity|].
  intros Hm.
  assert (Hneg : (max_time <? 0) = false) by (apply Z.ltb_ge; lia).
  assert (Hle : (max_time <=? 0) = false) by (apply Z.leb_gt; lia).
  assert (Hgt : (max_time >? 0) = true) by (apply Z.gtb_lt; lia).
  unfold Visualizer.time_to_color, Visualizer.color_parameter,
    GeoJSON.time_to_color_rgb, palette_endpoints, rgb_endpoints.
  rewrite Hneg, Hle, Hgt, !py_truediv_ok by lia.
  cbn [Z.ltb Z.compare orb bind tdiv B64.ops].
  rewrite (b64_quotient_self max_time Hm), (b64_quotient_zero max_time Hm).
  split; [|split; [|split]].
  - destruct (String.eqb colormap "YlOrRd"); [vm_compute; reflexivity|].
    destruct (String.eqb colormap "inferno"); vm_compute; reflexivity.
  - destruct (String.eqb colormap "YlOrRd"); [vm_compute; reflexivity|].
    destruct (String.eqb colormap "inferno"); vm_compute; reflexivity.
  - vm_compute. reflexivity.
  - vm_compute. reflexivity.
Qed.

Lemma color_endpoints_witness :
  Visualizer.time_to_color (F:=float) 0 7 "YlOrRd" = Ok (Some "#ffffc8"%string) /\
  Visualizer.time_to_color (F:=float) 7 7 "YlOrRd" = Ok (Some "#8b0000"%string) /\
  GeoJSON.time_to_color_rgb (F:=float) 0 7 = Ok (255, 0, 0) /\
  GeoJSON.time_to_color_rgb (F:=float) 7 7 = Ok (255, 255, 255).
Proof.
  apply (proj2 (proj2 (color_endpoints 7 "YlOrRd"))). lia.
Defined.

(* ================================================================== *)
(** ** Normalization when nothing burns *)

Lemma cells_forall (P : Z -> Prop) (frames : list Frame2D) (t y x : nat)
    (m : Frame2D) (s : Z) :
  Forall (Forall (Forall P)) frames ->
  nth_error frames t = Some m -> cell m y x = Some s -> P s.
Proof.
  unfold cell. intros Hall Hm Hs.
  destruct (nth_error m y) as [row|] eqn:Er; [|discriminate].
  rewrite Forall_forall in Hall. specialize (Hall m (nth_error_In _ _ Hm)).
  rewrite Forall_forall in Hall. specialize (Hall row (nth_error_In _ _ Er)).
  rewrite Forall_forall in Hall. exact (Hall s (nth_error_In _ _ Hs)).
Qed.

Lemma burn_loop_cold {h w : nat} (frames : list Frame2D) (y x : nat) :
  Forall (has_shape h w) frames ->
  Forall (Forall (Forall (fun s => s < 1))) frames ->
  (y < h)%nat -> (x < w)%nat ->
  forall t bt, has_shape h w bt -> cell bt y x = Some (-1) ->
    cell (burn_loop t frames bt) y x = Some (-1).
Proof.
  intros Hsh Hcold Hy Hx.
  induction Hsh as [|frame rest Hf Hrest IH]; intros t bt Hbt Hc; simpl.
  - exact Hc.
  - inversion Hcold as [|? ? Hframe Hcold']; subst.
    destruct (cell_in_shape Hf Hy Hx) as [s Hs].
    assert (Hlow : s < 1).
    { apply (cells_forall (fun s => s < 1) [frame] 0 y x frame s); auto. }
    apply IH; auto using has_shape_mark.
    rewrite (cell_mark t Hs Hc), (mark_cell_cold t Hlow). reflexivity.
Qed.

Lemma never_ignites_burn_time (fm : FireMap) :
  wf_fire_map fm -> never_ignites fm ->
  _compute_burn_time_matrix fm = np_full (fm_height fm) (fm_width fm) (-1).
Proof.
  intros Hwf Hcold. unfold _compute_burn_time_matrix.
  apply (@shape_ext (fm_height fm) (fm_width fm)).
  - apply burn_loop_shape; [exact Hwf|apply has_shape_np_full].
  - apply has_shape_np_full.
  - intros y x Hy Hx. rewrite (cell_np_full (-1) Hy Hx).
    apply (@burn_loop_cold (fm_height fm) (fm_width fm));
      auto using has_shape_np_full, cell_np_full.
Qed.

Lemma concat_np_full (h w : nat) (v : Z) :
  concat (np_full h w v) = repeat v (h * w).
Proof.
  unfold np_full. induction h as [|h IH]; simpl; [reflexivity|].
  rewrite IH. symmetry. apply repeat_app.
Qed.

Lemma fold_max_repeat (v : Z) (n : nat) : fold_left Z.max (repeat v n) v = v.
Proof.
  induction n as [|n IH]; simpl; [reflexivity|]. now rewrite Z.max_id.
Qed.

Lemma np_max_np_full (h w : nat) (v : Z) :
  (0 < h)%nat -> (0 < w)%nat -> np_max (np_full h w v) = Ok v.
Proof.
  intros Hh Hw. unfold np_max. rewrite concat_np_full.
  destruct (h * w)%nat as [|n] eqn:E; [nia|].
  simpl. now rewrite fold_max_repeat.
Qed.

Section Normalization.
Context {F : Type} {ops : PyFloat F}.

(** C8 (as amended).  When no cell ever ignites, [max_time] is [-1], the
    maximum of a matrix that holds [-1] everywhere.  Normalization never
    divides by zero: for every burn time and every [max_time] the normalized
    burn time and the colour parameter are defined, and for [max_time <= 0]
    (0 as well as -1) they are 0 and [time_to_color_rgb] returns the grey
    of an unburned cell. *)
Theorem normalization_never_divides_by_zero (fm : FireMap) (bt max_time : Z) :
  (wf_fire_map fm -> never_ignites fm ->
   (0 < fm_height fm)%nat -> (0 < fm_width fm)%nat ->
   np_max (_compute_burn_time_matrix fm) = Ok (-1)) /\
  (max_time <= 0 ->
   GeoJSON.normalized_burn_time bt max_time = Ok (PyInt 0) /\
   Visualizer.color_parameter bt max_time = Ok (of_int 0) /\
   GeoJSON.time_to_color_rgb bt max_time = Ok unburned_rgb) /\
  (exists n, GeoJSON.normalized_burn_time bt max_time = Ok n) /\
  (exists t, Visualizer.color_parameter bt max_time = Ok t).
Proof.
  split; [|split; [|split]].
  - intros Hwf Hcold Hh Hw.
    rewrite (never_ignites_burn_time fm Hwf Hcold).
    apply np_max_np_full; assumption.
  - intros Hm.
    assert (Hgt : (max_time >? 0) = false).
    { rewrite Z.gtb_ltb. apply Z.ltb_ge. exact Hm. }
    assert (Hle : (max_time <=? 0) = true) by (apply Z.leb_le; exact Hm).
    unfold GeoJSON.normalized_burn_time, Visualizer.color_parameter,
      GeoJSON.time_to_color_rgb.
    rewrite Hgt, Hle, orb_true_r. repeat split; reflexivity.
  - unfold GeoJSON.normalized_burn_time.
    destruct (max_time >? 0) eqn:E; [|eauto].
    rewrite Z.gtb_ltb in E. apply Z.ltb_lt in E.
    rewrite py_truediv_ok by lia. simpl. eauto.
  - unfold Visualizer.color_parameter.
    destruct (max_time >? 0) eqn:E; [|eauto].
    rewrite Z.gtb_ltb in E. apply Z.ltb_lt in E.
    rewrite py_truediv_ok by lia. eauto.
Qed.

(** C9 (as amended).  A sample rate of 0 makes the frame loop fail with the
    [ValueError] of [range]; a negative sample rate is not rejected: the
    loop runs over an empty range and returns an empty list of frames. *)
Theorem nonpositive_sample_rate (self : Coordinates F) (fm : FireMap)
    (sample_rate : Z) :
  (sample_rate = 0 ->
   Animation.prepare_animation_frames self fm sample_rate = Raise ValueError) /\
  (sample_rate < 0 ->
   Animation.prepare_animation_frames self fm sample_rate = Ok []).
Proof.
  unfold Animation.prepare_animation_frames, py_range. split.
  - intros ->. reflexivity.
  - intros Hneg.
    assert (E0 : (sample_rate =? 0) = false) by (apply Z.eqb_neq; lia).
    assert (E1 : (0 <? sample_rate) = false) by (apply Z.ltb_ge; lia).
    assert (E2 : (shape0 fm <? 0) = false) by (apply Z.ltb_ge; unfold shape0; lia).
    rewrite E0, E1, E2. reflexivity.
Qed.

End Normalization.

Lemma calm_wf : wf_fire_map calm_fire_map.
Proof.
  unfold wf_fire_map, has_shape. simpl. repeat constructor.
Defined.

Lemma calm_never_ignites : never_ignites calm_fire_map.
Proof.
  unfold never_ignites. simpl. repeat (constructor; try reflexivity).
Defined.

Lemma normalization_never_divides_by_zero_witness :
  np_max (_compute_burn_time_matrix calm_fire_map) = Ok (-1) /\
  GeoJSON.normalized_burn_time (F:=float) 5 0 = Ok (PyInt 0) /\
  Visualizer.color_parameter (F:=float) 5 0 = Ok (B64.from_int 0) /\
  GeoJSON.time_to_color_rgb (F:=float) 5 0 = Ok unburned_rgb.
Proof.
  destruct (@normalization_never_divides_by_zero float B64.ops calm_fire_map 5 0)
    as [Hmax [Hzero _]].
  split.
  - apply Hmax; [exact calm_wf | exact calm_never_ignites | simpl; lia | simpl; lia].
  - apply Hzero. lia.
Defined.

(** C8 as stated fails: on a grid where nothing burns the scripts hold
    [max_time = -1], not 0.  [get_statistics] reports it as
    [max_burn_time] and [export_to_geojson] writes it into the metadata,
    with an empty list of features. *)
Lemma unburned_max_time_is_minus_one :
  exists self stats,
    _setup_coordinates (B64.from_int 1) equator_config = Ok self /\
    Visualizer.get_statistics self calm_fire_map = Ok stats /\
    max_burn_time stats = -1 /\
    max_burn_time stats <> 0 /\
    GeoJSON.export_features (B64.from_int 1) equator_config calm_fire_map =
      Ok (-1, []).
Proof.
  do 2 eexists.
  split; [vm_compute; reflexivity|].
  split; [vm_compute; reflexivity|].
  split; [reflexivity|].
  split; [discriminate|].
  vm_compute. reflexivity.
Qed.

Lemma nonpositive_sample_rate_witness :
  exists self,
    _setup_coordinates (B64.from_int 1) scenario_config = Ok self /\
    Animation.prepare_animation_frames self scenario_fire_map 0 =
      Raise ValueError /\
    Animation.prepare_animation_frames self scenario_fire_map (-3) = Ok [].
Proof.
  eexists. split; [vm_compute; reflexivity|]. split.
  - apply (@nonpositive_sample_rate float B64.ops). reflexivity.
  - apply (@nonpositive_sample_rate float B64.ops). reflexivity.
Defined.

(** C9 as stated fails: with sample rate -1 the frame loop of the scenario
    returns normally, with no frame. *)
Lemma negative_sample_rate_is_accepted :
  exists self,
    _setup_coordinates (B64.from_int 1) scenario_config = Ok self /\
    Animation.prepare_animation_frames self scenario_fire_map (-1) = Ok [].
Proof.
  eexists. split; vm_compute; reflexivity.
Qed.

(* ================================================================== *)
(** ** The frame sampler *)

Lemma np_getitem_nat {A : Type} (a : list A) (n : nat) (v : A) :
  nth_error a n = Some v -> np_getitem a (Z.of_nat n) = Ok v.
Proof.
  intros Hn. unfold np_getitem.
  assert (Hlt : (n < length a)%nat) by (apply nth_error_Some; congruence).
  assert (E1 : (Z.of_nat n <? 0) = false) by (apply Z.ltb_ge; lia).
  assert (E2 : (Z.of_nat (length a) <=? Z.of_nat n) = false)
    by (apply Z.leb_gt; lia).
  cbv zeta. rewrite E1, E1, E2. simpl. rewrite Nat2Z.id, Hn. reflexivity.
Qed.

Lemma row_cells_length (v y x : Z) (row : list Z) :
  length (row_cells v y x row) = count_occ Z.eq_dec row v.
Proof.
  revert x. induction row as [|s rest IH]; intros x; simpl; [reflexivity|].
  rewrite length_app, IH.
  destruct (Z.eq_dec s v) as [->|Hne].
  - rewrite Z.eqb_refl. reflexivity.
  - destruct (s =? v) eqn:E; [apply Z.eqb_eq in E; contradiction|reflexivity].
Qed.

Lemma frame_cells_length (v y : Z) (frame : Frame2D) :
  Z.of_nat (length (frame_cells v y frame)) = count_cells v frame.
Proof.
  unfold count_cells. f_equal. revert y.
  induction frame as [|row rest IH]; intros y; simpl; [reflexivity|].
  rewrite length_app, row_cells_length, IH, count_occ_app. reflexivity.
Qed.

Section Sampler.
Context {F : Type} {ops : PyFloat F}.

Lemma pixel_center_ok (self : Coordinates F) (x y : Z) :
  grid_width self <> 0 -> grid_height self <> 0 ->
  Animation.pixel_to_latlon self x y = Ok (cell_center self (x, y)).
Proof.
  intros Hw Hh. unfold Animation.pixel_to_latlon.
  rewrite !py_fdiv_int_ok by assumption. reflexivity.
Qed.

Variable self : Coordinates F.
Variables (h w : nat).
Hypothesis Hgh : grid_height self = Z.of_nat h.
Hypothesis Hgw : grid_width self = Z.of_nat w.

Lemma classify_pixel_step (frame : Frame2D) (yn k : nat) (row : list Z) (s : Z)
    (b1 b2 : list (F * F)) :
  nth_error frame yn = Some row -> nth_error row k = Some s ->
  length frame = h -> length row = w ->
  Animation.classify_pixel self frame (Z.of_nat yn) (Z.of_nat k) (b1, b2) =
  Ok (b1 ++ map (cell_center self)
              (if s =? 1 then [(Z.of_nat k, Z.of_nat yn)] else []),
      b2 ++ map (cell_center self)
              (if s =? 2 then [(Z.of_nat k, Z.of_nat yn)] else [])).
Proof.
  intros Hrow Hk Hlen Hw.
  assert (Hh0 : grid_height self <> 0).
  { assert (yn < length frame)%nat by (apply nth_error_Some; congruence). lia. }
  assert (Hw0 : grid_width self <> 0).
  { assert (k < length row)%nat by (apply nth_error_Some; congruence). lia. }
  unfold Animation.classify_pixel, np_getitem2.
  rewrite (np_getitem_nat frame yn row Hrow). simpl bind.
  rewrite (np_getitem_nat row k s Hk). simpl bind.
  rewrite (pixel_center_ok self _ _ Hw0 Hh0). simpl bind.
  destruct (s =? 1) eqn:E1; [|destruct (s =? 2) eqn:E2].
  - apply Z.eqb_eq in E1. subst s. simpl. now rewrite app_nil_r.
  - simpl. now rewrite app_nil_r.
  - simpl. now rewrite !app_nil_r.
Qed.

(** The loop over [x], from column [k] on. *)
Lemma classify_row (frame : Frame2D) (yn : nat) (row : list Z) :
  nth_error frame yn = Some row -> length frame = h -> length row = w ->
  forall suffix k b1 b2,
    (forall i, nth_error row (k + i) = nth_error suffix i) ->
    for_each (map Z.of_nat (seq k (length suffix)))
      (fun x => Animation.classify_pixel self frame (Z.of_nat yn) x) (b1, b2) =
    Ok (b1 ++ map (cell_center self)
                (row_cells 1 (Z.of_nat yn) (Z.of_nat k) suffix),
        b2 ++ map (cell_center self)
                (row_cells 2 (Z.of_nat yn) (Z.of_nat k) suffix)).
Proof.
  intros Hrow Hlen Hw.
  induction suffix as [|s rest IH]; intros k b1 b2 Hsuf.
  - simpl. now rewrite !app_nil_r.
  - assert (Hk : nth_error row k = Some s).
    { specialize (Hsuf 0%nat). rewrite Nat.add_0_r in Hsuf. exact Hsuf. }
    assert (Hnext : forall i, nth_error row (S k + i) = nth_error rest i).
    { intros i. specialize (Hsuf (S i)). simpl in Hsuf.
      rewrite <- Hsuf. f_equal. lia. }
    cbn [length seq map for_each row_cells].
    rewrite (classify_pixel_step frame yn k row s b1 b2 Hrow Hk Hlen Hw).
    cbn [bind].
    replace (Z.of_nat k + 1) with (Z.of_nat (S k)) by lia.
    rewrite (IH (S k) _ _ Hnext). rewrite !map_app, <- !app_assoc. reflexivity.
Qed.

(** The loop over [y], from row [j] on. *)
Lemma classify_rows (frame : Frame2D) :
  has_shape h w frame ->
  forall suffix j b1 b2,
    (forall i, nth_error frame (j + i) = nth_error suffix i) ->
    for_each (map Z.of_nat (seq j (length suffix)))
      (fun y => for_each (range_upto (grid_width self))
                  (fun x => Animation.classify_pixel self frame y x)) (b1, b2) =
    Ok (b1 ++ map (cell_center self) (frame_cells 1 (Z.of_nat j) suffix),
        b2 ++ map (cell_center self) (frame_cells 2 (Z.of_nat j) suffix)).
Proof.
  intros [Hlen Hrows].
  induction suffix as [|row rest IH]; intros j b1 b2 Hsuf.
  - simpl. now rewrite !app_nil_r.
  - cbn [length seq map for_each frame_cells].
    assert (Hj : nth_error frame j = Some row).
    { specialize (Hsuf 0%nat). rewrite Nat.add_0_r in Hsuf. exact Hsuf. }
    assert (Hw : length row = w).
    { rewrite Forall_forall in Hrows. apply Hrows. eapply nth_error_In; eauto. }
    assert (Hhead :
      for_each (range_upto (grid_width self))
        (fun x => Animation.classify_pixel self frame (Z.of_nat j) x) (b1, b2) =
      Ok (b1 ++ map (cell_center self) (row_cells 1 (Z.of_nat j) 0 row),
          b2 ++ map (cell_center self) (row_cells 2 (Z.of_nat j) 0 row))).
    { unfold range_upto. rewrite Hgw, Nat2Z.id, <- Hw.
      apply (classify_row frame j row Hj Hlen Hw row 0 b1 b2). reflexivity. }
    rewrite Hhead. cbn [bind].
    assert (Hnext : forall i, nth_error frame (S j + i) = nth_error rest i).
    { intros i. specialize (Hsuf (S i)). simpl in Hsuf.
      rewrite <- Hsuf. f_equal. lia. }
    replace (Z.of_nat j + 1) with (Z.of_nat (S j)) by lia.
    rewrite (IH (S j) _ _ Hnext). rewrite !map_app, <- !app_assoc. reflexivity.
Qed.

Lemma classify_frame_spec (frame : Frame2D) :
  has_shape h w frame ->
  Animation.classify_frame self frame =
  Ok (map (cell_center self) (cells_with_state 1 frame),
      map (cell_center self) (cells_with_state 2 frame)).
Proof.
  intros Hsh. unfold Animation.classify_frame, range_upto, cells_with_state.
  rewrite Hgh, Nat2Z.id. destruct Hsh as [Hlen Hrows]. rewrite <- Hlen.
  apply (classify_rows frame (conj Hlen Hrows) frame 0 [] []). reflexivity.
Qed.

Lemma sample_loop (frames : list Frame2D) (ts : list Z) :
  Forall (has_shape h w) frames ->
  Forall (fun t => 0 <= t < Z.of_nat (length frames)) ts ->
  forall acc,
    for_each ts
      (fun t frames_data =>
         frame <- np_getitem frames t ;;
         '(burning_pixels, burned_pixels) <- Animation.classify_frame self frame ;;
         Ok (frames_data ++
               [{| time := t;
                   burning := burning_pixels;
                   burned_count := Z.of_nat (length burned_pixels);
                   burning_count := Z.of_nat (length burning_pixels) |}]))
      acc =
    Ok (acc ++ map (fun t => frame_data_of self t (nth (Z.to_nat t) frames [])) ts).
Proof.
  intros Hsh Hts. induction Hts as [|t ts Ht _ IH]; intros acc; simpl.
  - now rewrite app_nil_r.
  - destruct (nth_error frames (Z.to_nat t)) as [frame|] eqn:E;
      [|apply nth_error_None in E; lia].
    assert (Hg := np_getitem_nat frames (Z.to_nat t) frame E).
    rewrite Z2Nat.id in Hg by lia. rewrite Hg. simpl bind.
    assert (Hf : has_shape h w frame).
    { rewrite Forall_forall in Hsh. apply Hsh. eapply nth_error_In; eauto. }
    rewrite (classify_frame_spec frame Hf). simpl bind.
    rewrite IH. rewrite <- app_assoc. simpl. do 3 f_equal.
    unfold frame_data_of. rewrite (nth_error_nth _ _ _ E).
    rewrite !length_map. unfold cells_with_state.
    rewrite !frame_cells_length. reflexivity.
Qed.

End Sampler.

Lemma range_sorted (step : Z) (n a : nat) :
  1 <= step ->
  StronglySorted Z.lt (map (fun i => 0 + Z.of_nat i * step) (seq a n)).
Proof.
  intros Hs. revert a. induction n as [|n IH]; intros a; simpl; constructor.
  - apply IH.
  - apply Forall_forall. intros t Ht.
    apply in_map_iff in Ht. destruct Ht as (i & <- & Hi).
    apply in_seq in Hi. nia.
Qed.

(** [range(0, stop, step)] for a positive step: the multiples of [step]
    below [stop], in increasing order. *)
Lemma py_range_positive (stop step : Z) :
  1 <= step ->
  exists ts,
    py_range 0 stop step = Ok ts /\
    StronglySorted Z.lt ts /\
    (forall t, In t ts <-> 0 <= t < stop /\ t mod step = 0).
Proof.
  intros Hs. unfold py_range.
  assert (E0 : (step =? 0) = false) by (apply Z.eqb_neq; lia).
  assert (E1 : (0 <? step) = true) by (apply Z.ltb_lt; lia).
  rewrite E0, E1. eexists. split; [reflexivity|].
  split; [apply range_sorted; exact Hs|].
  intros t. rewrite in_map_iff. split.
  - intros (i & <- & Hi). apply in_seq in Hi.
    destruct (0 <? stop) eqn:E; [|simpl in Hi; lia].
    apply Z.ltb_lt in E.
    assert (Hq : 0 <= (stop - 0 - 1) / step) by (apply Z.div_pos; lia).
    assert (Hi' : Z.of_nat i <= (stop - 0 - 1) / step) by lia.
    assert (Hm := Z.mul_div_le (stop - 0 - 1) step ltac:(lia)).
    split; [nia|].
    rewrite Z.add_0_l. apply Z_mod_mult.
  - intros [Ht Hmod].
    assert (E : (0 <? stop) = true) by (apply Z.ltb_lt; lia).
    rewrite E.
    assert (Hexact : t = step * (t / step)) by (apply Z_div_exact_2; lia).
    assert (Hq : 0 <= t / step) by (apply Z.div_pos; lia).
    assert (Hle : t / step <= (stop - 0 - 1) / step)
      by (apply Z.div_le_mono; lia).
    exists (Z.to_nat (t / step)). split; [rewrite Z2Nat.id by lia; lia|].
    apply in_seq. lia.
Qed.

Lemma cells_empty_grid (h w : nat) (v y : Z) (frame : Frame2D) :
  has_shape h w frame -> (h = 0 \/ w = 0)%nat -> frame_cells v y frame = [].
Proof.
  intros [Hlen Hrows] [Hh|Hw].
  - rewrite Hh in Hlen. apply length_zero_iff_nil in Hlen. subst frame.
    reflexivity.
  - clear Hlen. revert y.
    induction Hrows as [|row rest Hrow _ IH]; intros y; simpl; [reflexivity|].
    rewrite Hw in Hrow. apply length_zero_iff_nil in Hrow. subst row.
    simpl. apply IH.
Qed.

Lemma Forall2_map_ok {A B : Type} (f : A -> Result B) (g : A -> B) (l : list A) :
  (forall a, f a = Ok (g a)) -> Forall2 (fun b a => f a = Ok b) (map g l) l.
Proof.
  intros H. induction l; simpl; constructor; auto.
Qed.

Section SamplerSpec.
Context {F : Type} {ops : PyFloat F}.

(** C4.  For a sample rate of at least 1, on a grid that is the array's,
    the frame loop of [prepare_animation_data] returns frames whose times
    are exactly the multiples of the sample rate below the number of frames,
    in increasing order.  Each frame of time [t] holds, for the snapshot
    [fire_map[t]]: in [burning] the projected centre of every cell in state
    1 (in row-major order), in [burning_count] the number of those cells and
    in [burned_count] the number of cells in state 2 in that snapshot.
    With four frames and sample rate 2 the times are 0 and 2. *)
Theorem frame_sampler_spec (self : Coordinates F) (fm : FireMap) (sample_rate : Z) :
  wf_fire_map fm -> grid_matches self fm -> 1 <= sample_rate ->
  exists frames,
    Animation.prepare_animation_frames self fm sample_rate = Ok frames /\
    StronglySorted Z.lt (map time frames) /\
    (forall t, In t (map time frames) <->
               0 <= t < shape0 fm /\ t mod sample_rate = 0) /\
    Forall
      (fun f =>
         exists frame,
           nth_error (fm_frames fm) (Z.to_nat (time f)) = Some frame /\
           Forall2
             (fun p xy => Animation.pixel_to_latlon self (fst xy) (snd xy) = Ok p)
             (burning f) (cells_with_state 1 frame) /\
           burning_count f = count_cells 1 frame /\
           burned_count f = count_cells 2 frame)
      frames /\
    (shape0 fm = 4 -> sample_rate = 2 -> map time frames = [0; 2]).
Proof.
  intros Hwf [Hgh Hgw] Hs.
  destruct (py_range_positive (shape0 fm) sample_rate Hs)
    as (ts & Hrange & Hsorted & Hin).
  assert (Hbounds : Forall (fun t => 0 <= t < Z.of_nat (length (fm_frames fm))) ts).
  { apply Forall_forall. intros t Ht. apply Hin in Ht. exact (proj1 Ht). }
  unfold Animation.prepare_animation_frames. rewrite Hrange. cbn [bind].
  rewrite (sample_loop self (fm_height fm) (fm_width fm) Hgh Hgw
             (fm_frames fm) ts Hwf Hbounds []).
  eexists. split; [reflexivity|].
  assert (Htimes :
    map time
      ([] ++ map (fun t => frame_data_of self t
                             (nth (Z.to_nat t) (fm_frames fm) [])) ts) = ts).
  { simpl. rewrite map_map. simpl. apply map_id. }
  rewrite Htimes.
  split; [exact Hsorted|]. split; [exact Hin|]. split.
  - simpl. apply Forall_map. apply Forall_forall. intros t Ht.
    apply Hin in Ht. destruct Ht as [Ht _]. unfold shape0 in Ht.
    destruct (nth_error (fm_frames fm) (Z.to_nat t)) as [frame|] eqn:E;
      [|apply nth_error_None in E; lia].
    exists frame. simpl. rewrite (nth_error_nth _ _ _ E).
    split; [exact E|]. split; [|split; reflexivity].
    assert (Hf : has_shape (fm_height fm) (fm_width fm) frame).
    { unfold wf_fire_map in Hwf. rewrite Forall_forall in Hwf.
      apply Hwf. eapply nth_error_In; eauto. }
    destruct (Nat.eq_dec (fm_height fm) 0) as [Hh0|Hh0];
      [|destruct (Nat.eq_dec (fm_width fm) 0) as [Hw0|Hw0]].
    + unfold cells_with_state.
      rewrite (cells_empty_grid _ _ 1 0 frame Hf (or_introl Hh0)). constructor.
    + unfold cells_with_state.
      rewrite (cells_empty_grid _ _ 1 0 frame Hf (or_intror Hw0)). constructor.
    + apply (Forall2_map_ok
               (fun xy => Animation.pixel_to_latlon self (fst xy) (snd xy))
               (cell_center self)).
      intros [x y]. apply pixel_center_ok; lia.
  - intros HT H2. rewrite HT, H2 in Hrange. vm_compute in Hrange. congruence.
Qed.

End SamplerSpec.

Lemma scenario_grid_matches :
  exists self,
    _setup_coordinates (B64.from_int 1) scenario_config = Ok self /\
    grid_matches self scenario_fire_map.
Proof.
  eexists. split; [vm_compute; reflexivity|]. split; reflexivity.
Defined.

Lemma frame_sampler_spec_witness :
  exists self frames,
    _setup_coordinates (B64.from_int 1) scenario_config = Ok self /\
    Animation.prepare_animation_frames self scenario_fire_map 2 = Ok frames /\
    StronglySorted Z.lt (map time frames) /\
    (forall t, In t (map time frames) <->
               0 <= t < shape0 scenario_fire_map /\ t mod 2 = 0) /\
    Forall
      (fun f =>
         exists frame,
           nth_error (fm_frames scenario_fire_map) (Z.to_nat (time f)) =
             Some frame /\
           Forall2
             (fun p xy => Animation.pixel_to_latlon self (fst xy) (snd xy) = Ok p)
             (burning f) (cells_with_state 1 frame) /\
           burning_count f = count_cells 1 frame /\
           burned_count f = count_cells 2 frame)
      frames /\
    (shape0 scenario_fire_map = 4 -> 2 = 2 -> map time frames = [0; 2]).
Proof.
  destruct scenario_grid_matches as (self & Hself & Hgrid).
  destruct (@frame_sampler_spec float B64.ops self scenario_fire_map 2
              scenario_wf Hgrid ltac:(lia)) as (frames & H).
  exists self, frames. split; [exact Hself|exact H].
Defined.

(** The scenario sampled at rate 2 keeps the frames 0 and 2 of its three
    frames; frame 2 has one burning cell, (1, 0), and one burned cell. *)
Example scenario_sampled :
  exists self frames,
    _setup_coordinates (B64.from_int 1) scenario_config = Ok self /\
    Animation.prepare_animation_frames self scenario_fire_map 2 = Ok frames /\
    map time frames = [0; 2] /\
    map burning_count frames = [0; 1] /\
    map burned_count frames = [0; 1] /\
    cells_with_state 1 [[2; 1]; [0; 0]] = [(1, 0)].
Proof.
  do 2 eexists. split; [vm_compute; reflexivity|].
  split; [vm_compute; reflexivity|]. repeat split; reflexivity.
Qed.

(* ================================================================== *)
(** ** Summary statistics *)

Lemma np_count_eq_spec (frame : Frame2D) (v : Z) :
  np_count_eq frame v = count_cells v frame.
Proof.
  unfold np_count_eq, count_cells.
  assert (H : forall l a,
             fold_left Z.add (map (fun s => if s =? v then 1 else 0) l) a =
             a + Z.of_nat (count_occ Z.eq_dec l v)).
  { induction l as [|s l IH]; intros a; simpl; [lia|].
    rewrite IH. destruct (Z.eq_dec s v) as [->|Hne].
    - rewrite Z.eqb_refl. lia.
    - destruct (s =? v) eqn:E; [apply Z.eqb_eq in E; contradiction|lia]. }
  rewrite H. lia.
Qed.

Lemma np_getitem_last {A : Type} (a : list A) :
  (0 < length a)%nat ->
  exists v, np_getitem a (-1) = Ok v /\ nth_error a (length a - 1) = Some v.
Proof.
  intros Hlen.
  destruct (nth_error a (length a - 1)) as [v|] eqn:E;
    [|apply nth_error_None in E; lia].
  exists v. split; [|reflexivity].
  unfold np_getitem. cbv zeta.
  assert (E1 : (-1 <? 0) = true) by reflexivity. rewrite E1.
  assert (E2 : (-1 + Z.of_nat (length a) <? 0) = false) by (apply Z.ltb_ge; lia).
  assert (E3 : (Z.of_nat (length a) <=? -1 + Z.of_nat (length a)) = false)
    by (apply Z.leb_gt; lia).
  rewrite E2, E3. cbn [orb].
  replace (Z.to_nat (-1 + Z.of_nat (length a))) with (length a - 1)%nat by lia.
  rewrite E. reflexivity.
Qed.

Lemma np_max_ok (h w : nat) (m : Frame2D) :
  has_shape h w m -> (0 < h)%nat -> (0 < w)%nat -> exists v, np_max m = Ok v.
Proof.
  intros [Hlen Hrows] Hh Hw. unfold np_max.
  destruct m as [|row rest]; [simpl in Hlen; lia|].
  apply Forall_inv in Hrows.
  destruct row as [|s row]; [simpl in Hrows; lia|].
  simpl. eauto.
Qed.

Lemma Forall2_of_nth_error {A B : Type} (R : A -> B -> Prop) (l : list A) :
  forall l', length l = length l' ->
    (forall i a b, nth_error l i = Some a -> nth_error l' i = Some b -> R a b) ->
    Forall2 R l l'.
Proof.
  induction l as [|a l IH]; intros [|b l'] Hlen H; simpl in Hlen;
    try discriminate; constructor.
  - apply (H 0%nat); reflexivity.
  - apply IH; [lia|]. intros i a' b' Ha Hb. apply (H (S i)); assumption.
Qed.

Lemma burned_le_ignited_row (l : list Z) (l' : list Z) :
  Forall2 (fun s v => s = 2 -> v >= 0) l l' ->
  (count_occ Z.eq_dec l 2%Z <= length (filter (fun v => v >=? 0) l'))%nat.
Proof.
  induction 1 as [|s v l l' Hsv _ IH]; simpl; [lia|].
  destruct (Z.eq_dec s 2) as [Hs|Hs].
  - assert (Hv : (v >=? 0) = true) by (apply Z.geb_le; specialize (Hsv Hs); lia).
    rewrite Hv. simpl. lia.
  - destruct (v >=? 0); simpl; lia.
Qed.

Lemma burned_le_ignited_matrix (m m' : Frame2D) :
  Forall2 (Forall2 (fun s v => s = 2 -> v >= 0)) m m' ->
  count_cells 2 m <= count_ignited m'.
Proof.
  unfold count_cells, count_ignited. intros H. apply inj_le.
  induction H as [|row row' m m' Hrow _ IH]; simpl; [lia|].
  rewrite count_occ_app, filter_app, length_app.
  apply burned_le_ignited_row in Hrow. lia.
Qed.

(** A cell that is burned in some frame has a burn time. *)
Lemma burned_cell_has_burn_time (fm : FireMap) (t y x : nat) (v : Z) :
  wf_fire_map fm -> shape0 fm <= 2 ^ 31 ->
  (y < fm_height fm)%nat -> (x < fm_width fm)%nat ->
  state_at fm t y x = Some 2 ->
  cell (_compute_burn_time_matrix fm) y x = Some v -> v >= 0.
Proof.
  intros Hwf HT Hy Hx Hs Hv. unfold state_at in Hs.
  destruct (nth_error (fm_frames fm) t) as [m|] eqn:Em; [|discriminate].
  unfold _compute_burn_time_matrix in Hv.
  destruct (burn_loop_first Hwf 0 (has_shape_np_full _ _ (-1)) Hy Hx
              (Z.le_refl 0) HT (cell_np_full (-1) Hy Hx))
    as [[_ Hall]|(k & m' & s & _ & _ & _ & Hres & _)].
  - specialize (Hall t m 2 Em Hs). lia.
  - rewrite Hres in Hv. injection Hv as <-. lia.
Qed.

Section Statistics.
Context {F : Type} {ops : PyFloat F}.

(** C10.  For a [fire_map] with at least one frame on a grid that is not
    empty, [get_statistics] succeeds; [burned_pixels] is the number of cells
    whose state is 2 in the last frame, [total_pixels] is height times
    width, [burned_percentage] is [burned_pixels / total_pixels * 100] and
    [area_burned_ha] is [burned_pixels] times the area of a cell in
    hectares.  Cells in state 1 in the last frame are not counted, so
    [burned_pixels] is at most the number of cells with a burn time, and it
    is strictly smaller in the scenario of the specification. *)
Theorem statistics_count_final_burned (self : Coordinates F) (fm : FireMap) :
  wf_fire_map fm -> (0 < length (fm_frames fm))%nat ->
  (0 < fm_height fm)%nat -> (0 < fm_width fm)%nat ->
  (exists stats last_frame,
     Visualizer.get_statistics self fm = Ok stats /\
     nth_error (fm_frames fm) (length (fm_frames fm) - 1) = Some last_frame /\
     burned_pixels stats = count_cells 2 last_frame /\
     total_pixels stats = Z.of_nat (fm_height fm) * Z.of_nat (fm_width fm) /\
     burned_percentage stats =
       fmul (tdiv (burned_pixels stats) (total_pixels stats)) (of_int 100) /\
     area_burned_ha stats =
       fmul (of_int (burned_pixels stats))
            (fdiv (fpow2 (pixel_scale_m self)) (of_int 10000)) /\
     (shape0 fm <= 2 ^ 31 ->
      burned_pixels stats <= count_ignited (_compute_burn_time_matrix fm))) /\
  (exists stats,
     Visualizer.get_statistics self scenario_fire_map = Ok stats /\
     count_cells 1 [[2; 1]; [0; 0]] = 1 /\
     burned_pixels stats = 1 /\
     count_ignited (_compute_burn_time_matrix scenario_fire_map) = 2).
Proof.
  intros Hwf HT Hh Hw. split.
  - destruct (np_getitem_last (fm_frames fm) HT) as (last_frame & Hget & Hlast).
    assert (Hbt : has_shape (fm_height fm) (fm_width fm)
                    (_compute_burn_time_matrix fm)).
    { apply burn_loop_shape; [exact Hwf|apply has_shape_np_full]. }
    destruct (np_max_ok _ _ _ Hbt Hh Hw) as (max_time & Hmax).
    unfold Visualizer.get_statistics. rewrite Hget, Hmax. cbn [bind].
    do 2 eexists. split; [reflexivity|]. cbn [burned_pixels total_pixels
      burned_percentage area_burned_ha].
    split; [exact Hlast|]. split; [apply np_count_eq_spec|].
    split; [lia|]. split; [reflexivity|]. split; [reflexivity|].
    intros H31. rewrite np_count_eq_spec.
    assert (Hlf : has_shape (fm_height fm) (fm_width fm) last_frame).
    { unfold wf_fire_map in Hwf. rewrite Forall_forall in Hwf.
      apply Hwf. eapply nth_error_In; eauto. }
    apply burned_le_ignited_matrix.
    destruct Hlf as [Hl1 Hr1]. destruct Hbt as [Hl2 Hr2].
    apply Forall2_of_nth_error; [lia|]. intros y row row' Hrow Hrow'.
    assert (Hy : (y < fm_height fm)%nat).
    { rewrite <- Hl1. apply nth_error_Some. congruence. }
    assert (Hw1 : length row = fm_width fm).
    { rewrite Forall_forall in Hr1. apply Hr1. eapply nth_error_In; eauto. }
    assert (Hw2 : length row' = fm_width fm).
    { rewrite Forall_forall in Hr2. apply Hr2. eapply nth_error_In; eauto. }
    apply Forall2_of_nth_error; [lia|]. intros x s v Hs Hv ->.
    assert (Hx : (x < fm_width fm)%nat).
    { rewrite <- Hw1. apply nth_error_Some. congruence. }
    apply (burned_cell_has_burn_time fm (length (fm_frames fm) - 1) y x v);
      auto.
    + unfold state_at, cell. rewrite Hlast, Hrow. exact Hs.
    + unfold cell. rewrite Hrow'. exact Hv.
  - eexists. split; [reflexivity|]. repeat split; reflexivity.
Qed.

End Statistics.

Lemma statistics_count_final_burned_witness :
  exists self stats last_frame,
    _setup_coordinates (B64.from_int 1) scenario_config = Ok self /\
    Visualizer.get_statistics self scenario_fire_map = Ok stats /\
    nth_error (fm_frames scenario_fire_map)
      (length (fm_frames scenario_fire_map) - 1) = Some last_frame /\
    burned_pixels stats = count_cells 2 last_frame /\
    total_pixels stats =
      Z.of_nat (fm_height scenario_fire_map) *
      Z.of_nat (fm_width scenario_fire_map) /\
    burned_percentage stats =
      fmul (tdiv (burned_pixels stats) (total_pixels stats)) (of_int 100) /\
    area_burned_ha stats =
      fmul (of_int (burned_pixels stats))
           (fdiv (fpow2 (pixel_scale_m self)) (of_int 10000)) /\
    (shape0 scenario_fire_map <= 2 ^ 31 ->
     burned_pixels stats <=
       count_ignited (_compute_burn_time_matrix scenario_fire_map)).
Proof.
  destruct scenario_grid_matches as (self & Hself & _).
  destruct (@statistics_count_final_burned float B64.ops self scenario_fire_map
              scenario_wf ltac:(simpl; lia) ltac:(simpl; lia) ltac:(simpl; lia))
    as [(stats & last_frame & H) _].
  exists self, stats, last_frame. split; [exact Hself|exact H].
Defined.

(** The statistics of the scenario in binary64: one burned cell of four,
    25 percent. *)
Example scenario_statistics :
  exists self stats,
    _setup_coordinates (B64.from_int 1) scenario_config = Ok self /\
    Visualizer.get_statistics self scenario_fire_map = Ok stats /\
    total_pixels stats = 4 /\ burned_pixels stats = 1 /\
    PrimFloat.eqb (burned_percentage stats) (B64.from_int 25) = true /\
    max_burn_time stats = 2.
Proof.
  do 2 eexists. split; [vm_compute; reflexivity|].
  split; [vm_compute; reflexivity|]. repeat split; reflexivity.
Qed.

(* ================================================================== *)
(* ================================================================== *)
(** * Further properties of the scripts *)

(* ================================================================== *)
(** ** [get_statistics] on degenerate arrays *)

Section StatisticsEdges.
Context {F : Type} {ops : PyFloat F}.

(** [get_statistics] returns exactly when the array has a frame and the
    grid a cell.  Without a frame [fire_map[-1]] raises [IndexError]; with
    frames of an empty grid the division [burned_pixels / total_pixels] is
    NumPy's (it does not raise) and the first error is the [ValueError] of
    [max()] on an empty matrix.  When it returns, [simulation_frames] is
    the number of frames and [bounds] the bounding box. *)
Theorem statistics_errors (self : Coordinates F) (fm : FireMap) :
  wf_fire_map fm ->
  (fm_frames fm = [] ->
   Visualizer.get_statistics self fm = Raise IndexError) /\
  (fm_frames fm <> [] -> (fm_height fm = 0 \/ fm_width fm = 0)%nat ->
   Visualizer.get_statistics self fm = Raise ValueError) /\
  (fm_frames fm <> [] -> (0 < fm_height fm)%nat -> (0 < fm_width fm)%nat ->
   exists stats,
     Visualizer.get_statistics self fm = Ok stats /\
     simulation_frames stats = shape0 fm /\
     bounds stats = (north_lat self, south_lat self, east_lon self, west_lon self)).
Proof.
  intros Hwf.
  assert (Hbt : has_shape (fm_height fm) (fm_width fm)
                  (_compute_burn_time_matrix fm)).
  { apply burn_loop_shape; [exact Hwf|apply has_shape_np_full]. }
  split; [|split].
  - intros Hnil. unfold Visualizer.get_statistics. rewrite Hnil. reflexivity.
  - intros Hne Hempty.
    assert (HT : (0 < length (fm_frames fm))%nat).
    { destruct (fm_frames fm); [congruence|simpl; lia]. }
    destruct (np_getitem_last (fm_frames fm) HT) as (last_frame & Hget & _).
    unfold Visualizer.get_statistics. rewrite Hget. cbn [bind].
    assert (Hcat : concat (_compute_burn_time_matrix fm) = []).
    { destruct Hbt as [Hlen Hrows]. destruct Hempty as [Hh|Hw].
      - rewrite Hh in Hlen. apply length_zero_iff_nil in Hlen.
        rewrite Hlen. reflexivity.
      - rewrite Hw in Hrows. clear Hlen.
        induction Hrows as [|row rest Hrow _ IH]; [reflexivity|].
        apply length_zero_iff_nil in Hrow. subst row. exact IH. }
    unfold np_max. rewrite Hcat. reflexivity.
  - intros Hne Hh Hw.
    assert (HT : (0 < length (fm_frames fm))%nat).
    { destruct (fm_frames fm); [congruence|simpl; lia]. }
    destruct (np_getitem_last (fm_frames fm) HT) as (last_frame & Hget & _).
    destruct (np_max_ok _ _ _ Hbt Hh Hw) as (max_time & Hmax).
    unfold Visualizer.get_statistics. rewrite Hget, Hmax. cbn [bind].
    eexists. split; [reflexivity|]. split; reflexivity.
Qed.

End StatisticsEdges.

(* ================================================================== *)
(** ** The largest burn time *)

Lemma fold_max_spec (l : list Z) (a : Z) :
  (fold_left Z.max l a = a \/ In (fold_left Z.max l a) l) /\
  a <= fold_left Z.max l a /\
  Forall (fun u => u <= fold_left Z.max l a) l.
Proof.
  revert a. induction l as [|b l IH]; intros a; simpl.
  - split; [now left|]. split; [lia|constructor].
  - destruct (IH (Z.max a b)) as (Hin & Hle & Hall).
    split; [|split].
    + destruct Hin as [Heq|Hin]; [|now right; right].
      rewrite Heq. destruct (Z.max_spec a b) as [[_ ->]|[_ ->]]; auto.
    + lia.
    + constructor; [lia|exact Hall].
Qed.

Lemma np_max_spec (m : Frame2D) (v : Z) :
  np_max m = Ok v -> In v (concat m) /\ Forall (fun u => u <= v) (concat m).
Proof.
  unfold np_max. destruct (concat m) as [|a l]; [discriminate|].
  intros H. injection H as <-.
  destruct (fold_max_spec l a) as (Hin & Hle & Hall).
  split.
  - destruct Hin as [->|Hin]; [now left|now right].
  - constructor; assumption.
Qed.

Lemma cell_in_concat (m : Frame2D) (y x : nat) (v : Z) :
  cell m y x = Some v -> In v (concat m).
Proof.
  unfold cell. intros H.
  destruct (nth_error m y) as [row|] eqn:E; [|discriminate].
  apply in_concat. exists row. split; eapply nth_error_In; eauto.
Qed.

Lemma concat_in_cell (m : Frame2D) (v : Z) :
  In v (concat m) -> exists y x, cell m y x = Some v.
Proof.
  intros H. apply in_concat in H. destruct H as (row & Hrow & Hv).
  apply In_nth_error in Hrow. destruct Hrow as [y Hy].
  apply In_nth_error in Hv. destruct Hv as [x Hx].
  exists y, x. unfold cell. rewrite Hy. exact Hx.
Qed.

Lemma cell_inside {h w : nat} {m : Frame2D} {y x : nat} {v : Z} :
  has_shape h w m -> cell m y x = Some v -> (y < h)%nat /\ (x < w)%nat.
Proof.
  intros [Hlen Hrows] H. unfold cell in H.
  destruct (nth_error m y) as [row|] eqn:E; [|discriminate].
  assert (Hw : length row = w).
  { rewrite Forall_forall in Hrows. apply Hrows. eapply nth_error_In; eauto. }
  split.
  - rewrite <- Hlen. apply nth_error_Some. congruence.
  - rewrite <- Hw. apply nth_error_Some. congruence.
Qed.

Lemma burn_time_shape (fm : FireMap) :
  wf_fire_map fm ->
  has_shape (fm_height fm) (fm_width fm) (_compute_burn_time_matrix fm).
Proof.
  intros Hwf. apply burn_loop_shape; [exact Hwf|apply has_shape_np_full].
Qed.

(** A cell of the burn-time matrix holds [-1], and then the cell's state is
    below 1 in every frame, or the index of a frame. *)
Lemma burn_time_cell (fm : FireMap) (y x : nat) (v : Z) :
  wf_fire_map fm -> shape0 fm <= 2 ^ 31 ->
  cell (_compute_burn_time_matrix fm) y x = Some v ->
  (v = -1 /\
   forall t m s, nth_error (fm_frames fm) t = Some m -> cell m y x = Some s ->
                 s < 1) \/
  (0 <= v < shape0 fm).
Proof.
  intros Hwf HT Hv.
  destruct (cell_inside (burn_time_shape fm Hwf) Hv) as [Hy Hx].
  unfold _compute_burn_time_matrix in Hv.
  destruct (burn_loop_first Hwf 0 (has_shape_np_full _ _ (-1)) Hy Hx
              (Z.le_refl 0) HT (cell_np_full (-1) Hy Hx))
    as [[Hres Hall]|(k & m & s & Hk & _ & _ & Hres & _)].
  - left. split; [congruence|exact Hall].
  - right. rewrite Hres in Hv. injection Hv as <-.
    assert (k < length (fm_frames fm))%nat by (apply nth_error_Some; congruence).
    unfold shape0. lia.
Qed.

Lemma Forall3_of_cells (P : Z -> Prop) (frames : list Frame2D) :
  (forall t m y x s,
     nth_error frames t = Some m -> cell m y x = Some s -> P s) ->
  Forall (Forall (Forall P)) frames.
Proof.
  intros H. apply Forall_forall. intros m Hm.
  apply In_nth_error in Hm. destruct Hm as [t Ht].
  apply Forall_forall. intros row Hrow.
  apply In_nth_error in Hrow. destruct Hrow as [y Hy].
  apply Forall_forall. intros s Hs.
  apply In_nth_error in Hs. destruct Hs as [x Hx].
  apply (H t m y x s Ht). unfold cell. rewrite Hy. exact Hx.
Qed.

(** The value [burn_time.max()] that the map, the statistics and the
    exporter normalise by: on a grid that is not empty it is the burn time of
    the cell that ignited last, every burn time lies between -1 and it, it
    stays below the number of frames, and it is -1 exactly when no cell is
    ever burning or burned. *)
Theorem max_burn_time_spec (fm : FireMap) :
  wf_fire_map fm -> shape0 fm <= 2 ^ 31 ->
  (0 < fm_height fm)%nat -> (0 < fm_width fm)%nat ->
  exists max_time,
    np_max (_compute_burn_time_matrix fm) = Ok max_time /\
    -1 <= max_time < shape0 fm /\
    (exists y x, cell (_compute_burn_time_matrix fm) y x = Some max_time) /\
    (forall y x v, cell (_compute_burn_time_matrix fm) y x = Some v ->
                   -1 <= v <= max_time) /\
    (max_time = -1 <-> never_ignites fm).
Proof.
  intros Hwf HT Hh Hw.
  destruct (np_max_ok _ _ _ (burn_time_shape fm Hwf) Hh Hw) as (max_time & Hmax).
  exists max_time. split; [exact Hmax|].
  destruct (np_max_spec _ _ Hmax) as [Hin Hall].
  destruct (concat_in_cell _ _ Hin) as (y0 & x0 & Hc0).
  assert (Hrange : forall y x v,
            cell (_compute_burn_time_matrix fm) y x = Some v ->
            -1 <= v <= max_time /\ v < shape0 fm).
  { intros y x v Hv. split.
    - split.
      + destruct (burn_time_cell fm y x v Hwf HT Hv) as [[-> _]|?]; lia.
      + rewrite Forall_forall in Hall. apply Hall.
        eapply cell_in_concat; eauto.
    - destruct (burn_time_cell fm y x v Hwf HT Hv) as [[-> _]|?];
        unfold shape0 in *; lia. }
  split; [destruct (Hrange y0 x0 max_time Hc0); lia|].
  split; [eauto|].
  split; [intros y x v Hv; apply (Hrange y x v Hv)|].
  split.
  - intros ->. apply Forall3_of_cells. intros t m y x s Hm Hs.
    assert (Hm' : has_shape (fm_height fm) (fm_width fm) m).
    { unfold wf_fire_map in Hwf. rewrite Forall_forall in Hwf.
      apply Hwf. eapply nth_error_In; eauto. }
    destruct (cell_inside Hm' Hs) as [Hy Hx].
    destruct (cell_in_shape (burn_time_shape fm Hwf) Hy Hx) as [v Hv].
    destruct (burn_time_cell fm y x v Hwf HT Hv) as [[_ Hcold]|Hpos].
    + eauto.
    + destruct (Hrange y x v Hv). lia.
  - intros Hcold.
    rewrite (never_ignites_burn_time fm Hwf Hcold) in Hmax.
    rewrite (np_max_np_full _ _ (-1) Hh Hw) in Hmax. congruence.
Qed.

(* ================================================================== *)
(** ** The cells the exporter visits *)

Lemma map_result_app {A B : Type} (f : A -> Result B) (l1 l2 : list A) :
  map_result f (l1 ++ l2) =
  (bs1 <- map_result f l1 ;; bs2 <- map_result f l2 ;; Ok (bs1 ++ bs2)).
Proof.
  induction l1 as [|a l1 IH]; simpl.
  - destruct (map_result f l2); reflexivity.
  - destruct (f a) as [b|e]; simpl; [|reflexivity].
    rewrite IH. destruct (map_result f l1) as [bs1|e]; simpl; [|reflexivity].
    destruct (map_result f l2); reflexivity.
Qed.

Lemma map_result_ok {A B : Type} (f : A -> Result B) (l : list A) (bs : list B) :
  map_result f l = Ok bs -> Forall2 (fun b a => f a = Ok b) bs l.
Proof.
  revert bs. induction l as [|a l IH]; intros bs H; simpl in H.
  - injection H as <-. constructor.
  - destruct (f a) as [b|e] eqn:Ea; simpl in H; [|discriminate].
    destruct (map_result f l) as [bs'|e]; simpl in H; [|discriminate].
    injection H as <-. constructor; auto.
Qed.

Lemma map_result_total {A B : Type} (f : A -> Result B) (g : A -> B) (l : list A) :
  (forall a, In a l -> f a = Ok (g a)) -> map_result f l = Ok (map g l).
Proof.
  induction l as [|a l IH]; intros H; simpl; [reflexivity|].
  rewrite (H a (or_introl eq_refl)). simpl.
  rewrite IH by (intros; apply H; now right). reflexivity.
Qed.

Lemma ignited_row_length (y x : Z) (row : list Z) :
  length (ignited_row y x row) = length (filter (fun v => v >=? 0) row).
Proof.
  revert x. induction row as [|v rest IH]; intros x; simpl; [reflexivity|].
  rewrite length_app, IH. destruct (v >=? 0); reflexivity.
Qed.

Lemma ignited_cells_length (burn_time : Frame2D) :
  Z.of_nat (length (ignited_cells burn_time)) = count_ignited burn_time.
Proof.
  unfold ignited_cells, count_ignited. f_equal.
  assert (H : forall y, length (ignited_rows y burn_time) =
                        length (filter (fun v => v >=? 0) (concat burn_time)));
    [|apply H].
  induction burn_time as [|row rest IH]; intros y; simpl; [reflexivity|].
  rewrite length_app, filter_app, length_app, ignited_row_length, IH.
  reflexivity.
Qed.

Lemma ignited_row_in (y x0 : Z) (row : list Z) (x y' v : Z) :
  In (x, y', v) (ignited_row y x0 row) <->
  y' = y /\ x0 <= x /\ nth_error row (Z.to_nat (x - x0)) = Some v /\ v >= 0.
Proof.
  revert x0. induction row as [|u rest IH]; intros x0; simpl.
  - split; [tauto|]. intros (_ & _ & H & _).
    destruct (Z.to_nat (x - x0)); discriminate.
  - rewrite in_app_iff, IH. split.
    + intros [H|(-> & Hx & Hn & Hv)].
      * destruct (u >=? 0) eqn:E; [|destruct H].
        destruct H as [H|[]]. injection H as <- <- <-.
        rewrite Z.sub_diag. simpl. rewrite Z.geb_le in E.
        repeat split; try lia.
      * repeat split; try lia.
        replace (Z.to_nat (x - x0)) with (S (Z.to_nat (x - (x0 + 1)))) by lia.
        exact Hn.
    + intros (-> & Hx & Hn & Hv).
      destruct (Z.eq_dec x x0) as [->|Hne].
      * left. rewrite Z.sub_diag in Hn. simpl in Hn. injection Hn as ->.
        assert (E : (v >=? 0) = true) by (apply Z.geb_le; lia).
        rewrite E. now left.
      * right. repeat split; try lia.
        replace (Z.to_nat (x - x0)) with (S (Z.to_nat (x - (x0 + 1)))) in Hn
          by lia.
        exact Hn.
Qed.

Lemma ignited_rows_in (y0 : Z) (burn_time : Frame2D) (x y v : Z) :
  In (x, y, v) (ignited_rows y0 burn_time) <->
  y0 <= y /\ 0 <= x /\
  cell burn_time (Z.to_nat (y - y0)) (Z.to_nat x) = Some v /\ v >= 0.
Proof.
  revert y0. induction burn_time as [|row rest IH]; intros y0; simpl.
  - split; [tauto|]. intros (_ & _ & H & _). unfold cell in H.
    destruct (Z.to_nat (y - y0)); discriminate.
  - rewrite in_app_iff, IH, ignited_row_in. unfold cell. split.
    + intros [(-> & Hx & Hn & Hv)|(Hy & Hx & Hn & Hv)].
      * rewrite Z.sub_diag. simpl. rewrite Z.sub_0_r in Hn.
        repeat split; try lia. exact Hn.
      * repeat split; try lia.
        replace (Z.to_nat (y - y0)) with (S (Z.to_nat (y - (y0 + 1)))) by lia.
        exact Hn.
    + intros (Hy & Hx & Hn & Hv).
      destruct (Z.eq_dec y y0) as [->|Hne].
      * left. rewrite Z.sub_diag in Hn. simpl in Hn. rewrite Z.sub_0_r.
        repeat split; try lia. exact Hn.
      * right. repeat split; try lia.
        replace (Z.to_nat (y - y0)) with (S (Z.to_nat (y - (y0 + 1)))) in Hn
          by lia.
        exact Hn.
Qed.

Lemma ignited_row_sorted (y x0 : Z) (row : list Z) :
  StronglySorted row_major (ignited_row y x0 row).
Proof.
  revert x0. induction row as [|u rest IH]; intros x0; simpl; [constructor|].
  destruct (u >=? 0); simpl; [|apply IH].
  constructor; [apply IH|].
  apply Forall_forall. intros [[x y'] v] Hin.
  apply ignited_row_in in Hin. destruct Hin as (-> & Hx & _).
  right. simpl. split; [reflexivity|lia].
Qed.

Lemma StronglySorted_app {A : Type} (R : A -> A -> Prop) (l1 l2 : list A) :
  StronglySorted R l1 -> StronglySorted R l2 ->
  (forall a b, In a l1 -> In b l2 -> R a b) ->
  StronglySorted R (l1 ++ l2).
Proof.
  intros H1 H2 H. induction H1 as [|a l1 Hs IH Ha]; simpl; [exact H2|].
  constructor.
  - apply IH. intros; apply H; [now right|assumption].
  - apply Forall_app. split; [exact Ha|].
    apply Forall_forall. intros b Hb. apply H; [now left|assumption].
Qed.

Lemma ignited_rows_sorted (y0 : Z) (burn_time : Frame2D) :
  StronglySorted row_major (ignited_rows y0 burn_time).
Proof.
  revert y0. induction burn_time as [|row rest IH]; intros y0; simpl;
    [constructor|].
  apply StronglySorted_app; [apply ignited_row_sorted|apply IH|].
  intros [[x y] v] [[x' y'] v'] Ha Hb.
  apply ignited_row_in in Ha. apply ignited_rows_in in Hb.
  left. simpl. lia.
Qed.

(** Two nested loops over a grid that act on the cells with a value of at
    least 0 only, appending the result of [make x y v]. *)
Section GridLoop.
Context {B : Type}.
Variable make : Z -> Z -> Z -> Result B.
Variable matrix : Frame2D.

Let item_of (c : Z * Z * Z) : Result B :=
  make (fst (fst c)) (snd (fst c)) (snd c).

Let body (y x : Z) (items : list B) : Result (list B) :=
  v <- np_getitem2 matrix y x ;;
  if v >=? 0 then item <- make x y v ;; Ok (items ++ [item]) else Ok items.

Lemma grid_loop_row (yn : nat) (row : list Z) :
  nth_error matrix yn = Some row ->
  forall suffix k acc,
    (forall i, nth_error row (k + i) = nth_error suffix i) ->
    for_each (map Z.of_nat (seq k (length suffix))) (body (Z.of_nat yn)) acc =
    (items <- map_result item_of
                (ignited_row (Z.of_nat yn) (Z.of_nat k) suffix) ;;
     Ok (acc ++ items)).
Proof.
  intros Hrow. induction suffix as [|s rest IH]; intros k acc Hsuf.
  - simpl. now rewrite app_nil_r.
  - assert (Hk : nth_error row k = Some s).
    { specialize (Hsuf 0%nat). rewrite Nat.add_0_r in Hsuf. exact Hsuf. }
    assert (Hnext : forall i, nth_error row (S k + i) = nth_error rest i).
    { intros i. specialize (Hsuf (S i)). simpl in Hsuf.
      rewrite <- Hsuf. f_equal. lia. }
    cbn [length seq map for_each ignited_row].
    assert (Hbody : body (Z.of_nat yn) (Z.of_nat k) acc =
              if s >=? 0
              then item <- item_of (Z.of_nat k, Z.of_nat yn, s) ;;
                   Ok (acc ++ [item])
              else Ok acc).
    { unfold body, np_getitem2.
      rewrite (np_getitem_nat matrix yn row Hrow). cbn [bind].
      rewrite (np_getitem_nat row k s Hk). cbn [bind]. reflexivity. }
    rewrite Hbody.
    replace (Z.of_nat k + 1) with (Z.of_nat (S k)) by lia.
    destruct (s >=? 0).
    + cbn [app map_result].
      destruct (item_of (Z.of_nat k, Z.of_nat yn, s)) as [f|e];
        cbn [bind]; [|reflexivity].
      rewrite (IH (S k) _ Hnext).
      destruct (map_result item_of _) as [fs|e]; cbn [bind]; [|reflexivity].
      rewrite <- app_assoc. reflexivity.
    + cbn [bind app]. apply (IH (S k) _ Hnext).
Qed.

Lemma grid_loop_rows (w : nat) :
  Forall (fun row => length row = w) matrix ->
  forall suffix j acc,
    (forall i, nth_error matrix (j + i) = nth_error suffix i) ->
    for_each (map Z.of_nat (seq j (length suffix)))
      (fun y => for_each (range_upto (Z.of_nat w)) (body y)) acc =
    (items <- map_result item_of (ignited_rows (Z.of_nat j) suffix) ;;
     Ok (acc ++ items)).
Proof.
  intros Hrows. induction suffix as [|row rest IH]; intros j acc Hsuf.
  - simpl. now rewrite app_nil_r.
  - cbn [length seq map for_each ignited_rows].
    assert (Hj : nth_error matrix j = Some row).
    { specialize (Hsuf 0%nat). rewrite Nat.add_0_r in Hsuf. exact Hsuf. }
    assert (Hw : length row = w).
    { rewrite Forall_forall in Hrows. apply Hrows. eapply nth_error_In; eauto. }
    assert (Hnext : forall i, nth_error matrix (S j + i) = nth_error rest i).
    { intros i. specialize (Hsuf (S i)). simpl in Hsuf.
      rewrite <- Hsuf. f_equal. lia. }
    assert (Hhead :
      for_each (range_upto (Z.of_nat w)) (body (Z.of_nat j)) acc =
      (items <- map_result item_of (ignited_row (Z.of_nat j) 0 row) ;;
       Ok (acc ++ items))).
    { unfold range_upto. rewrite Nat2Z.id, <- Hw.
      apply (grid_loop_row j row Hj row 0 acc). reflexivity. }
    rewrite Hhead, map_result_app.
    replace (Z.of_nat j + 1) with (Z.of_nat (S j)) by lia.
    destruct (map_result item_of (ignited_row (Z.of_nat j) 0 row))
      as [fs1|e]; cbn [bind]; [|reflexivity].
    rewrite (IH (S j) _ Hnext).
    destruct (map_result item_of (ignited_rows (Z.of_nat (S j)) rest))
      as [fs2|e]; cbn [bind]; [|reflexivity].
    rewrite app_assoc. reflexivity.
Qed.

Lemma grid_loop (h w : nat) :
  has_shape h w matrix ->
  for_each (range_upto (Z.of_nat h))
    (fun y => for_each (range_upto (Z.of_nat w)) (body y)) [] =
  map_result item_of (ignited_cells matrix).
Proof.
  intros [Hlen Hrows]. unfold range_upto at 1. rewrite Nat2Z.id, <- Hlen.
  rewrite (grid_loop_rows w Hrows matrix 0 [] (fun i => eq_refl)).
  unfold ignited_cells. cbn [Z.of_nat].
  destruct (map_result item_of (ignited_rows 0 matrix)); reflexivity.
Qed.

End GridLoop.

Section ExportSpec.
Context {F : Type} {ops : PyFloat F}.

Lemma make_feature_key (cos_lat_rad : F) (config : GridConfig F)
    (x y bt max_time : Z) (f : Feature F) :
  GeoJSON.make_feature cos_lat_rad config x y bt max_time = Ok f ->
  (pixel_x (properties f), pixel_y (properties f), burn_time (properties f)) =
  (x, y, bt).
Proof.
  unfold GeoJSON.make_feature. intros H.
  destruct (GeoJSON.time_to_color_rgb bt max_time) as [[[r g] b]|e];
    cbn [bind] in H; [|discriminate].
  destruct (GeoJSON.pixel_to_polygon cos_lat_rad x y config) as [polygon|e];
    cbn [bind] in H; [|discriminate].
  destruct (GeoJSON.normalized_burn_time bt max_time) as [n|e];
    cbn [bind] in H; [|discriminate].
  injection H as <-. reflexivity.
Qed.

Lemma export_features_eq (cos_lat_rad : F) (config : GridConfig F)
    (fm : FireMap) :
  wf_fire_map fm ->
  GeoJSON.export_features cos_lat_rad config fm =
    (max_time <- np_max (_compute_burn_time_matrix fm) ;;
     features <-
       map_result
         (fun c => GeoJSON.make_feature cos_lat_rad config
                     (fst (fst c)) (snd (fst c)) (snd c) max_time)
         (ignited_cells (_compute_burn_time_matrix fm)) ;;
     Ok (max_time, features)).
Proof.
  intros Hwf. assert (Hsh := burn_time_shape fm Hwf).
  unfold GeoJSON.export_features. cbv zeta.
  destruct (np_max (_compute_burn_time_matrix fm)) as [max_time|e];
    cbn [bind]; [|reflexivity].
  rewrite (grid_loop
             (fun x y bt => GeoJSON.make_feature cos_lat_rad config x y bt
                              max_time)
             _ _ _ Hsh).
  reflexivity.
Qed.

Lemma ignited_cells_in (burn_time : Frame2D) (x y v : Z) :
  In (x, y, v) (ignited_cells burn_time) <->
  0 <= y /\ 0 <= x /\
  cell burn_time (Z.to_nat y) (Z.to_nat x) = Some v /\ v >= 0.
Proof.
  unfold ignited_cells. rewrite ignited_rows_in, Z.sub_0_r. tauto.
Qed.

(** The two nested loops of [export_to_geojson] call the feature
    constructor once for every cell with a burn time of at least 0, in
    row-major order, and for no other cell; an error of one call ends the
    export.  Hence the features of a successful export name exactly the
    ignited cells, each once and in row-major order, with their burn times,
    and their number is the number of ignited cells. *)
Theorem export_visits_ignited_cells (cos_lat_rad : F) (config : GridConfig F)
    (fm : FireMap) :
  wf_fire_map fm ->
  GeoJSON.export_features cos_lat_rad config fm =
    (max_time <- np_max (_compute_burn_time_matrix fm) ;;
     features <-
       map_result
         (fun c => GeoJSON.make_feature cos_lat_rad config
                     (fst (fst c)) (snd (fst c)) (snd c) max_time)
         (ignited_cells (_compute_burn_time_matrix fm)) ;;
     Ok (max_time, features)) /\
  StronglySorted row_major (ignited_cells (_compute_burn_time_matrix fm)) /\
  (forall x y v,
     In (x, y, v) (ignited_cells (_compute_burn_time_matrix fm)) <->
     0 <= y /\ 0 <= x /\
     cell (_compute_burn_time_matrix fm) (Z.to_nat y) (Z.to_nat x) = Some v /\
     v >= 0) /\
  (forall max_time features,
     GeoJSON.export_features cos_lat_rad config fm = Ok (max_time, features) ->
     map (fun f => (pixel_x (properties f), pixel_y (properties f),
                    burn_time (properties f))) features =
       ignited_cells (_compute_burn_time_matrix fm) /\
     Z.of_nat (length features) =
       count_ignited (_compute_burn_time_matrix fm)).
Proof.
  intros Hwf.
  assert (Heq := export_features_eq cos_lat_rad config fm Hwf).
  split; [exact Heq|].
  split; [apply ignited_rows_sorted|].
  split.
  { intros x y v. apply ignited_cells_in. }
  intros max_time features Hok. rewrite Heq in Hok.
  destruct (np_max (_compute_burn_time_matrix fm)) as [m|e];
    cbn [bind] in Hok; [|discriminate].
  destruct (map_result _ (ignited_cells (_compute_burn_time_matrix fm)))
    as [fs|e] eqn:Efs; cbn [bind] in Hok; [|discriminate].
  injection Hok as <- <-.
  apply map_result_ok in Efs.
  assert (Hkeys :
    map (fun f => (pixel_x (properties f), pixel_y (properties f),
                   burn_time (properties f))) fs =
    ignited_cells (_compute_burn_time_matrix fm)).
  { clear Heq. induction Efs as [|f [[x y] v] fs cs Hf _ IH]; simpl;
      [reflexivity|].
    rewrite IH. f_equal. apply (make_feature_key _ _ _ _ _ _ _ Hf). }
  split; [exact Hkeys|].
  rewrite <- ignited_cells_length, <- Hkeys, length_map. reflexivity.
Qed.

End ExportSpec.

(* ================================================================== *)
(** ** The frame lists of the map script *)

Section TimelineLoops.
Context {F : Type} {ops : PyFloat F}.
Variable self : Coordinates F.
Variable fm : FireMap.
Hypothesis Hgh : grid_height self = Z.of_nat (fm_height fm).
Hypothesis Hgw : grid_width self = Z.of_nat (fm_width fm).

Let grow (fd : Timeline.MapFrame F) (b1 b2 : list (Z * Z)) : Timeline.MapFrame F :=
  {| Timeline.time := Timeline.time fd;
     Timeline.burning := Timeline.burning fd ++ map (cell_corner self) b1;
     Timeline.burned := Timeline.burned fd ++ map (cell_corner self) b2 |}.

Lemma grow_nil (fd : Timeline.MapFrame F) : grow fd [] [] = fd.
Proof.
  destruct fd. unfold grow. simpl. now rewrite !app_nil_r.
Qed.

Lemma grow_grow (fd : Timeline.MapFrame F) (a1 a2 b1 b2 : list (Z * Z)) :
  grow (grow fd a1 a2) b1 b2 = grow fd (a1 ++ b1) (a2 ++ b2).
Proof.
  unfold grow. simpl. now rewrite !map_app, !app_assoc.
Qed.

Lemma timeline_pixel_step (tn : nat) (frame : Frame2D) (yn k : nat)
    (row : list Z) (s : Z) (fd : Timeline.MapFrame F) :
  nth_error (fm_frames fm) tn = Some frame ->
  nth_error frame yn = Some row -> nth_error row k = Some s ->
  length frame = fm_height fm -> length row = fm_width fm ->
  Timeline.classify_pixel self fm (Z.of_nat tn) (Z.of_nat yn) (Z.of_nat k) fd =
  Ok (grow fd (if s =? 1 then [(Z.of_nat k, Z.of_nat yn)] else [])
              (if s =? 2 then [(Z.of_nat k, Z.of_nat yn)] else [])).
Proof.
  intros Hframe Hrow Hk Hlen Hw.
  assert (Hh0 : grid_height self <> 0).
  { assert (yn < length frame)%nat by (apply nth_error_Some; congruence). lia. }
  assert (Hw0 : grid_width self <> 0).
  { assert (k < length row)%nat by (apply nth_error_Some; congruence). lia. }
  unfold Timeline.classify_pixel, np_getitem2.
  rewrite (np_getitem_nat _ tn frame Hframe). cbn [bind].
  rewrite (np_getitem_nat frame yn row Hrow). cbn [bind].
  rewrite (np_getitem_nat row k s Hk). cbn [bind].
  rewrite (corner_ok self _ _ Hw0 Hh0). cbn [bind].
  destruct (s =? 1) eqn:E1; [|destruct (s =? 2) eqn:E2].
  - apply Z.eqb_eq in E1. subst s. unfold grow. simpl.
    now rewrite app_nil_r.
  - unfold grow. simpl. now rewrite app_nil_r.
  - now rewrite grow_nil.
Qed.

Lemma timeline_row (tn : nat) (frame : Frame2D) (yn : nat) (row : list Z) :
  nth_error (fm_frames fm) tn = Some frame ->
  nth_error frame yn = Some row ->
  length frame = fm_height fm -> length row = fm_width fm ->
  forall suffix k fd,
    (forall i, nth_error row (k + i) = nth_error suffix i) ->
    for_each (map Z.of_nat (seq k (length suffix)))
      (fun x => Timeline.classify_pixel self fm (Z.of_nat tn) (Z.of_nat yn) x)
      fd =
    Ok (grow fd (row_cells 1 (Z.of_nat yn) (Z.of_nat k) suffix)
                (row_cells 2 (Z.of_nat yn) (Z.of_nat k) suffix)).
Proof.
  intros Hframe Hrow Hlen Hw.
  induction suffix as [|s rest IH]; intros k fd Hsuf.
  - simpl. now rewrite grow_nil.
  - assert (Hk : nth_error row k = Some s).
    { specialize (Hsuf 0%nat). rewrite Nat.add_0_r in Hsuf. exact Hsuf. }
    assert (Hnext : forall i, nth_error row (S k + i) = nth_error rest i).
    { intros i. specialize (Hsuf (S i)). simpl in Hsuf.
      rewrite <- Hsuf. f_equal. lia. }
    cbn [length seq map for_each row_cells].
    rewrite (timeline_pixel_step tn frame yn k row s fd Hframe Hrow Hk Hlen Hw).
    cbn [bind].
    replace (Z.of_nat k + 1) with (Z.of_nat (S k)) by lia.
    rewrite (IH (S k) _ Hnext). now rewrite grow_grow.
Qed.

Lemma timeline_rows (tn : nat) (frame : Frame2D) :
  nth_error (fm_frames fm) tn = Some frame ->
  has_shape (fm_height fm) (fm_width fm) frame ->
  forall suffix j fd,
    (forall i, nth_error frame (j + i) = nth_error suffix i) ->
    for_each (map Z.of_nat (seq j (length suffix)))
      (fun y => for_each (range_upto (grid_width self))
                  (fun x => Timeline.classify_pixel self fm (Z.of_nat tn) y x))
      fd =
    Ok (grow fd (frame_cells 1 (Z.of_nat j) suffix)
                (frame_cells 2 (Z.of_nat j) suffix)).
Proof.
  intros Hframe [Hlen Hrows].
  induction suffix as [|row rest IH]; intros j fd Hsuf.
  - simpl. now rewrite grow_nil.
  - cbn [length seq map for_each frame_cells].
    assert (Hj : nth_error frame j = Some row).
    { specialize (Hsuf 0%nat). rewrite Nat.add_0_r in Hsuf. exact Hsuf. }
    assert (Hw : length row = fm_width fm).
    { rewrite Forall_forall in Hrows. apply Hrows. eapply nth_error_In; eauto. }
    assert (Hhead :
      for_each (range_upto (grid_width self))
        (fun x => Timeline.classify_pixel self fm (Z.of_nat tn) (Z.of_nat j) x)
        fd =
      Ok (grow fd (row_cells 1 (Z.of_nat j) 0 row)
                  (row_cells 2 (Z.of_nat j) 0 row))).
    { unfold range_upto. rewrite Hgw, Nat2Z.id, <- Hw.
      apply (timeline_row tn frame j row Hframe Hj Hlen Hw row 0 fd).
      reflexivity. }
    rewrite Hhead. cbn [bind].
    assert (Hnext : forall i, nth_error frame (S j + i) = nth_error rest i).
    { intros i. specialize (Hsuf (S i)). simpl in Hsuf.
      rewrite <- Hsuf. f_equal. lia. }
    replace (Z.of_nat j + 1) with (Z.of_nat (S j)) by lia.
    rewrite (IH (S j) _ Hnext). now rewrite grow_grow.
Qed.

Lemma timeline_frame (tn : nat) (frame : Frame2D) :
  nth_error (fm_frames fm) tn = Some frame ->
  has_shape (fm_height fm) (fm_width fm) frame ->
  for_each (range_upto (grid_height self))
    (fun y => for_each (range_upto (grid_width self))
                (fun x => Timeline.classify_pixel self fm (Z.of_nat tn) y x))
    {| Timeline.time := Z.of_nat tn; Timeline.burning := [];
       Timeline.burned := [] |} =
  Ok (map_frame_of self (Z.of_nat tn) frame).
Proof.
  intros Hframe Hsh. unfold range_upto at 1.
  rewrite Hgh, Nat2Z.id. destruct Hsh as [Hlen Hrows]. rewrite <- Hlen.
  rewrite (timeline_rows tn frame Hframe (conj Hlen Hrows) frame 0 _
             (fun i => eq_refl)).
  reflexivity.
Qed.

Lemma timeline_frames :
  wf_fire_map fm ->
  forall suffix j acc,
    (forall i, nth_error (fm_frames fm) (j + i) = nth_error suffix i) ->
    for_each (map Z.of_nat (seq j (length suffix)))
      (fun t frames =>
         frame_data <-
           for_each (range_upto (grid_height self))
             (fun y => for_each (range_upto (grid_width self))
                         (fun x => Timeline.classify_pixel self fm t y x))
             {| Timeline.time := t; Timeline.burning := [];
                Timeline.burned := [] |} ;;
         Ok (frames ++ [frame_data]))
      acc =
    Ok (acc ++ map (fun tf => map_frame_of self (fst tf) (snd tf))
                 (combine (map Z.of_nat (seq j (length suffix))) suffix)).
Proof.
  intros Hwf. induction suffix as [|frame rest IH]; intros j acc Hsuf.
  - simpl. now rewrite app_nil_r.
  - cbn [length seq map for_each combine].
    assert (Hj : nth_error (fm_frames fm) j = Some frame).
    { specialize (Hsuf 0%nat). rewrite Nat.add_0_r in Hsuf. exact Hsuf. }
    assert (Hsh : has_shape (fm_height fm) (fm_width fm) frame).
    { unfold wf_fire_map in Hwf. rewrite Forall_forall in Hwf.
      apply Hwf. eapply nth_error_In; eauto. }
    rewrite (timeline_frame j frame Hj Hsh). cbn [bind].
    assert (Hnext : forall i,
              nth_error (fm_frames fm) (S j + i) = nth_error rest i).
    { intros i. specialize (Hsuf (S i)). simpl in Hsuf.
      rewrite <- Hsuf. f_equal. lia. }
    rewrite (IH (S j) _ Hnext). rewrite <- app_assoc. reflexivity.
Qed.

End TimelineLoops.

Lemma map_fst_combine {A B : Type} (l : list A) (l' : list B) :
  length l = length l' -> map fst (combine l l') = l.
Proof.
  revert l'. induction l as [|a l IH]; intros [|b l'] H; simpl in *;
    try reflexivity; try discriminate.
  f_equal. apply IH. lia.
Qed.

Lemma Forall2_map_combine {A B C : Type} (R : C -> B -> Prop) (g : A -> B -> C)
    (l : list A) (l' : list B) :
  length l = length l' ->
  (forall a b, In b l' -> R (g a b) b) ->
  Forall2 R (map (fun ab => g (fst ab) (snd ab)) (combine l l')) l'.
Proof.
  revert l'. induction l as [|a l IH]; intros [|b l'] Hl H; simpl in *;
    try constructor; try discriminate.
  - apply H. now left.
  - apply IH; [lia|]. intros a' b' Hb. apply H. now right.
Qed.

Section TimelineSpec.
Context {F : Type} {ops : PyFloat F}.

Lemma corner_points (self : Coordinates F) (h w : nat) (v : Z) (frame : Frame2D) :
  grid_height self = Z.of_nat h -> grid_width self = Z.of_nat w ->
  has_shape h w frame ->
  Forall2 (fun p xy => Visualizer.pixel_to_latlon self (fst xy) (snd xy) = Ok p)
    (map (cell_corner self) (cells_with_state v frame))
    (cells_with_state v frame).
Proof.
  intros Hgh Hgw Hsh.
  destruct (Nat.eq_dec h 0) as [Hh0|Hh0];
    [|destruct (Nat.eq_dec w 0) as [Hw0|Hw0]].
  - unfold cells_with_state.
    rewrite (cells_empty_grid _ _ v 0 frame Hsh (or_introl Hh0)). constructor.
  - unfold cells_with_state.
    rewrite (cells_empty_grid _ _ v 0 frame Hsh (or_intror Hw0)). constructor.
  - apply (Forall2_map_ok
             (fun xy => Visualizer.pixel_to_latlon self (fst xy) (snd xy))
             (cell_corner self)).
    intros [x y]. apply corner_ok; lia.
Qed.

(** [create_animation_data] on a grid that is the array's never fails, an
    empty grid or an array without frames included: the divisions of the
    projection are reached only inside the loops over the grid.  It returns
    one entry per frame, in order, with [time] the index of the frame,
    [burning] the projected north-west corners of its cells in state 1 and
    [burned] those of its cells in state 2, both in row-major order;
    [total_frames] is the number of frames. *)
Theorem create_animation_data_spec (self : Coordinates F) (fm : FireMap) :
  wf_fire_map fm -> grid_matches self fm ->
  exists d,
    Timeline.create_animation_data self fm = Ok d /\
    Timeline.total_frames d = shape0 fm /\
    map Timeline.time (Timeline.frames d) = range_upto (shape0 fm) /\
    Forall2
      (fun f frame =>
         Forall2
           (fun p xy => Visualizer.pixel_to_latlon self (fst xy) (snd xy) = Ok p)
           (Timeline.burning f) (cells_with_state 1 frame) /\
         Forall2
           (fun p xy => Visualizer.pixel_to_latlon self (fst xy) (snd xy) = Ok p)
           (Timeline.burned f) (cells_with_state 2 frame))
      (Timeline.frames d) (fm_frames fm).
Proof.
  intros Hwf [Hgh Hgw].
  unfold Timeline.create_animation_data, range_upto at 1, shape0.
  rewrite Nat2Z.id.
  rewrite (timeline_frames self fm Hgh Hgw Hwf (fm_frames fm) 0 []
             (fun i => eq_refl)).
  cbn [bind app]. eexists. split; [reflexivity|].
  cbn [Timeline.total_frames Timeline.frames].
  assert (Hlen : length (combine (map Z.of_nat (seq 0 (length (fm_frames fm))))
                           (fm_frames fm)) = length (fm_frames fm)).
  { rewrite length_combine, length_map, length_seq. lia. }
  split; [rewrite length_map, Hlen; reflexivity|].
  split.
  - rewrite map_map. cbn [map_frame_of Timeline.time].
    unfold range_upto. rewrite Nat2Z.id.
    apply map_fst_combine. rewrite length_map, length_seq. reflexivity.
  - apply Forall2_map_combine;
      [rewrite length_map, length_seq; reflexivity|].
    intros t frame Hin. cbn [map_frame_of Timeline.burning Timeline.burned].
    assert (Hsh : has_shape (fm_height fm) (fm_width fm) frame).
    { unfold wf_fire_map in Hwf. rewrite Forall_forall in Hwf.
      apply Hwf. exact Hin. }
    split; apply (corner_points self _ _ _ frame Hgh Hgw Hsh).
Qed.

End TimelineSpec.

Lemma py_range_unit (stop : Z) : py_range 0 stop 1 = Ok (range_upto stop).
Proof.
  unfold py_range, range_upto. cbn [Z.eqb Z.ltb Z.compare].
  destruct (0 <? stop) eqn:E.
  - apply Z.ltb_lt in E. rewrite Z.div_1_r.
    replace (stop - 0 - 1 + 1) with stop by lia.
    f_equal. apply map_ext. intros i. lia.
  - apply Z.ltb_ge in E.
    replace (Z.to_nat stop) with 0%nat by lia. reflexivity.
Qed.

Lemma combine_seq_nth {A : Type} (d : A) (l : list A) (j : nat) :
  combine (map Z.of_nat (seq j (length l))) l =
  map (fun i => (Z.of_nat i, nth (i - j) l d)) (seq j (length l)).
Proof.
  revert j. induction l as [|a l IH]; intros j; simpl; [reflexivity|].
  rewrite Nat.sub_diag. f_equal. rewrite IH.
  apply map_ext_in. intros i Hi. apply in_seq in Hi.
  replace (i - j)%nat with (S (i - S j)) by lia. reflexivity.
Qed.

Lemma Forall2_map_same {A B C : Type} (R : B -> C -> Prop) (f : A -> B)
    (g : A -> C) (l : list A) :
  (forall a, In a l -> R (f a) (g a)) -> Forall2 R (map f l) (map g l).
Proof.
  induction l as [|a l IH]; intros H; simpl; constructor.
  - apply H. now left.
  - apply IH. intros; apply H. now right.
Qed.

Section TwoTimelines.
Context {F : Type} {ops : PyFloat F}.

(** The map script and the animation script walk the same array.  Sampled
    at rate 1, the animation's frames and the frames of
    [create_animation_data] pair up one to one: same [time], as many
    [burning] points, and the animation's [burning_count] and
    [burned_count] are the lengths of the map script's [burning] and
    [burned] lists. *)
Theorem sampler_agrees_with_timeline (self : Coordinates F) (fm : FireMap) :
  wf_fire_map fm -> grid_matches self fm ->
  exists frames d,
    Animation.prepare_animation_frames self fm 1 = Ok frames /\
    Timeline.create_animation_data self fm = Ok d /\
    Forall2
      (fun a b =>
         time a = Timeline.time b /\
         length (burning a) = length (Timeline.burning b) /\
         burning_count a = Z.of_nat (length (Timeline.burning b)) /\
         burned_count a = Z.of_nat (length (Timeline.burned b)))
      frames (Timeline.frames d).
Proof.
  intros Hwf [Hgh Hgw].
  assert (Hbounds :
    Forall (fun t => 0 <= t < Z.of_nat (length (fm_frames fm)))
      (range_upto (shape0 fm))).
  { apply Forall_forall. intros t Ht. unfold range_upto, shape0 in Ht.
    rewrite Nat2Z.id in Ht. apply in_map_iff in Ht.
    destruct Ht as (i & <- & Hi). apply in_seq in Hi. lia. }
  unfold Animation.prepare_animation_frames. rewrite py_range_unit.
  cbn [bind].
  rewrite (sample_loop self (fm_height fm) (fm_width fm) Hgh Hgw
             (fm_frames fm) _ Hwf Hbounds []).
  unfold Timeline.create_animation_data, range_upto at 2, shape0.
  rewrite Nat2Z.id.
  rewrite (timeline_frames self fm Hgh Hgw Hwf (fm_frames fm) 0 []
             (fun i => eq_refl)).
  cbn [bind app]. do 2 eexists. split; [reflexivity|]. split; [reflexivity|].
  cbn [Timeline.frames].
  rewrite (combine_seq_nth ([] : Frame2D) (fm_frames fm) 0%nat).
  unfold range_upto, shape0. rewrite Nat2Z.id, !map_map.
  apply Forall2_map_same. intros i Hi.
  cbn [fst snd frame_data_of map_frame_of time burning burning_count
       burned_count Timeline.time Timeline.burning Timeline.burned].
  rewrite Nat2Z.id, Nat.sub_0_r, !length_map.
  unfold cells_with_state. rewrite !frame_cells_length.
  repeat split; reflexivity.
Qed.

End TwoTimelines.

(* ================================================================== *)
(** ** The payload of the animation *)

Lemma broadcast_size_same (n : nat) : broadcast_size n n = Ok n.
Proof.
  unfold broadcast_size. now rewrite Nat.eqb_refl.
Qed.

Lemma broadcast_axis_same {A : Type} (l : list A) :
  broadcast_axis (length l) l = l.
Proof.
  destruct l as [|a [|b l]]; reflexivity.
Qed.

Lemma broadcast_to_same {A : Type} (h w : nat) (m : list (list A)) :
  length m = h -> Forall (fun row => length row = w) m ->
  broadcast_to h w {| rows := h; cols := w; data := m |} = m.
Proof.
  intros Hlen Hrows. unfold broadcast_to. cbn [data].
  rewrite <- Hlen, broadcast_axis_same.
  clear Hlen. induction Hrows as [|row rest Hrow _ IH]; simpl; [reflexivity|].
  rewrite IH, <- Hrow, broadcast_axis_same. reflexivity.
Qed.

Lemma mark_cell_wide_small (t s b : Z) :
  0 <= t < 2 ^ 31 -> mark_cell_wide t s b = mark_cell t s b.
Proof.
  intros Ht. unfold mark_cell_wide, mark_cell.
  rewrite (to_int32_small t Ht). reflexivity.
Qed.

Lemma mask_row_fuse (t : Z) (l1 l2 : list Z) :
  map2 (fun (m : bool) (s : Z) => if m then t else s)
    (map2 andb (map (fun s => s >=? 1) l1) (map (fun s => s =? -1) l2)) l2 =
  map2 (mark_cell_wide t) l1 l2.
Proof.
  revert l2. induction l1 as [|a l1 IH]; intros [|b l2]; simpl;
    try reflexivity.
  rewrite IH. reflexivity.
Qed.

Lemma mask_fuse (t : Z) (m1 m2 : Frame2D) :
  map2 (map2 (fun (m : bool) (s : Z) => if m then t else s))
    (map2 (map2 andb) (map (map (fun s => s >=? 1)) m1)
                      (map (map (fun s => s =? -1)) m2)) m2 =
  map2 (map2 (mark_cell_wide t)) m1 m2.
Proof.
  revert m2. induction m1 as [|r1 m1 IH]; intros [|r2 m2]; simpl;
    try reflexivity.
  rewrite IH, mask_row_fuse. reflexivity.
Qed.

Lemma map_shape {A B : Type} (f : A -> B) (h w : nat) (m : list (list A)) :
  length m = h -> Forall (fun row => length row = w) m ->
  length (map (map f) m) = h /\
  Forall (fun row => length row = w) (map (map f) m).
Proof.
  intros Hlen Hrows. split; [now rewrite length_map|].
  apply Forall_map. eapply Forall_impl; [|exact Hrows].
  intros row Hrow. simpl. now rewrite length_map.
Qed.

(** One pass of the animation's loop on a frame and a matrix of one shape. *)
Lemma payload_step (t : Z) (h w : nat) (frame bt : Frame2D) :
  has_shape h w frame -> has_shape h w bt ->
  (newly_burning <-
     np_and (np_ge {| rows := h; cols := w; data := frame |} 1)
            (np_eq {| rows := h; cols := w; data := bt |} (-1)) ;;
   np_setitem_mask {| rows := h; cols := w; data := bt |} newly_burning t) =
  Ok {| rows := h; cols := w; data := map2 (map2 (mark_cell_wide t)) frame bt |}.
Proof.
  intros [Hl1 Hr1] [Hl2 Hr2].
  unfold np_and, np_ge, np_eq. cbn [rows cols data].
  rewrite !broadcast_size_same. cbn [bind].
  destruct (map_shape (fun s => s >=? 1) h w frame Hl1 Hr1) as [Hl1' Hr1'].
  destruct (map_shape (fun s => s =? -1) h w bt Hl2 Hr2) as [Hl2' Hr2'].
  rewrite (broadcast_to_same h w _ Hl1' Hr1').
  rewrite (broadcast_to_same h w _ Hl2' Hr2').
  unfold np_setitem_mask. cbn [rows cols data].
  rewrite !Nat.eqb_refl. cbn [andb].
  rewrite mask_fuse. reflexivity.
Qed.

Lemma map2_ext_in {A B C : Type} (f g : A -> B -> C) (l : list A) (l' : list B) :
  (forall a b, In a l -> In b l' -> f a b = g a b) ->
  map2 f l l' = map2 g l l'.
Proof.
  revert l'. induction l as [|a l IH]; intros [|b l'] H; simpl;
    try reflexivity.
  rewrite (H a b) by (now left). f_equal.
  apply IH. intros; apply H; now right.
Qed.

Lemma burn_loop_wide_eq (frames : list Frame2D) :
  forall t bt, 0 <= t -> t + Z.of_nat (length frames) <= 2 ^ 31 ->
    burn_loop_wide t frames bt = burn_loop t frames bt.
Proof.
  induction frames as [|frame rest IH]; intros t bt Ht HT; simpl;
    [reflexivity|].
  simpl length in HT. rewrite IH by lia. f_equal.
  unfold mark_newly_burning. apply map2_ext_in. intros r1 r2 _ _.
  apply map2_ext_in. intros s b _ _. apply mark_cell_wide_small. lia.
Qed.

Lemma has_shape_mark_wide {h w : nat} (t : Z) {frame bt : Frame2D} :
  has_shape h w frame -> has_shape h w bt ->
  has_shape h w (map2 (map2 (mark_cell_wide t)) frame bt).
Proof.
  intros [Hl1 Hr1] [Hl2 Hr2]. split.
  - rewrite map2_length; lia.
  - clear Hl1 Hl2. revert bt Hr2.
    induction frame as [|r1 frame IH]; intros [|r2 bt] Hr2; simpl; try constructor.
    + inversion Hr1; inversion Hr2; subst. rewrite map2_length; lia.
    + inversion Hr1; inversion Hr2; subst. apply IH; assumption.
Qed.

Lemma burn_loop_wide_shape {h w : nat} {frames : list Frame2D} :
  Forall (has_shape h w) frames ->
  forall t bt, has_shape h w bt -> has_shape h w (burn_loop_wide t frames bt).
Proof.
  induction 1 as [|frame rest Hf _ IH]; intros t bt Hbt; simpl; [assumption|].
  apply IH. apply has_shape_mark_wide; assumption.
Qed.

Section PayloadLoops.
Context {F : Type} {ops : PyFloat F}.
Variable self : Coordinates F.
Variable fm : FireMap.
Hypothesis Hgh : grid_height self = Z.of_nat (fm_height fm).
Hypothesis Hgw : grid_width self = Z.of_nat (fm_width fm).

Lemma payload_matrix_loop :
  wf_fire_map fm ->
  forall suffix j bt,
    (forall i, nth_error (fm_frames fm) (j + i) = nth_error suffix i) ->
    has_shape (fm_height fm) (fm_width fm) bt ->
    for_each (map Z.of_nat (seq j (length suffix)))
      (fun t burn_time_matrix =>
         frame <- np_getitem (fm_frames fm) t ;;
         newly_burning <-
           np_and (np_ge {| rows := fm_height fm; cols := fm_width fm;
                            data := frame |} 1)
                  (np_eq burn_time_matrix (-1)) ;;
         np_setitem_mask burn_time_matrix newly_burning t)
      {| rows := fm_height fm; cols := fm_width fm; data := bt |} =
    Ok {| rows := fm_height fm; cols := fm_width fm;
          data := burn_loop_wide (Z.of_nat j) suffix bt |}.
Proof.
  intros Hwf. induction suffix as [|frame rest IH]; intros j bt Hsuf Hbt.
  - reflexivity.
  - cbn [length seq map for_each burn_loop_wide].
    assert (Hj : nth_error (fm_frames fm) j = Some frame).
    { specialize (Hsuf 0%nat). rewrite Nat.add_0_r in Hsuf. exact Hsuf. }
    assert (Hsh : has_shape (fm_height fm) (fm_width fm) frame).
    { unfold wf_fire_map in Hwf. rewrite Forall_forall in Hwf.
      apply Hwf. eapply nth_error_In; eauto. }
    rewrite (np_getitem_nat _ j frame Hj). cbn [bind].
    rewrite (payload_step (Z.of_nat j) _ _ frame bt Hsh Hbt). cbn [bind].
    assert (Hnext : forall i,
              nth_error (fm_frames fm) (S j + i) = nth_error rest i).
    { intros i. specialize (Hsuf (S i)). simpl in Hsuf.
      rewrite <- Hsuf. f_equal. lia. }
    replace (Z.of_nat j + 1) with (Z.of_nat (S j)) by lia.
    apply (IH (S j) _ Hnext). apply has_shape_mark_wide; assumption.
Qed.

Lemma payload_matrix :
  wf_fire_map fm -> shape0 fm <= 2 ^ 31 ->
  Payload.burn_time_matrix self fm =
  Ok {| rows := fm_height fm; cols := fm_width fm;
        data := _compute_burn_time_matrix fm |}.
Proof.
  intros Hwf HT. unfold Payload.burn_time_matrix, np_full_shape.
  assert (E1 : (grid_height self <? 0) = false) by (apply Z.ltb_ge; lia).
  assert (E2 : (grid_width self <? 0) = false) by (apply Z.ltb_ge; lia).
  rewrite E1, E2. cbn [orb bind]. rewrite Hgh, Hgw, !Nat2Z.id.
  unfold range_upto, shape0. rewrite Nat2Z.id.
  rewrite (payload_matrix_loop Hwf (fm_frames fm) 0 _ (fun i => eq_refl)
             (has_shape_np_full _ _ (-1))).
  unfold _compute_burn_time_matrix.
  rewrite burn_loop_wide_eq; [reflexivity|lia|exact HT].
Qed.

Let body (bt : Frame2D) (y x : Z) (acc : list (Payload.BurnedPixel F))
  : Result (list (Payload.BurnedPixel F)) :=
  v <- np_getitem2 bt y x ;;
  if v >=? 0 then
    '(lat, lon) <- Animation.pixel_to_latlon self x y ;;
    Ok (acc ++ [{| Payload.lat := lat; Payload.lon := lon; Payload.time := v |}])
  else Ok acc.

Lemma payload_row (bt : Frame2D) (yn : nat) (row : list Z) :
  nth_error bt yn = Some row ->
  length bt = fm_height fm -> length row = fm_width fm ->
  forall suffix k acc,
    (forall i, nth_error row (k + i) = nth_error suffix i) ->
    for_each (map Z.of_nat (seq k (length suffix))) (body bt (Z.of_nat yn)) acc =
    Ok (acc ++ map (burned_pixel_of self)
                 (ignited_row (Z.of_nat yn) (Z.of_nat k) suffix)).
Proof.
  intros Hrow Hlen Hw.
  induction suffix as [|s rest IH]; intros k acc Hsuf.
  - simpl. now rewrite app_nil_r.
  - assert (Hk : nth_error row k = Some s).
    { specialize (Hsuf 0%nat). rewrite Nat.add_0_r in Hsuf. exact Hsuf. }
    assert (Hnext : forall i, nth_error row (S k + i) = nth_error rest i).
    { intros i. specialize (Hsuf (S i)). simpl in Hsuf.
      rewrite <- Hsuf. f_equal. lia. }
    assert (Hh0 : grid_height self <> 0).
    { assert (yn < length bt)%nat by (apply nth_error_Some; congruence). lia. }
    assert (Hw0 : grid_width self <> 0).
    { assert (k < length row)%nat by (apply nth_error_Some; congruence). lia. }
    cbn [length seq map for_each ignited_row].
    assert (Hbody : body bt (Z.of_nat yn) (Z.of_nat k) acc =
              Ok (acc ++ map (burned_pixel_of self)
                           (if s >=? 0 then [(Z.of_nat k, Z.of_nat yn, s)]
                            else []))).
    { unfold body, np_getitem2.
      rewrite (np_getitem_nat bt yn row Hrow). cbn [bind].
      rewrite (np_getitem_nat row k s Hk). cbn [bind].
      destruct (s >=? 0).
      - rewrite (pixel_center_ok self _ _ Hw0 Hh0). reflexivity.
      - simpl. now rewrite app_nil_r. }
    rewrite Hbody. cbn [bind].
    replace (Z.of_nat k + 1) with (Z.of_nat (S k)) by lia.
    rewrite (IH (S k) _ Hnext). rewrite map_app, app_assoc. reflexivity.
Qed.

Lemma payload_rows (bt : Frame2D) :
  has_shape (fm_height fm) (fm_width fm) bt ->
  forall suffix j acc,
    (forall i, nth_error bt (j + i) = nth_error suffix i) ->
    for_each (map Z.of_nat (seq j (length suffix)))
      (fun y => for_each (range_upto (grid_width self)) (body bt y)) acc =
    Ok (acc ++ map (burned_pixel_of self) (ignited_rows (Z.of_nat j) suffix)).
Proof.
  intros [Hlen Hrows].
  induction suffix as [|row rest IH]; intros j acc Hsuf.
  - simpl. now rewrite app_nil_r.
  - cbn [length seq map for_each ignited_rows].
    assert (Hj : nth_error bt j = Some row).
    { specialize (Hsuf 0%nat). rewrite Nat.add_0_r in Hsuf. exact Hsuf. }
    assert (Hw : length row = fm_width fm).
    { rewrite Forall_forall in Hrows. apply Hrows. eapply nth_error_In; eauto. }
    assert (Hhead :
      for_each (range_upto (grid_width self)) (body bt (Z.of_nat j)) acc =
      Ok (acc ++ map (burned_pixel_of self) (ignited_row (Z.of_nat j) 0 row))).
    { unfold range_upto. rewrite Hgw, Nat2Z.id, <- Hw.
      apply (payload_row bt j row Hj Hlen Hw row 0 acc). reflexivity. }
    rewrite Hhead. cbn [bind].
    assert (Hnext : forall i, nth_error bt (S j + i) = nth_error rest i).
    { intros i. specialize (Hsuf (S i)). simpl in Hsuf.
      rewrite <- Hsuf. f_equal. lia. }
    replace (Z.of_nat j + 1) with (Z.of_nat (S j)) by lia.
    rewrite (IH (S j) _ Hnext). rewrite map_app, app_assoc. reflexivity.
Qed.

Lemma payload_pixels (bt : Frame2D) :
  has_shape (fm_height fm) (fm_width fm) bt ->
  Payload.burned_pixels_with_time self
    {| rows := fm_height fm; cols := fm_width fm; data := bt |} =
  Ok (map (burned_pixel_of self) (ignited_cells bt)).
Proof.
  intros Hsh. unfold Payload.burned_pixels_with_time, range_upto at 1.
  cbn [data]. rewrite Hgh, Nat2Z.id.
  destruct Hsh as [Hlen Hrows]. rewrite <- Hlen.
  apply (payload_rows bt (conj Hlen Hrows) bt 0 [] (fun i => eq_refl)).
Qed.

End PayloadLoops.

Lemma for_each_ok_all {A S : Type} (body : A -> S -> Result S) (l : list A) :
  forall s s', for_each l body s = Ok s' ->
    forall a, In a l -> exists s1 s2, body a s1 = Ok s2.
Proof.
  induction l as [|a0 l IH]; intros s s' H a Hin; [destruct Hin|].
  simpl in H. destruct (body a0 s) as [s0|e] eqn:E; [|discriminate].
  cbn [bind] in H. destruct Hin as [<-|Hin]; [eauto|].
  eapply IH; eauto.
Qed.

Lemma for_each_ok_head {A S : Type} (body : A -> S -> Result S) (a : A)
    (l : list A) (s s' : S) :
  for_each (a :: l) body s = Ok s' -> exists s1, body a s = Ok s1.
Proof.
  simpl. destruct (body a s) as [s1|e]; [eauto|discriminate].
Qed.

Lemma np_getitem_ok_bound {A : Type} (a : list A) (i : Z) (v : A) :
  np_getitem a i = Ok v -> 0 <= i -> i < Z.of_nat (length a).
Proof.
  unfold np_getitem. cbv zeta. intros H Hi.
  assert (E : (i <? 0) = false) by (apply Z.ltb_ge; lia).
  rewrite E in H.
  destruct (Z.of_nat (length a) <=? i) eqn:E2.
  - rewrite orb_true_r in H. discriminate.
  - apply Z.leb_gt in E2. exact E2.
Qed.

Lemma range_upto_last (n : Z) : 1 <= n -> In (n - 1) (range_upto n).
Proof.
  intros Hn. unfold range_upto. apply in_map_iff.
  exists (Z.to_nat (n - 1)). split; [lia|]. apply in_seq. lia.
Qed.

Lemma range_upto_head (n : Z) :
  1 <= n -> exists rest, range_upto n = 0 :: rest.
Proof.
  intros Hn. unfold range_upto.
  destruct (Z.to_nat n) as [|k] eqn:E; [lia|]. simpl. eauto.
Qed.

Lemma py_range_head (stop step : Z) :
  1 <= stop -> 1 <= step -> exists rest, py_range 0 stop step = Ok (0 :: rest).
Proof.
  intros Hstop Hstep. unfold py_range.
  assert (E0 : (step =? 0) = false) by (apply Z.eqb_neq; lia).
  assert (E1 : (0 <? step) = true) by (apply Z.ltb_lt; lia).
  assert (E2 : (0 <? stop) = true) by (apply Z.ltb_lt; lia).
  rewrite E0, E1, E2.
  assert (Hq : 0 <= (stop - 0 - 1) / step) by (apply Z.div_pos; lia).
  destruct (Z.to_nat ((stop - 0 - 1) / step + 1)) as [|k] eqn:E; [lia|].
  simpl. eauto.
Qed.

Lemma broadcast_size_keeps (a g : nat) :
  broadcast_size a g = Ok g -> a = g \/ a = 1%nat.
Proof.
  unfold broadcast_size.
  destruct (a =? g)%nat eqn:E1; [apply Nat.eqb_eq in E1; auto|].
  destruct (a =? 1)%nat eqn:E2; [apply Nat.eqb_eq in E2; auto|].
  destruct (g =? 1)%nat; [|discriminate].
  intros H. injection H as ->. apply Nat.eqb_neq in E1. contradiction.
Qed.

Section PayloadSpec.
Context {F : Type} {ops : PyFloat F}.

Lemma sampler_succeeds (self : Coordinates F) (fm : FireMap) (sample_rate : Z) :
  wf_fire_map fm -> grid_matches self fm -> 1 <= sample_rate ->
  exists frames,
    Animation.prepare_animation_frames self fm sample_rate = Ok frames.
Proof.
  intros Hwf [Hgh Hgw] Hs.
  destruct (py_range_positive (shape0 fm) sample_rate Hs)
    as (ts & Hrange & _ & Hin).
  assert (Hbounds : Forall (fun t => 0 <= t < Z.of_nat (length (fm_frames fm))) ts).
  { apply Forall_forall. intros t Ht. apply Hin in Ht. exact (proj1 Ht). }
  unfold Animation.prepare_animation_frames. rewrite Hrange. cbn [bind].
  rewrite (sample_loop self (fm_height fm) (fm_width fm) Hgh Hgw
             (fm_frames fm) ts Hwf Hbounds []).
  eauto.
Qed.

(** The frame loop reads the cell in the last row and the last column of
    the configured grid. *)
Lemma sampler_reads_last_cell (self : Coordinates F) (fm : FireMap)
    (sample_rate : Z) (frames : list (FrameData F)) :
  wf_fire_map fm -> fm_frames fm <> [] -> 1 <= sample_rate ->
  1 <= grid_height self -> 1 <= grid_width self ->
  Animation.prepare_animation_frames self fm sample_rate = Ok frames ->
  grid_height self <= Z.of_nat (fm_height fm) /\
  grid_width self <= Z.of_nat (fm_width fm).
Proof.
  intros Hwf Hne Hs Hgh Hgw Hok.
  destruct (fm_frames fm) as [|frame0 rest] eqn:Efr; [congruence|].
  assert (Hsh : has_shape (fm_height fm) (fm_width fm) frame0).
  { unfold wf_fire_map in Hwf. rewrite Efr in Hwf. now inversion Hwf. }
  unfold Animation.prepare_animation_frames in Hok.
  destruct (py_range_head (shape0 fm) sample_rate) as [ts Hts];
    [unfold shape0; rewrite Efr; simpl; lia|exact Hs|].
  rewrite Hts in Hok. cbn [bind] in Hok.
  apply for_each_ok_head in Hok. destruct Hok as [s1 Hok].
  rewrite Efr in Hok. change (np_getitem (frame0 :: rest) 0) with (Ok frame0) in Hok.
  cbn [bind] in Hok.
  destruct (Animation.classify_frame self frame0) as [[b1 b2]|e] eqn:Ecf;
    [|discriminate].
  unfold Animation.classify_frame in Ecf.
  destruct (for_each_ok_all _ _ _ _ Ecf _ (range_upto_last _ Hgh))
    as (s2 & s3 & Hrow).
  destruct (for_each_ok_all _ _ _ _ Hrow _ (range_upto_last _ Hgw))
    as ([c1 c2] & s5 & Hpix).
  unfold Animation.classify_pixel, np_getitem2 in Hpix.
  destruct (np_getitem frame0 (grid_height self - 1)) as [row|e] eqn:Ey;
    [|discriminate].
  cbn [bind] in Hpix.
  destruct (np_getitem row (grid_width self - 1)) as [s|e] eqn:Ex;
    [|discriminate].
  assert (Hy := np_getitem_ok_bound _ _ _ Ey ltac:(lia)).
  assert (Hx := np_getitem_ok_bound _ _ _ Ex ltac:(lia)).
  destruct Hsh as [Hlen Hrows].
  assert (Hw : length row = fm_width fm).
  { rewrite Forall_forall in Hrows. apply Hrows.
    unfold np_getitem in Ey. cbv zeta in Ey.
    destruct (grid_height self - 1 <? 0); [|].
    - destruct ((_ <? 0) || _); [discriminate|].
      destruct (nth_error frame0 _) eqn:En; [|discriminate].
      injection Ey as <-. eapply nth_error_In; eauto.
    - destruct ((_ <? 0) || _); [discriminate|].
      destruct (nth_error frame0 _) eqn:En; [|discriminate].
      injection Ey as <-. eapply nth_error_In; eauto. }
  lia.
Qed.

(** The first pass of the cumulative loop fixes the shape of the frames. *)
Lemma payload_matrix_fixes_shape (self : Coordinates F) (fm : FireMap)
    (m : Matrix Z) :
  fm_frames fm <> [] ->
  Payload.burn_time_matrix self fm = Ok m ->
  0 <= grid_height self /\ 0 <= grid_width self /\
  (fm_height fm = Z.to_nat (grid_height self) \/ fm_height fm = 1%nat) /\
  (fm_width fm = Z.to_nat (grid_width self) \/ fm_width fm = 1%nat).
Proof.
  intros Hne Hok. unfold Payload.burn_time_matrix, np_full_shape in Hok.
  destruct ((grid_height self <? 0) || (grid_width self <? 0)) eqn:Eneg;
    [discriminate|].
  apply orb_false_iff in Eneg. destruct Eneg as [E1 E2].
  apply Z.ltb_ge in E1. apply Z.ltb_ge in E2.
  cbn [bind] in Hok.
  destruct (fm_frames fm) as [|frame0 rest] eqn:Efr; [congruence|].
  destruct (range_upto_head (shape0 fm)) as [ts Hts];
    [unfold shape0; rewrite Efr; simpl; lia|].
  rewrite Hts in Hok. apply for_each_ok_head in Hok. destruct Hok as [m1 Hok].
  change (np_getitem (frame0 :: rest) 0) with (Ok frame0) in Hok.
  cbn [bind] in Hok. unfold np_and, np_ge, np_eq in Hok.
  cbn [rows cols data] in Hok.
  destruct (broadcast_size (fm_height fm) (Z.to_nat (grid_height self)))
    as [h|e] eqn:Eh; [|discriminate].
  cbn [bind] in Hok.
  destruct (broadcast_size (fm_width fm) (Z.to_nat (grid_width self)))
    as [w|e] eqn:Ew; [|discriminate].
  cbn [bind] in Hok. unfold np_setitem_mask in Hok. cbn [rows cols] in Hok.
  destruct ((h =? Z.to_nat (grid_height self))%nat &&
            (w =? Z.to_nat (grid_width self))%nat) eqn:Esh; [|discriminate].
  apply andb_true_iff in Esh. destruct Esh as [Eh' Ew'].
  apply Nat.eqb_eq in Eh'. apply Nat.eqb_eq in Ew'. subst h w.
  repeat split; auto using broadcast_size_keeps.
Qed.

(** [prepare_animation_data] on an array with at least one frame, for a
    sample rate of at least 1: it returns a payload exactly when the grid
    of the configuration is the grid of the array and has a cell.  A
    configured grid that is larger, smaller or empty never yields a
    payload. *)
Theorem payload_requires_matching_grid (self : Coordinates F) (fm : FireMap)
    (sample_rate : Z) :
  wf_fire_map fm -> fm_frames fm <> [] -> 1 <= sample_rate ->
  ((exists d, Payload.prepare_animation_data self fm sample_rate = Ok d) <->
   (grid_matches self fm /\ (0 < fm_height fm)%nat /\ (0 < fm_width fm)%nat)).
Proof.
  intros Hwf Hne Hs. split.
  - intros [d Hok]. unfold Payload.prepare_animation_data in Hok.
    cbv zeta in Hok.
    destruct (Animation.prepare_animation_frames self fm sample_rate)
      as [frames|e] eqn:Ea; [|discriminate].
    cbn [bind] in Hok.
    destruct (Payload.burn_time_matrix self fm) as [m|e] eqn:Eb; [|discriminate].
    cbn [bind] in Hok.
    destruct (Payload.burned_pixels_with_time self m) as [ps|e]; [|discriminate].
    cbn [bind] in Hok.
    unfold py_fdiv_int in Hok.
    destruct (grid_height self =? 0) eqn:Eh0; [discriminate|].
    cbn [bind] in Hok.
    destruct (grid_width self =? 0) eqn:Ew0; [discriminate|].
    apply Z.eqb_neq in Eh0. apply Z.eqb_neq in Ew0.
    destruct (payload_matrix_fixes_shape self fm m Hne Eb)
      as (Hh & Hw & Hhs & Hws).
    destruct (sampler_reads_last_cell self fm sample_rate frames Hwf Hne Hs
                ltac:(lia) ltac:(lia) Ea) as [Hle1 Hle2].
    unfold grid_matches. lia.
  - intros ([Hgh Hgw] & Hh & Hw).
    destruct (sampler_succeeds self fm sample_rate Hwf (conj Hgh Hgw) Hs)
      as [frames Ea].
    unfold Payload.prepare_animation_data. cbv zeta. rewrite Ea. cbn [bind].
    unfold Payload.burn_time_matrix, np_full_shape.
    assert (E1 : (grid_height self <? 0) = false) by (apply Z.ltb_ge; lia).
    assert (E2 : (grid_width self <? 0) = false) by (apply Z.ltb_ge; lia).
    rewrite E1, E2. cbn [orb bind]. rewrite Hgh, Hgw, !Nat2Z.id.
    unfold range_upto at 1, shape0. rewrite Nat2Z.id.
    rewrite (payload_matrix_loop fm Hwf (fm_frames fm) 0 _ (fun i => eq_refl)
               (has_shape_np_full _ _ (-1))).
    cbn [bind].
    assert (Hsh : has_shape (fm_height fm) (fm_width fm)
              (burn_loop_wide (Z.of_nat 0) (fm_frames fm)
                 (np_full (fm_height fm) (fm_width fm) (-1)))).
    { apply burn_loop_wide_shape; [exact Hwf|apply has_shape_np_full]. }
    pose proof (payload_pixels self fm) as Hpix.
    rewrite Hgh, Hgw in Hpix. rewrite (Hpix eq_refl eq_refl _ Hsh).
    cbn [bind]. rewrite !py_fdiv_int_ok by lia. cbn [bind]. eauto.
Qed.

End PayloadSpec.

Lemma Forall2_map_self {A B : Type} (R : B -> A -> Prop) (g : A -> B)
    (l : list A) :
  (forall a, R (g a) a) -> Forall2 R (map g l) l.
Proof.
  intros H. induction l; simpl; constructor; auto.
Qed.

Section PayloadContents.
Context {F : Type} {ops : PyFloat F}.

(** On a matching grid with at least one cell, for a sample rate of at
    least 1, the payload holds the frames of the frame loop, the number of
    frames, the sample rate and the grid as (width, height).  Its
    [burned_pixels] name exactly the cells whose burn time in the matrix of
    the map script and the exporter is at least 0, in row-major order, each
    with the projected centre of the cell and that burn time; so the list
    is as long as the exporter's list of features.  [pixel_size] is the
    extent of one cell in degrees. *)
Theorem payload_contents (self : Coordinates F) (fm : FireMap) (sample_rate : Z) :
  wf_fire_map fm -> grid_matches self fm ->
  (0 < fm_height fm)%nat -> (0 < fm_width fm)%nat ->
  1 <= sample_rate -> shape0 fm <= 2 ^ 31 ->
  exists d,
    Payload.prepare_animation_data self fm sample_rate = Ok d /\
    Animation.prepare_animation_frames self fm sample_rate =
      Ok (Payload.frames d) /\
    Payload.total_frames d = shape0 fm /\
    Payload.sample_rate d = sample_rate /\
    Payload.grid d = (Z.of_nat (fm_width fm), Z.of_nat (fm_height fm)) /\
    Payload.pixel_size d =
      (fdiv (delta_lat self) (of_int (grid_height self)),
       fdiv (delta_lon self) (of_int (grid_width self))) /\
    Forall2
      (fun p c =>
         Animation.pixel_to_latlon self (fst (fst c)) (snd (fst c)) =
           Ok (Payload.lat p, Payload.lon p) /\
         Payload.time p = snd c)
      (Payload.burned_pixels d)
      (ignited_cells (_compute_burn_time_matrix fm)) /\
    Z.of_nat (length (Payload.burned_pixels d)) =
      count_ignited (_compute_burn_time_matrix fm).
Proof.
  intros Hwf [Hgh Hgw] Hh Hw Hs HT.
  destruct (sampler_succeeds self fm sample_rate Hwf (conj Hgh Hgw) Hs)
    as [frames Ea].
  unfold Payload.prepare_animation_data. cbv zeta. rewrite Ea. cbn [bind].
  rewrite (payload_matrix self fm Hgh Hgw Hwf HT). cbn [bind].
  rewrite (payload_pixels self fm Hgh Hgw _ (burn_time_shape fm Hwf)).
  cbn [bind]. rewrite !py_fdiv_int_ok by lia. cbn [bind].
  eexists. split; [reflexivity|].
  cbn [Payload.frames Payload.total_frames Payload.sample_rate Payload.grid
       Payload.pixel_size Payload.burned_pixels].
  split; [reflexivity|]. split; [reflexivity|]. split; [reflexivity|].
  split; [now rewrite Hgh, Hgw|]. split; [reflexivity|].
  split.
  - apply Forall2_map_self. intros [[x y] v].
    cbn [fst snd burned_pixel_of Payload.lat Payload.lon Payload.time].
    rewrite (pixel_center_ok self x y) by lia.
    split; [|reflexivity]. now destruct (cell_center self (x, y)).
  - rewrite length_map. apply ignited_cells_length.
Qed.

End PayloadContents.
Section PayloadEdges.
Context {F : Type} {ops : PyFloat F}.

Lemma payload_before_division (self : Coordinates F) (fm : FireMap) :
  wf_fire_map fm -> grid_matches self fm ->
  exists m ps,
    Payload.burn_time_matrix self fm = Ok m /\
    Payload.burned_pixels_with_time self m = Ok ps.
Proof.
  intros Hwf [Hgh Hgw].
  unfold Payload.burn_time_matrix, np_full_shape.
  assert (E1 : (grid_height self <? 0) = false) by (apply Z.ltb_ge; lia).
  assert (E2 : (grid_width self <? 0) = false) by (apply Z.ltb_ge; lia).
  rewrite E1, E2. cbn [orb bind]. rewrite Hgh, Hgw, !Nat2Z.id.
  unfold range_upto at 1, shape0. rewrite Nat2Z.id.
  rewrite (payload_matrix_loop fm Hwf (fm_frames fm) 0 _ (fun i => eq_refl)
             (has_shape_np_full _ _ (-1))).
  do 2 eexists. split; [reflexivity|].
  pose proof (payload_pixels self fm) as Hpix.
  apply (Hpix Hgh Hgw).
  apply burn_loop_wide_shape; [exact Hwf|apply has_shape_np_full].
Qed.

(** On a grid without cells (height 0 or width 0, in the configuration and
    in the array alike) [prepare_animation_data] raises
    [ZeroDivisionError] for every sample rate of at least 1: no cell is
    projected, but [pixel_size] divides the extent of the area by the grid's
    height and width. *)
Theorem payload_empty_grid (self : Coordinates F) (fm : FireMap)
    (sample_rate : Z) :
  wf_fire_map fm -> grid_matches self fm -> 1 <= sample_rate ->
  (fm_height fm = 0 \/ fm_width fm = 0)%nat ->
  Payload.prepare_animation_data self fm sample_rate = Raise ZeroDivisionError.
Proof.
  intros Hwf Hgrid Hs Hempty.
  destruct (sampler_succeeds self fm sample_rate Hwf Hgrid Hs) as [frames Ea].
  destruct (payload_before_division self fm Hwf Hgrid) as (m & ps & Eb & Ec).
  unfold Payload.prepare_animation_data. cbv zeta.
  rewrite Ea. cbn [bind]. rewrite Eb. cbn [bind]. rewrite Ec. cbn [bind].
  destruct Hgrid as [Hgh Hgw]. unfold py_fdiv_int.
  destruct (Nat.eq_dec (fm_height fm) 0) as [Hh0|Hh0].
  - rewrite Hgh, Hh0. reflexivity.
  - assert (Hw0 : fm_width fm = 0%nat) by lia.
    assert (E : (grid_height self =? 0) = false) by (apply Z.eqb_neq; lia).
    rewrite E. cbn [bind]. rewrite Hgw, Hw0. reflexivity.
Qed.

End PayloadEdges.

(* ================================================================== *)
(** ** The burned-area layer of the map *)

Lemma Forall2_impl_in {A B : Type} (R R' : A -> B -> Prop) (l : list A)
    (l' : list B) :
  Forall2 R l l' -> (forall a b, In b l' -> R a b -> R' a b) -> Forall2 R' l l'.
Proof.
  induction 1 as [|a b l l' Hab _ IH]; intros H; constructor.
  - apply H; [now left|exact Hab].
  - apply IH. intros a' b' Hin. apply H. now right.
Qed.

Lemma Forall2_length_eq {A B : Type} (R : A -> B -> Prop) (l : list A)
    (l' : list B) :
  Forall2 R l l' -> length l = length l'.
Proof.
  induction 1; simpl; congruence.
Qed.

Section FireLayer.
Context {F : Type} {ops : PyFloat F}.

Lemma time_to_color_burnt (burn_time max_time : Z) (colormap : string)
    (c : option string) :
  0 <= burn_time ->
  Visualizer.time_to_color burn_time max_time colormap = Ok c ->
  exists s, c = Some s.
Proof.
  intros Hb. unfold Visualizer.time_to_color.
  assert (E : (burn_time <? 0) = false) by (apply Z.ltb_ge; exact Hb).
  rewrite E.
  destruct (Visualizer.color_parameter burn_time max_time) as [t|e];
    cbn [bind]; [|discriminate].
  destruct (if String.eqb colormap "YlOrRd" then Visualizer.YlOrRd t
            else if String.eqb colormap "inferno" then Visualizer.inferno t
            else Visualizer.Reds t) as [[[r g] b]|e]; cbn [bind];
    [|discriminate].
  intros H. injection H as <-. eauto.
Qed.

Lemma fire_layer_eq (self : Coordinates F) (fm : FireMap)
    (colormap : string) (opacity : F) (show_grid : bool) :
  wf_fire_map fm -> grid_matches self fm ->
  MapLayer.fire_layer self (_compute_burn_time_matrix fm) colormap opacity
    show_grid =
    (max_time <- np_max (_compute_burn_time_matrix fm) ;;
     map_result
       (fun c => MapLayer.rectangle self colormap opacity show_grid
                   (fst (fst c)) (snd (fst c)) (snd c) max_time)
       (ignited_cells (_compute_burn_time_matrix fm))).
Proof.
  intros Hwf [Hgh Hgw]. assert (Hsh := burn_time_shape fm Hwf).
  unfold MapLayer.fire_layer.
  destruct (np_max (_compute_burn_time_matrix fm)) as [max_time|e];
    cbn [bind]; [|reflexivity].
  rewrite Hgh, Hgw.
  apply (grid_loop
           (fun x y bt => MapLayer.rectangle self colormap opacity show_grid
                            x y bt max_time)
           _ _ _ Hsh).
Qed.

(** The rectangles [create_map] adds to the burned-area layer, on a grid
    that is the array's: the loops call the rectangle constructor once for
    every cell with a burn time of at least 0, in row-major order, and for
    no other cell.  Every rectangle of a layer has the bounds of its cell
    and the tooltip of its cell and burn time, and it has a colour: no
    rectangle is drawn with the colour [None].  There are as many
    rectangles as ignited cells. *)
Theorem fire_layer_spec (self : Coordinates F) (fm : FireMap)
    (colormap : string) (opacity : F) (show_grid : bool) :
  wf_fire_map fm -> grid_matches self fm ->
  MapLayer.fire_layer self (_compute_burn_time_matrix fm) colormap opacity
    show_grid =
    (max_time <- np_max (_compute_burn_time_matrix fm) ;;
     map_result
       (fun c => MapLayer.rectangle self colormap opacity show_grid
                   (fst (fst c)) (snd (fst c)) (snd c) max_time)
       (ignited_cells (_compute_burn_time_matrix fm))) /\
  (forall layer,
     MapLayer.fire_layer self (_compute_burn_time_matrix fm) colormap opacity
       show_grid = Ok layer ->
     Forall2
       (fun r c =>
          Visualizer.get_pixel_bounds self (fst (fst c)) (snd (fst c)) =
            Ok (MapLayer.bounds r) /\
          MapLayer.tooltip r =
            MapLayer.tooltip_text (fst (fst c)) (snd (fst c)) (snd c) /\
          exists s, MapLayer.color r = Some s)
       layer (ignited_cells (_compute_burn_time_matrix fm)) /\
     Z.of_nat (length layer) = count_ignited (_compute_burn_time_matrix fm)).
Proof.
  intros Hwf Hgrid.
  assert (Heq := fire_layer_eq self fm colormap opacity show_grid Hwf Hgrid).
  split; [exact Heq|].
  intros layer Hok. rewrite Heq in Hok.
  destruct (np_max (_compute_burn_time_matrix fm)) as [max_time|e];
    cbn [bind] in Hok; [|discriminate].
  apply map_result_ok in Hok.
  split.
  - apply (Forall2_impl_in _ _ _ _ Hok). intros r [[x y] v] Hin Hr.
    apply ignited_cells_in in Hin. destruct Hin as (_ & _ & _ & Hv).
    cbn [fst snd] in *. unfold MapLayer.rectangle in Hr.
    destruct (Visualizer.time_to_color v max_time colormap) as [c|e] eqn:Ec;
      cbn [bind] in Hr; [|discriminate].
    destruct (Visualizer.get_pixel_bounds self x y) as [b|e];
      cbn [bind] in Hr; [|discriminate].
    injection Hr as <-. cbn [MapLayer.bounds MapLayer.tooltip MapLayer.color].
    split; [reflexivity|]. split; [reflexivity|].
    apply (time_to_color_burnt v max_time colormap c); [lia|exact Ec].
  - rewrite (Forall2_length_eq _ _ _ Hok). apply ignited_cells_length.
Qed.

End FireLayer.

(* ================================================================== *)
(** ** Colours are colours *)

Lemma format_02x_byte (n : Z) :
  0 <= n <= 255 ->
  format_02x n = String.append (hex_digit (n / 16)) (hex_digit (n mod 16)).
Proof.
  intros Hn.
  assert (Hall : forallb
            (fun k => String.eqb (format_02x (Z.of_nat k))
                        (String.append (hex_digit (Z.of_nat k / 16))
                                       (hex_digit (Z.of_nat k mod 16))))
            (seq 0 256) = true) by (vm_compute; reflexivity).
  rewrite forallb_forall in Hall.
  specialize (Hall (Z.to_nat n)). rewrite Z2Nat.id in Hall by lia.
  apply String.eqb_eq. apply Hall. apply in_seq. lia.
Qed.

Lemma hex_color_length (r g b : Z) :
  0 <= r <= 255 -> 0 <= g <= 255 -> 0 <= b <= 255 ->
  String.length (hex_color r g b) = 7%nat.
Proof.
  intros Hr Hg Hb. unfold hex_color.
  rewrite !format_02x_byte by assumption. unfold hex_digit. reflexivity.
Qed.

Lemma exact_trunc_range (x : R) (lo hi : Z) :
  0 <= lo -> (IZR lo <= x)%R -> (x < IZR (hi + 1))%R ->
  lo <= Exact.trunc x <= hi.
Proof.
  intros Hlo Hx1 Hx2. unfold Exact.trunc.
  assert (H0 : (0 <= x)%R).
  { apply Rle_trans with (IZR lo); [apply IZR_le; exact Hlo|exact Hx1]. }
  destruct (Rle_dec 0 x) as [_|Hn]; [|contradiction].
  destruct (base_Int_part x) as [Hi1 Hi2].
  split.
  - apply Z.lt_succ_r. apply lt_IZR. rewrite succ_IZR. lra.
  - apply Z.lt_succ_r. apply lt_IZR. unfold Z.succ. lra.
Qed.

Lemma exact_trunc_mono (x y : R) :
  (0 <= x)%R -> (x <= y)%R -> Exact.trunc x <= Exact.trunc y.
Proof.
  intros Hx Hxy. unfold Exact.trunc.
  destruct (Rle_dec 0 x) as [_|Hn]; [|contradiction].
  destruct (Rle_dec 0 y) as [_|Hn]; [|lra].
  destruct (base_Int_part x) as [Hx1 Hx2].
  destruct (base_Int_part y) as [Hy1 Hy2].
  apply Z.lt_succ_r. apply lt_IZR. rewrite succ_IZR. lra.
Qed.

Lemma YlOrRd_range (t : R) :
  (0 <= t <= 1)%R -> exists c, Visualizer.YlOrRd t = Ok c /\ is_rgb c.
Proof.
  intros Ht. unfold Visualizer.YlOrRd. cbn [flt lit_0_5 Exact.ops].
  destruct (Rlt_dec t (1 / 2));
    cbn [bind ftrunc Exact.ops fadd fsub fmul of_int];
    eexists; (split; [reflexivity|]); unfold is_rgb; cbn [fst snd];
    repeat split; try lia;
    try (apply (exact_trunc_range _ 0 255); [lia|simpl; lra|simpl; lra]).
Qed.

Lemma inferno_range (t : R) :
  (0 <= t <= 1)%R -> exists c, Visualizer.inferno t = Ok c /\ is_rgb c.
Proof.
  intros Ht. unfold Visualizer.inferno.
  cbn [flt lit_0_25 lit_0_5 lit_0_75 Exact.ops].
  destruct (Rlt_dec t (1 / 4)); [|destruct (Rlt_dec t (1 / 2));
    [|destruct (Rlt_dec t (3 / 4))]];
    cbn [bind ftrunc Exact.ops fadd fsub fmul of_int];
    eexists; (split; [reflexivity|]); unfold is_rgb; cbn [fst snd];
    repeat split; try lia;
    try (apply (exact_trunc_range _ 0 255); [lia|simpl; lra|simpl; lra]).
Qed.

Lemma Reds_range (t : R) :
  (0 <= t <= 1)%R -> exists c, Visualizer.Reds t = Ok c /\ is_rgb c.
Proof.
  intros Ht. unfold Visualizer.Reds.
  cbn [bind ftrunc Exact.ops fadd fsub fmul of_int];
    eexists; (split; [reflexivity|]); unfold is_rgb; cbn [fst snd];
    repeat split; try lia;
    try (apply (exact_trunc_range _ 0 255); [lia|simpl; lra|simpl; lra]).
Qed.

Lemma exact_parameter_range (burn_time max_time : Z) :
  0 <= burn_time <= max_time ->
  exists t, Visualizer.color_parameter (F:=R) burn_time max_time = Ok t /\
            (0 <= t <= 1)%R.
Proof.
  intros Hb. unfold Visualizer.color_parameter.
  destruct (max_time >? 0) eqn:E.
  - apply Z.gtb_lt in E. rewrite py_truediv_ok by lia.
    eexists. split; [reflexivity|]. simpl.
    assert (Hm : (0 < IZR max_time)%R) by (apply IZR_lt; lia).
    assert (Hb1 : (0 <= IZR burn_time)%R) by (apply IZR_le; lia).
    assert (Hb2 : (IZR burn_time <= IZR max_time)%R) by (apply IZR_le; lia).
    split.
    + apply Rmult_le_pos; [exact Hb1|]. left. apply Rinv_0_lt_compat. exact Hm.
    + apply Rmult_le_reg_r with (IZR max_time); [exact Hm|].
      unfold Rdiv. rewrite Rmult_assoc, Rinv_l by lra. lra.
  - eexists. split; [reflexivity|]. simpl. lra.
Qed.

Lemma exact_time_to_color_burnt (burn_time max_time : Z) (colormap : string) :
  0 <= burn_time <= max_time ->
  exists r g b,
    Visualizer.time_to_color (F:=R) burn_time max_time colormap =
      Ok (Some (hex_color r g b)) /\
    is_rgb (r, g, b).
Proof.
  intros Hb. unfold Visualizer.time_to_color.
  assert (E : (burn_time <? 0) = false) by (apply Z.ltb_ge; lia).
  rewrite E.
  destruct (exact_parameter_range burn_time max_time Hb) as (t & Ht & Hrange).
  rewrite Ht. cbn [bind].
  assert (Hc : exists c,
            (if String.eqb colormap "YlOrRd" then Visualizer.YlOrRd t
             else if String.eqb colormap "inferno" then Visualizer.inferno t
             else Visualizer.Reds t) = Ok c /\ is_rgb c).
  { destruct (String.eqb colormap "YlOrRd"); [apply YlOrRd_range; exact Hrange|].
    destruct (String.eqb colormap "inferno");
      [apply inferno_range|apply Reds_range]; exact Hrange. }
  destruct Hc as ([[r g] b] & Hc & Hrgb). rewrite Hc. cbn [bind].
  exists r, g, b. split; [reflexivity|exact Hrgb].
Qed.

(** In exact arithmetic, a burn time between 0 and [max_time] always gets a
    colour, and the colour is well formed: the three channels lie between 0
    and 255, so [time_to_color] returns a string of seven characters,
    ["#"] and two hexadecimal digits per channel, for each of the colour
    maps; [time_to_color_rgb] returns channels between 0 and 255 too. *)
Theorem burnt_cells_get_colours (burn_time max_time : Z) (colormap : string) :
  0 <= burn_time <= max_time ->
  (exists r g b,
     Visualizer.time_to_color (F:=R) burn_time max_time colormap =
       Ok (Some (hex_color r g b)) /\
     is_rgb (r, g, b) /\
     String.length (hex_color r g b) = 7%nat /\
     hex_color r g b =
       String.append "#"
         (String.append
            (String.append (hex_digit (r / 16)) (hex_digit (r mod 16)))
            (String.append
               (String.append (hex_digit (g / 16)) (hex_digit (g mod 16)))
               (String.append (hex_digit (b / 16)) (hex_digit (b mod 16)))))) /\
  (exists c, GeoJSON.time_to_color_rgb (F:=R) burn_time max_time = Ok c /\
             is_rgb c).
Proof.
  intros Hb. split.
  - destruct (exact_time_to_color_burnt burn_time max_time colormap Hb)
      as (r & g & b & Hc & Hrgb).
    exists r, g, b. split; [exact Hc|]. split; [exact Hrgb|].
    destruct Hrgb as (Hr & Hg & Hbl). cbn [fst snd] in *.
    split; [apply hex_color_length; assumption|].
    unfold hex_color. rewrite !format_02x_byte by assumption. reflexivity.
  - unfold GeoJSON.time_to_color_rgb.
    assert (E : (burn_time <? 0) = false) by (apply Z.ltb_ge; lia).
    rewrite E. cbn [orb].
    destruct (max_time <=? 0) eqn:Em.
    { eexists. split; [reflexivity|]. unfold is_rgb. simpl. lia. }
    apply Z.leb_gt in Em. rewrite py_truediv_ok by lia. cbn [bind].
    assert (Hm : (0 < IZR max_time)%R) by (apply IZR_lt; lia).
    assert (Hb1 : (0 <= IZR burn_time)%R) by (apply IZR_le; lia).
    assert (Hb2 : (IZR burn_time <= IZR max_time)%R) by (apply IZR_le; lia).
    assert (Ht : (0 <= tdiv burn_time max_time <= 1)%R).
    { simpl. split.
      - apply Rmult_le_pos; [exact Hb1|]. left. apply Rinv_0_lt_compat. exact Hm.
      - apply Rmult_le_reg_r with (IZR max_time); [exact Hm|].
        unfold Rdiv. rewrite Rmult_assoc, Rinv_l by lra. lra. }
    generalize dependent (tdiv (F:=R) burn_time max_time). intros t Ht.
    cbn [flt lit_0_5 Exact.ops].
    destruct (Rlt_dec t (1 / 2));
      cbn [bind ftrunc Exact.ops fadd fsub fmul of_int];
      eexists; (split; [reflexivity|]); unfold is_rgb; cbn [fst snd];
      repeat split; try lia;
      try (apply (exact_trunc_range _ 0 255); [lia|simpl; lra|simpl; lra]).
Qed.

(* ================================================================== *)
(** ** Cells, the bounding box and the exported polygons, in exact
    arithmetic *)





(* ================================================================== *)
(** ** The three scripts show one fire *)








(* ================================================================== *)
(** ** A configured grid that is larger than the array *)

Lemma for_each_one_error {A S : Type} (e0 : PyExn) (body : A -> S -> Result S)
    (l : list A) :
  (forall a s, In a l -> (exists s', body a s = Ok s') \/ body a s = Raise e0) ->
  forall s, (exists s', for_each l body s = Ok s') \/
            for_each l body s = Raise e0.
Proof.
  induction l as [|a l IH]; intros H s; simpl; [eauto|].
  destruct (H a s (or_introl eq_refl)) as [[s1 ->]| ->]; cbn [bind];
    [|now right].
  apply IH. intros a' s' Hin. apply H. now right.
Qed.

Lemma np_getitem_one_error {A : Type} (a : list A) (i : Z) :
  (exists v, np_getitem a i = Ok v) \/ np_getitem a i = Raise IndexError.
Proof.
  unfold np_getitem. cbv zeta.
  destruct ((_ <? 0) || _); [now right|].
  destruct (nth_error a _); eauto.
Qed.

Section OversizedGrid.
Context {F : Type} {ops : PyFloat F}.

Lemma classify_frame_one_error (self : Coordinates F) (frame : Frame2D) :
  (exists r, Animation.classify_frame self frame = Ok r) \/
  Animation.classify_frame self frame = Raise IndexError.
Proof.
  unfold Animation.classify_frame.
  apply for_each_one_error. intros y s Hy.
  apply for_each_one_error. intros x [b1 b2] Hx.
  apply in_map_iff in Hy. destruct Hy as (yn & <- & Hyn). apply in_seq in Hyn.
  apply in_map_iff in Hx. destruct Hx as (xn & <- & Hxn). apply in_seq in Hxn.
  assert (Hh0 : grid_height self <> 0) by lia.
  assert (Hw0 : grid_width self <> 0) by lia.
  unfold Animation.classify_pixel, np_getitem2.
  destruct (np_getitem_one_error frame (Z.of_nat yn)) as [[row ->]| ->];
    cbn [bind]; [|now right].
  destruct (np_getitem_one_error row (Z.of_nat xn)) as [[st ->]| ->];
    cbn [bind]; [|now right].
  rewrite (pixel_center_ok self _ _ Hw0 Hh0). cbn [bind].
  destruct (st =? 1); [eauto|]. destruct (st =? 2); eauto.
Qed.

(** When the grid of the configuration has a cell and is higher or wider
    than the frames of an array that has a frame, the frame loop of the
    animation reads outside the frame: for every sample rate of at least 1
    it raises [IndexError], and so does [prepare_animation_data]. *)
Theorem oversized_grid_raises_index_error (self : Coordinates F) (fm : FireMap)
    (sample_rate : Z) :
  wf_fire_map fm -> fm_frames fm <> [] -> 1 <= sample_rate ->
  1 <= grid_height self -> 1 <= grid_width self ->
  (Z.of_nat (fm_height fm) < grid_height self \/
   Z.of_nat (fm_width fm) < grid_width self) ->
  Animation.prepare_animation_frames self fm sample_rate = Raise IndexError /\
  Payload.prepare_animation_data self fm sample_rate = Raise IndexError.
Proof.
  intros Hwf Hne Hs Hgh Hgw Hbig.
  assert (Hframes :
    Animation.prepare_animation_frames self fm sample_rate = Raise IndexError).
  { assert (Hone :
      (exists frames,
         Animation.prepare_animation_frames self fm sample_rate = Ok frames) \/
      Animation.prepare_animation_frames self fm sample_rate = Raise IndexError).
    { unfold Animation.prepare_animation_frames.
      destruct (py_range_positive (shape0 fm) sample_rate Hs) as (ts & -> & _).
      cbn [bind]. apply for_each_one_error. intros t acc _.
      destruct (np_getitem_one_error (fm_frames fm) t) as [[frame ->]| ->];
        cbn [bind]; [|now right].
      destruct (classify_frame_one_error self frame) as [[[b1 b2] ->]| ->];
        cbn [bind]; eauto. }
    destruct Hone as [[frames Hok]|Herr]; [|exact Herr].
    destruct (sampler_reads_last_cell self fm sample_rate frames Hwf Hne Hs
                Hgh Hgw Hok). lia. }
  split; [exact Hframes|].
  unfold Payload.prepare_animation_data. cbv zeta. rewrite Hframes. reflexivity.
Qed.

End OversizedGrid.

(* ================================================================== *)
(** ** The legend of the map *)


(** The legend when nothing burned.  [max_time] is then -1, the times of
    the six stops are [int(i * -1 / 5)], that is 0 five times and then -1,
    and the last stop has no colour: [time_to_color] returns [None] for it
    and the CSS gradient ends in ["None 100%"].  This is the binary64
    computation, for each colour map. *)
Theorem legend_without_fire (fm : FireMap) (colormap : string) :
  wf_fire_map fm -> never_ignites fm ->
  (0 < fm_height fm)%nat -> (0 < fm_width fm)%nat ->
  exists colors,
    np_max (_compute_burn_time_matrix fm) = Ok (-1) /\
    Legend.colors (F:=float) (-1) colormap = Ok colors /\
    colors =
      [(0, Some (fst (palette_endpoints colormap)));
       (0, Some (fst (palette_endpoints colormap)));
       (0, Some (fst (palette_endpoints colormap)));
       (0, Some (fst (palette_endpoints colormap)));
       (0, Some (fst (palette_endpoints colormap)));
       (-1, None)] /\
    Legend.gradient_stops colors =
      String.concat ", "
        [String.append (fst (palette_endpoints colormap)) " 0%";
         String.append (fst (palette_endpoints colormap)) " 20%";
         String.append (fst (palette_endpoints colormap)) " 40%";
         String.append (fst (palette_endpoints colormap)) " 60%";
         String.append (fst (palette_endpoints colormap)) " 80%";
         "None 100%"]%string.
Proof.
  intros Hwf Hcold Hh Hw. eexists.
  split.
  { rewrite (never_ignites_burn_time fm Hwf Hcold).
    apply np_max_np_full; assumption. }
  assert (Hcolors :
    Legend.colors (F:=float) (-1) colormap =
    Ok [(0, Some (fst (palette_endpoints colormap)));
        (0, Some (fst (palette_endpoints colormap)));
        (0, Some (fst (palette_endpoints colormap)));
        (0, Some (fst (palette_endpoints colormap)));
        (0, Some (fst (palette_endpoints colormap)));
        (-1, None)]).
  { unfold Legend.colors, Visualizer.time_to_color, palette_endpoints.
    destruct (String.eqb colormap "YlOrRd"); [vm_compute; reflexivity|].
    destruct (String.eqb colormap "inferno"); vm_compute; reflexivity. }
  split; [exact Hcolors|]. split; [reflexivity|].
  reflexivity.
Qed.




(* ================================================================== *)
(** ** The latest simulation *)

Lemma string_lt_trans (a b c : string) :
  String.ltb a b = true -> String.ltb b c = true -> String.ltb a c = true.
Proof.
  unfold String.ltb. intros H1 H2.
  destruct (String.compare a b) eqn:E1; try discriminate.
  destruct (String.compare b c) eqn:E2; try discriminate.
  apply OrderedTypeEx.String_as_OT.cmp_lt in E1, E2.
  pose proof (OrderedTypeEx.String_as_OT.lt_trans _ _ _ E1 E2) as H.
  apply OrderedTypeEx.String_as_OT.cmp_lt in H.
  unfold OrderedTypeEx.String_as_OT.cmp in H. rewrite H. reflexivity.
Qed.

Lemma string_ltb_leb (a b : string) :
  String.ltb a b = false <-> String.leb b a = true.
Proof.
  unfold String.ltb, String.leb. rewrite (String.compare_antisym a b).
  destruct (String.compare b a); simpl; split; congruence.
Qed.

Lemma string_leb_trans (a b c : string) :
  String.leb a b = true -> String.leb b c = true -> String.leb a c = true.
Proof.
  intros H1 H2. unfold String.leb in H1, H2.
  destruct (String.compare a b) eqn:E1; try discriminate;
    destruct (String.compare b c) eqn:E2; try discriminate.
  - apply String.compare_eq_iff in E1. subst.
    unfold String.leb. rewrite E2. reflexivity.
  - apply String.compare_eq_iff in E1. subst.
    unfold String.leb. rewrite E2. reflexivity.
  - apply String.compare_eq_iff in E2. subst.
    unfold String.leb. rewrite E1. reflexivity.
  - assert (Hac : String.ltb a c = true)
      by (apply (string_lt_trans a b c); unfold String.ltb;
          [rewrite E1|rewrite E2]; reflexivity).
    unfold String.ltb in Hac. unfold String.leb.
    destruct (String.compare a c); [reflexivity|reflexivity|discriminate].
Qed.

Lemma insert_descending_in (e x : string * Files.Node)
    (l : list (string * Files.Node)) :
  In x (Files.insert_descending e l) <-> x = e \/ In x l.
Proof.
  induction l as [|e' l IH]; simpl; [intuition|].
  destruct (String.ltb (fst e) (fst e')); simpl; [rewrite IH|]; intuition.
Qed.

Lemma sorted_reverse_in (x : string * Files.Node)
    (l : list (string * Files.Node)) :
  In x (Files.sorted_reverse l) <-> In x l.
Proof.
  unfold Files.sorted_reverse. induction l as [|e l IH]; simpl; [tauto|].
  rewrite insert_descending_in, IH. intuition.
Qed.

Lemma insert_descending_sorted (e : string * Files.Node)
    (l : list (string * Files.Node)) :
  StronglySorted descending l ->
  StronglySorted descending (Files.insert_descending e l).
Proof.
  induction 1 as [|e' l Hs IH Hall]; simpl.
  - constructor; constructor.
  - destruct (String.ltb (fst e) (fst e')) eqn:E.
    + constructor; [exact IH|].
      apply Forall_forall. intros x Hx. apply insert_descending_in in Hx.
      destruct Hx as [->|Hx].
      * unfold descending. apply string_ltb_leb.
        unfold String.ltb in *. rewrite (String.compare_antisym (fst e') (fst e)).
        destruct (String.compare (fst e) (fst e')); simpl; congruence.
      * rewrite Forall_forall in Hall. apply Hall. exact Hx.
    + apply string_ltb_leb in E.
      constructor; [constructor; assumption|].
      constructor; [exact E|].
      eapply Forall_impl; [|exact Hall]. intros x Hx. unfold descending in *.
      apply (string_leb_trans _ (fst e')); assumption.
Qed.

Lemma sorted_reverse_sorted (l : list (string * Files.Node)) :
  StronglySorted descending (Files.sorted_reverse l).
Proof.
  unfold Files.sorted_reverse. induction l as [|e l IH]; simpl.
  - constructor.
  - apply insert_descending_sorted. exact IH.
Qed.

Lemma find_first_sorted {A : Type} (R : A -> A -> Prop) (p : A -> bool)
    (l : list A) :
  StronglySorted R l ->
  match find p l with
  | Some a => In a l /\ p a = true /\
              forall b, In b l -> p b = true -> b = a \/ R a b
  | None => forall b, In b l -> p b = false
  end.
Proof.
  induction 1 as [|a l Hs IH Hall]; simpl.
  - intros b [].
  - destruct (p a) eqn:Ea.
    + split; [now left|]. split; [exact Ea|].
      intros b [<-|Hb] _; [now left|]. right.
      rewrite Forall_forall in Hall. apply Hall. exact Hb.
    + destruct (find p l) as [a'|].
      * destruct IH as (Hin & Hp & Hmax). split; [now right|].
        split; [exact Hp|]. intros b [<-|Hb] Hpb; [congruence|].
        apply Hmax; assumption.
      * intros b [<-|Hb]; [exact Ea|]. apply IH. exact Hb.
Qed.

Lemma accepts_iff (e : string * Files.Node) :
  Files.is_dir (Some (snd e)) &&
  Files.path_exists (Files.child (Some (snd e)) "fire_map.npy") = true <->
  exists entries name node,
    snd e = Files.Directory entries /\
    In (name, node) entries /\ name = "fire_map.npy"%string.
Proof.
  destruct e as [n [|entries]]; cbn [snd Files.is_dir Files.child andb].
  - split; [discriminate|]. intros (? & ? & ? & H & _). discriminate.
  - destruct (find (fun e => String.eqb (fst e) "fire_map.npy") entries)
      as [[name node]|] eqn:E; cbn [Files.path_exists].
    + split; [intros _|reflexivity].
      apply find_some in E. destruct E as [Hin Heq].
      apply String.eqb_eq in Heq. cbn [fst] in Heq.
      exists entries, name, node. auto.
    + split; [discriminate|].
      intros (entries' & name & node & H & Hin & ->).
      injection H as <-.
      pose proof (find_none _ _ E _ Hin) as Hn. cbn [fst] in Hn.
      rewrite String.eqb_refl in Hn. discriminate.
Qed.

(** [find_latest_simulation]: without a directory [data] under the base
    directory the result is [None]; a file named [data] makes [iterdir]
    raise [NotADirectoryError]; otherwise the result is the entry of
    [data] with the greatest name among the directories that hold a
    [fire_map.npy], and [None] exactly when there is no such directory.
    With names that start with a timestamp, the greatest name is the latest
    run. *)
Theorem find_latest_simulation_spec (base_dir : option Files.Node) :
  match Files.child base_dir "data" with
  | None => Files.find_latest_simulation base_dir = inr None
  | Some Files.File =>
      Files.find_latest_simulation base_dir = inl Files.NotADirectoryError
  | Some (Files.Directory entries) =>
      exists result,
        Files.find_latest_simulation base_dir = inr result /\
        match result with
        | Some name =>
            exists node,
              In (name, node) entries /\ holds_fire_map (name, node) /\
              forall e, In e entries -> holds_fire_map e ->
                        String.leb (fst e) name = true
        | None => forall e, In e entries -> ~ holds_fire_map e
        end
  end.
Proof.
  unfold Files.find_latest_simulation.
  destruct (Files.child base_dir "data") as [[|entries]|];
    cbn [Files.path_exists negb]; try reflexivity.
  match goal with |- context [find ?q _] => set (p := q) end.
  assert (Hp : forall e, p e = true <-> holds_fire_map e).
  { intros e. unfold p. rewrite accepts_iff. unfold holds_fire_map. split.
    - intros (es & name & node & H & Hin & ->). eauto.
    - intros (es & node & H & Hin). exists es, "fire_map.npy"%string, node. auto. }
  pose proof (find_first_sorted descending p _ (sorted_reverse_sorted entries))
    as Hfind.
  eexists. split; [reflexivity|].
  destruct (find p (Files.sorted_reverse entries)) as [[name node]|];
    cbn [option_map fst].
  - destruct Hfind as (Hin & Hpa & Hmax). exists node.
    split; [apply sorted_reverse_in; exact Hin|].
    split; [apply Hp; exact Hpa|].
    intros e He Hhold. apply sorted_reverse_in in He. apply Hp in Hhold.
    destruct (Hmax e He Hhold) as [->|Hdesc]; [|exact Hdesc].
    cbn [fst]. destruct (String.leb_total name name); assumption.
  - intros e He Hhold. apply sorted_reverse_in in He. apply Hp in Hhold.
    rewrite (Hfind e He) in Hhold. discriminate.
Qed.

(* ================================================================== *)
(** ** The player of the animation page *)

Section PlayerLemmas.
Context {F : Type} {ops : PyFloat F}.
Variable animData : Payload.AnimationData F.
Variable areaPerPixel : F.
Hypothesis Hrate : 1 <= Payload.sample_rate animData.

Let sr := Payload.sample_rate animData.
Let pixels := Payload.burned_pixels animData.

Lemma push_lookup (t t' : Z) (p : Payload.BurnedPixel F)
    (m : list (Z * list (Payload.BurnedPixel F))) :
  match find (fun e => fst e =? t) (Player.push t' p m) with
  | Some e => snd e
  | None => []
  end =
  match find (fun e => fst e =? t) m with
  | Some e => snd e
  | None => []
  end ++ (if t' =? t then [p] else []).
Proof.
  induction m as [|[t0 ps] m IH]; cbn [Player.push find fst snd].
  - destruct (t' =? t); reflexivity.
  - destruct (t0 =? t') eqn:E0; cbn [find fst snd].
    + apply Z.eqb_eq in E0. subst t0.
      destruct (t' =? t); [reflexivity|]. now rewrite app_nil_r.
    + destruct (t0 =? t) eqn:E1; [|exact IH].
      apply Z.eqb_eq in E1. subst t0. rewrite Z.eqb_sym, E0.
      now rewrite app_nil_r.
Qed.

Lemma pixels_at_filter (t : Z) :
  Player.pixels_at animData t =
  filter (fun p : Payload.BurnedPixel F =>
            Player.bucket animData (Payload.time p) =? t) pixels.
Proof.
  unfold Player.pixels_at, Player.burnedByTime.
  assert (H : forall l m,
    match find (fun e => fst e =? t)
            (fold_left
               (fun m p => Player.push
                             (Player.bucket animData (Payload.time p)) p m)
               l m) with
    | Some e => snd e
    | None => []
    end =
    match find (fun e => fst e =? t) m with
    | Some e => snd e
    | None => []
    end ++ filter (fun p : Payload.BurnedPixel F =>
            Player.bucket animData (Payload.time p) =? t) l).
  { induction l as [|p l IH]; intros m; cbn [fold_left filter].
    - now rewrite app_nil_r.
    - rewrite IH, push_lookup, <- app_assoc.
      destruct (Player.bucket animData (Payload.time p) =? t); reflexivity. }
  rewrite H. reflexivity.
Qed.

Lemma bucket_index (time j : Z) :
  (Player.bucket animData time =? j * sr) = (time / sr =? j).
Proof.
  unfold Player.bucket, Player.sampleRate. fold sr.
  destruct (time / sr =? j) eqn:E.
  - apply Z.eqb_eq in E. subst. apply Z.eqb_refl.
  - apply Z.eqb_neq in E. apply Z.eqb_neq. intros Heq. apply E.
    apply (Z.mul_cancel_r _ _ sr); [unfold sr; lia|exact Heq].
Qed.

Lemma burned_at_length (j : Z) :
  length (Player.burned_at animData (j * sr)) =
  length (filter (fun p : Payload.BurnedPixel F => Payload.time p / sr =? j) pixels).
Proof.
  unfold Player.burned_at. rewrite length_map, pixels_at_filter.
  f_equal. apply filter_ext. intros p. apply bucket_index.
Qed.

Lemma range_upto_succ (n : Z) :
  0 <= n -> range_upto (n + 1) = range_upto n ++ [n].
Proof.
  intros Hn. unfold range_upto.
  replace (Z.to_nat (n + 1)) with (S (Z.to_nat n)) by lia.
  rewrite seq_S, map_app. cbn [map Nat.add]. now rewrite Z2Nat.id.
Qed.

Lemma burned_upto_extend (k0 : Z) (n : nat) :
  -1 <= k0 ->
  Player.burned_upto animData (k0 + Z.of_nat n) =
  Player.burned_upto animData k0 ++
  flat_map (Player.burned_at animData)
    (map (fun i => (k0 + 1) * sr + Z.of_nat i * sr) (seq 0 n)).
Proof.
  intros Hk. unfold Player.burned_upto, Player.sampleRate. fold sr.
  induction n as [|n IH].
  - cbn [seq map flat_map]. rewrite app_nil_r. do 2 f_equal. lia.
  - replace (k0 + Z.of_nat (S n) + 1) with (k0 + Z.of_nat n + 1 + 1) by lia.
    rewrite range_upto_succ by lia. rewrite flat_map_app, IH.
    rewrite seq_S, map_app, flat_map_app, <- app_assoc.
    cbn [map flat_map Nat.add].
    replace ((k0 + Z.of_nat n + 1) * sr)
      with ((k0 + 1) * sr + Z.of_nat n * sr) by ring.
    reflexivity.
Qed.

Lemma ignited_by_step (l : list (Payload.BurnedPixel F)) (n : nat) :
  Nat.add
    (length (filter (fun p : Payload.BurnedPixel F =>
                       (0 <=? Payload.time p / sr) &&
                       (Payload.time p / sr <=? Z.of_nat n - 1)) l))
    (length (filter (fun p : Payload.BurnedPixel F =>
                       Payload.time p / sr =? Z.of_nat n) l)) =
  length (filter (fun p : Payload.BurnedPixel F =>
                    (0 <=? Payload.time p / sr) &&
                    (Payload.time p / sr <=? Z.of_nat (S n) - 1)) l).
Proof.
  induction l as [|p l IH]; [reflexivity|]. cbn [filter].
  destruct (0 <=? Payload.time p / sr) eqn:E0;
    destruct (Payload.time p / sr <=? Z.of_nat n - 1) eqn:E1;
    destruct (Payload.time p / sr =? Z.of_nat n) eqn:E2;
    destruct (Payload.time p / sr <=? Z.of_nat (S n) - 1) eqn:E3;
    cbn [andb length]; try lia;
    try (apply Z.leb_le in E0); try (apply Z.leb_gt in E0);
    try (apply Z.leb_le in E1); try (apply Z.leb_gt in E1);
    try (apply Z.eqb_eq in E2); try (apply Z.eqb_neq in E2);
    try (apply Z.leb_le in E3); try (apply Z.leb_gt in E3);
    lia.
Qed.

Lemma ignited_by_none (l : list (Payload.BurnedPixel F)) :
  filter (fun p : Payload.BurnedPixel F =>
            (0 <=? Payload.time p / sr) && (Payload.time p / sr <=? -1)) l = [].
Proof.
  induction l as [|p l IH]; [reflexivity|]. cbn [filter].
  destruct (0 <=? Payload.time p / sr) eqn:E0;
    destruct (Payload.time p / sr <=? -1) eqn:E1; cbn [andb]; try exact IH.
  apply Z.leb_le in E0. apply Z.leb_le in E1. lia.
Qed.

Lemma burned_upto_length (k : Z) :
  -1 <= k ->
  length (Player.burned_upto animData k) =
  length (Player.ignited_by animData k).
Proof.
  intros Hk. unfold Player.burned_upto, Player.ignited_by, Player.sampleRate.
  fold sr. fold pixels.
  replace k with (Z.of_nat (Z.to_nat (k + 1)) - 1) by lia.
  generalize (Z.to_nat (k + 1)) as n. clear k Hk.
  induction n as [|n IH].
  - cbn [Z.of_nat]. change (range_upto (0 - 1 + 1)) with (@nil Z).
    change (0 - 1) with (-1). rewrite ignited_by_none. reflexivity.
  - replace (Z.of_nat (S n) - 1 + 1) with (Z.of_nat n + 1) by lia.
    rewrite range_upto_succ by lia. rewrite flat_map_app, length_app.
    replace (Z.of_nat n) with (Z.of_nat n - 1 + 1) at 1 by lia.
    rewrite IH. cbn [flat_map]. rewrite app_nil_r, burned_at_length.
    apply ignited_by_step.
Qed.

End PlayerLemmas.

Section PlayerInvariant.
Context {F : Type} {ops : PyFloat F}.
Variable animData : Payload.AnimationData F.
Variable areaPerPixel : F.
Hypothesis Hrate : 1 <= Payload.sample_rate animData.
Hypothesis Hframes : Payload.frames animData <> [].

Let sr := Payload.sample_rate animData.

Lemma frame_shown (k : Z) :
  0 <= k ->
  exists frame,
    Player.js_index (Payload.frames animData)
      (Z.min k (Z.of_nat (length (Payload.frames animData)) - 1)) = Some frame.
Proof.
  intros Hk.
  assert (Hlen : (0 < length (Payload.frames animData))%nat).
  { destruct (Payload.frames animData); [congruence|simpl; lia]. }
  unfold Player.js_index.
  assert (E : (Z.min k (Z.of_nat (length (Payload.frames animData)) - 1) <? 0)
              = false) by (apply Z.ltb_ge; lia).
  rewrite E.
  destruct (nth_error (Payload.frames animData)
              (Z.to_nat (Z.min k (Z.of_nat (length (Payload.frames animData)) - 1))))
    as [frame|] eqn:En; [eauto|].
  apply nth_error_None in En. lia.
Qed.

Lemma burned_times (k0 cf : Z) :
  0 <= cf -> -1 <= k0 <= cf / sr ->
  exists ts,
    Player.js_for_times ((k0 + 1) * sr) cf sr = Some ts /\
    Player.burned_upto animData (cf / sr) =
    Player.burned_upto animData k0 ++
    flat_map (Player.burned_at animData) ts.
Proof.
  intros Hcf Hk0. unfold Player.js_for_times.
  assert (Hsr : 0 < sr) by (unfold sr; lia).
  destruct (cf <? (k0 + 1) * sr) eqn:E.
  - apply Z.ltb_lt in E. exists []. split; [reflexivity|].
    assert (cf / sr < k0 + 1) by (apply Z.div_lt_upper_bound; lia).
    replace (cf / sr) with k0 by lia. cbn [flat_map]. now rewrite app_nil_r.
  - apply Z.ltb_ge in E.
    assert (E' : (sr <=? 0) = false) by (apply Z.leb_gt; lia).
    rewrite E'. eexists. split; [reflexivity|].
    assert (Hn : (cf - (k0 + 1) * sr) / sr + 1 = cf / sr - k0).
    { replace (cf - (k0 + 1) * sr) with (cf + (- (k0 + 1)) * sr) by ring.
      rewrite Z.div_add by lia. lia. }
    rewrite Hn.
    rewrite <- (burned_upto_extend animData k0 (Z.to_nat (cf / sr - k0)))
      by lia.
    f_equal. lia.
Qed.

Lemma update_from (s0 : Player.State F) :
  0 <= Player.currentFrame s0 ->
  -1 <= Player.lastBurnedFrame s0 <= Player.currentFrame s0 / sr ->
  Player.burnedRects s0 =
    Player.burned_upto animData (Player.lastBurnedFrame s0) ->
  Player.burnedLayer s0 = map snd (Player.burnedRects s0) ->
  exists s1 frame,
    Player.updateVisualization animData areaPerPixel s0 = Player.Done s1 /\
    Player.currentFrame s1 = Player.currentFrame s0 /\
    Player.isPlaying s1 = Player.isPlaying s0 /\
    Player.playInterval s1 = Player.playInterval s0 /\
    Player.speed s1 = Player.speed s0 /\
    Player.playIcon s1 = Player.playIcon s0 /\
    Player.playText s1 = Player.playText s0 /\
    Player.lastBurnedFrame s1 = Player.currentFrame s0 / sr /\
    Player.burnedRects s1 =
      Player.burned_upto animData (Player.currentFrame s0 / sr) /\
    Player.burnedLayer s1 = map snd (Player.burnedRects s1) /\
    Player.js_index (Payload.frames animData)
      (Z.min (Player.currentFrame s0 / sr)
         (Z.of_nat (length (Payload.frames animData)) - 1)) = Some frame /\
    Player.burningLayer s1 =
      map (fun p => Player.createPixelRect animData (fst p) (snd p)
                      "#ff4444" (tdiv 9 10))
        (burning frame) /\
    Player.updateStats animData areaPerPixel frame s1 = s1.
Proof.
  intros Hcf Hlast Hrects Hlayer.
  assert (Hsr : 0 < sr) by (unfold sr; lia).
  assert (Hk : 0 <= Player.currentFrame s0 / sr) by (apply Z.div_pos; lia).
  destruct (frame_shown _ Hk) as [frame Hframe].
  destruct (burned_times (Player.lastBurnedFrame s0) (Player.currentFrame s0)
              Hcf Hlast) as (ts & Hts & Hupto).
  unfold Player.updateVisualization, Player.sampleRate. fold sr.
  rewrite Hframe, Hts.
  eexists. exists frame. split; [reflexivity|].
  cbn [Player.updateStats Player.currentFrame Player.isPlaying
       Player.playInterval Player.speed Player.playIcon Player.playText
       Player.lastBurnedFrame Player.burnedRects Player.burnedLayer
       Player.burningLayer Player.stats].
  repeat split; try reflexivity.
  - rewrite Hupto, Hrects. reflexivity.
  - rewrite Hlayer, map_app. reflexivity.
Qed.

Lemma stats_current (frame : FrameData F) (s : Player.State F) :
  Player.stats (Player.updateStats animData areaPerPixel frame s) =
    Player.stats s ->
  Player.updateStats animData areaPerPixel frame s = s.
Proof.
  destruct s. cbn. intros H. unfold Player.updateStats. cbn.
  rewrite H. reflexivity.
Qed.

Lemma update_consistent (s0 : Player.State F) :
  0 <= Player.currentFrame s0 ->
  Player.currentFrame s0 <=
    Z.max 0 (Payload.total_frames animData - 1) + sr - 1 ->
  -1 <= Player.lastBurnedFrame s0 <= Player.currentFrame s0 / sr ->
  Player.burnedRects s0 =
    Player.burned_upto animData (Player.lastBurnedFrame s0) ->
  Player.burnedLayer s0 = map snd (Player.burnedRects s0) ->
  (Player.playInterval s0 <> None <-> Player.isPlaying s0 = true) ->
  Player.playText s0 =
    (if Player.isPlaying s0 then "Pause" else "Play")%string ->
  exists s1,
    Player.updateVisualization animData areaPerPixel s0 = Player.Done s1 /\
    player_consistent animData areaPerPixel s1 /\
    Player.currentFrame s1 = Player.currentFrame s0 /\
    Player.isPlaying s1 = Player.isPlaying s0 /\
    Player.playInterval s1 = Player.playInterval s0.
Proof.
  intros Hcf Hbound Hlast Hrects Hlayer Htimer Htext.
  destruct (update_from s0 Hcf Hlast Hrects Hlayer)
    as (s1 & frame & Hup & H1 & H2 & H3 & H4 & H5 & H6 & H7 & H8 & H9 & H10 &
        H11 & H12).
  exists s1. split; [exact Hup|]. split; [|auto].
  unfold player_consistent. cbv zeta. fold sr. rewrite H1, H2, H3, H6, H7.
  split; [exact Hcf|]. split; [exact Hbound|]. split; [reflexivity|].
  split; [exact H8|]. split; [exact H9|]. split; [exact Htimer|].
  split; [exact Htext|]. exists frame. auto.
Qed.

Lemma toggle_consistent (s : Player.State F) :
  player_consistent animData areaPerPixel s ->
  player_consistent animData areaPerPixel (Player.togglePlay s).
Proof.
  unfold player_consistent. cbv zeta.
  intros (H1 & H2 & H3 & H4 & H5 & H6 & H7 & frame & H8 & H9 & H10).
  unfold Player.togglePlay.
  destruct (Player.isPlaying s) eqn:E; cbn [negb];
    cbn [Player.startPlayback Player.stopPlayback Player.currentFrame
         Player.isPlaying Player.playInterval Player.lastBurnedFrame
         Player.burnedRects Player.burnedLayer Player.burningLayer
         Player.playText];
    (split; [exact H1|]); (split; [exact H2|]); (split; [exact H3|]);
    (split; [exact H4|]); (split; [exact H5|]);
    (split; [split; congruence|]); (split; [reflexivity|]);
    exists frame; (split; [exact H8|]); (split; [exact H9|]);
    apply stats_current;
    exact (f_equal (@Player.stats F) H10).
Qed.

Lemma speed_consistent (newSpeed : Z) (s : Player.State F) :
  player_consistent animData areaPerPixel s ->
  player_consistent animData areaPerPixel (Player.changeSpeed newSpeed s).
Proof.
  unfold player_consistent. cbv zeta.
  intros (H1 & H2 & H3 & H4 & H5 & H6 & H7 & frame & H8 & H9 & H10).
  unfold Player.changeSpeed.
  cbn [Player.isPlaying].
  destruct (Player.isPlaying s) eqn:E;
    cbn [Player.startPlayback Player.stopPlayback Player.currentFrame
         Player.isPlaying Player.playInterval Player.lastBurnedFrame
         Player.burnedRects Player.burnedLayer Player.burningLayer
         Player.playText Player.speed];
    (split; [exact H1|]); (split; [exact H2|]); (split; [exact H3|]);
    (split; [exact H4|]); (split; [exact H5|]);
    (split;
       [rewrite ?E; split; intros Hp;
        first [reflexivity | discriminate | congruence
              | apply H6 in Hp; congruence]|]);
    (split; [rewrite ?E; exact H7|]);
    exists frame; (split; [exact H8|]); (split; [exact H9|]);
    apply stats_current;
    exact (f_equal (@Player.stats F) H10).
Qed.

Ltac after_update :=
  match goal with
  | |- exists s', Player.updateVisualization _ _ ?s0 = Player.Done s' /\ _ =>
      let s1 := fresh "s1" in
      let Hup := fresh "Hup" in
      let Hc := fresh "Hc" in
      destruct (update_consistent s0) as (s1 & Hup & Hc & _);
      [ .. | exists s1; split; assumption ];
      cbn [Player.currentFrame Player.isPlaying Player.playInterval
           Player.lastBurnedFrame Player.burnedRects Player.burnedLayer
           Player.playText]
  end.

Lemma handle_consistent (e : Player.Event) (s : Player.State F) :
  player_consistent animData areaPerPixel s ->
  Player.enabled animData e s ->
  exists s',
    Player.handle animData areaPerPixel e s = Player.Done s' /\
    player_consistent animData areaPerPixel s'.
Proof.
  intros Hs He.
  pose proof Hs as Hs'.
  unfold player_consistent in Hs'. cbv zeta in Hs'. fold sr in Hs'.
  destruct Hs' as (H1 & H2 & H3 & H4 & H5 & H6 & H7 & _).
  assert (Hq : 0 <= Player.currentFrame s / sr)
    by (apply Z.div_pos; unfold sr; lia).
  destruct e; cbn [Player.handle Player.enabled] in *.
  - eexists. split; [reflexivity|]. apply toggle_consistent. exact Hs.
  - unfold Player.resetAnimation. after_update.
    + lia.
    + fold sr. lia.
    + rewrite Z.div_0_l by (unfold sr; lia). lia.
    + reflexivity.
    + reflexivity.
    + split; [congruence|discriminate].
    + reflexivity.
  - unfold Player.stepBackward.
    destruct (Player.currentFrame s >? 0) eqn:E;
      [|exists s; split; [reflexivity|exact Hs]].
    apply Z.gtb_lt in E. unfold Player.seekTo. cbv zeta.
    unfold Player.sampleRate. fold sr.
    assert (Eb : (Z.max 0 (Player.currentFrame s - sr) <? Player.currentFrame s)
                 = true) by (apply Z.ltb_lt; unfold sr; lia).
    rewrite Eb. after_update.
    + lia.
    + fold sr. unfold sr in *. lia.
    + match goal with
      | |- _ <= _ <= ?a / ?b =>
          assert (0 <= a / b) by (apply Z.div_pos; unfold sr in *; lia); lia
      end.
    + reflexivity.
    + reflexivity.
    + exact H6.
    + exact H7.
  - unfold Player.stepForward, Player.totalFrames, Player.sampleRate. fold sr.
    destruct (Player.currentFrame s <? Payload.total_frames animData - 1) eqn:E;
      [|exists s; split; [reflexivity|exact Hs]].
    apply Z.ltb_lt in E. after_update.
    + unfold sr. lia.
    + fold sr. unfold sr in *. lia.
    + rewrite H3. split; [lia|].
      apply Z.div_le_mono; unfold sr; lia.
    + rewrite H3. exact H4.
    + exact H5.
    + exact H6.
    + exact H7.
  - unfold Player.totalFrames in He. unfold Player.seekTo. cbv zeta.
    assert (Hfq : 0 <= frame / sr) by (apply Z.div_pos; unfold sr; lia).
    destruct (frame <? Player.currentFrame s) eqn:E; after_update.
    + lia.
    + fold sr. unfold sr in *. lia.
    + lia.
    + reflexivity.
    + reflexivity.
    + exact H6.
    + exact H7.
    + lia.
    + fold sr. unfold sr in *. lia.
    + apply Z.ltb_ge in E. rewrite H3. split; [lia|].
      apply Z.div_le_mono; unfold sr; lia.
    + rewrite H3. exact H4.
    + exact H5.
    + exact H6.
    + exact H7.
  - eexists. split; [reflexivity|]. apply speed_consistent. exact Hs.
  - unfold Player.tick, Player.totalFrames, Player.sampleRate. fold sr.
    destruct (Player.currentFrame s >=? Payload.total_frames animData - 1) eqn:E.
    + eexists. split; [reflexivity|]. apply toggle_consistent. exact Hs.
    + assert (E' : Player.currentFrame s < Payload.total_frames animData - 1).
      { destruct (Z.geb_spec (Player.currentFrame s)
                    (Payload.total_frames animData - 1)); [discriminate|lia]. }
      after_update.
      * unfold sr. lia.
      * fold sr. unfold sr in *. lia.
      * rewrite H3. split; [lia|].
        apply Z.div_le_mono; unfold sr; lia.
      * rewrite H3. exact H4.
      * exact H5.
      * exact H6.
      * exact H7.
Qed.

Lemma initialise_consistent :
  exists s,
    Player.initialise animData areaPerPixel = Player.Done s /\
    player_consistent animData areaPerPixel s.
Proof.
  unfold Player.initialise. after_update; unfold Player.loaded;
    cbn [Player.currentFrame Player.isPlaying Player.playInterval
         Player.lastBurnedFrame Player.burnedRects Player.burnedLayer
         Player.playText].
  - lia.
  - fold sr. unfold sr. lia.
  - rewrite Z.div_0_l by (unfold sr; lia). lia.
  - reflexivity.
  - reflexivity.
  - split; [congruence|discriminate].
  - reflexivity.
Qed.

Lemma reachable_consistent (s : Player.State F) :
  Player.reachable animData areaPerPixel s ->
  player_consistent animData areaPerPixel s.
Proof.
  induction 1 as [s Hinit|s s' e _ IH He Hafter].
  - destruct initialise_consistent as (s0 & E & Hc).
    rewrite E in Hinit. injection Hinit as <-. exact Hc.
  - destruct (handle_consistent e s IH He) as (s0 & E & Hc).
    rewrite E in Hafter. injection Hafter as <-. exact Hc.
Qed.

End PlayerInvariant.

Section PlayerPayload.
Context {F : Type} {ops : PyFloat F}.

Lemma payload_fields (self : Coordinates F) (fm : FireMap) (sample_rate : Z)
    (d : Payload.AnimationData F) :
  Payload.prepare_animation_data self fm sample_rate = Ok d ->
  Animation.prepare_animation_frames self fm sample_rate =
    Ok (Payload.frames d) /\
  Payload.sample_rate d = sample_rate /\
  Payload.total_frames d = shape0 fm.
Proof.
  unfold Payload.prepare_animation_data. cbv zeta.
  destruct (Animation.prepare_animation_frames self fm sample_rate)
    as [fs|e]; [|discriminate].
  cbn [bind].
  destruct (Payload.burn_time_matrix self fm) as [m|e]; [|discriminate].
  cbn [bind].
  destruct (Payload.burned_pixels_with_time self m) as [ps|e]; [|discriminate].
  cbn [bind].
  destruct (py_fdiv_int (delta_lat self) (grid_height self)) as [a|e];
    [|discriminate].
  cbn [bind].
  destruct (py_fdiv_int (delta_lon self) (grid_width self)) as [b|e];
    [|discriminate].
  cbn [bind]. intros H. injection H as <-. repeat split.
Qed.

Lemma sampler_length (self : Coordinates F) (frames : list Frame2D)
    (ts : list Z) :
  forall acc fs,
    for_each ts
      (fun t frames_data =>
         frame <- np_getitem frames t ;;
         '(burning_pixels, burned_pixels) <- Animation.classify_frame self frame ;;
         Ok (frames_data ++
               [{| time := t;
                   burning := burning_pixels;
                   burned_count := Z.of_nat (length burned_pixels);
                   burning_count := Z.of_nat (length burning_pixels) |}]))
      acc = Ok fs ->
    length fs = (length acc + length ts)%nat.
Proof.
  induction ts as [|t ts IH]; intros acc fs H; simpl in H.
  - injection H as <-. simpl. lia.
  - destruct (np_getitem frames t) as [frame|e]; [|discriminate].
    cbn [bind] in H.
    destruct (Animation.classify_frame self frame) as [[a b]|e];
      [|discriminate].
    cbn [bind] in H. apply IH in H. rewrite H, length_app. simpl. lia.
Qed.

Lemma payload_has_frames (self : Coordinates F) (fm : FireMap)
    (sample_rate : Z) (d : Payload.AnimationData F) :
  Payload.prepare_animation_data self fm sample_rate = Ok d ->
  1 <= sample_rate -> fm_frames fm <> [] ->
  1 <= Payload.sample_rate d /\ Payload.frames d <> [].
Proof.
  intros Hd Hs Hfm.
  destruct (payload_fields self fm sample_rate d Hd) as (Hf & Hr & _).
  split; [lia|].
  assert (HT : 1 <= shape0 fm).
  { unfold shape0. destruct (fm_frames fm); [congruence|]. simpl length. lia. }
  destruct (py_range_head (shape0 fm) sample_rate HT Hs) as [rest Hrange].
  unfold Animation.prepare_animation_frames in Hf. cbv zeta in Hf.
  rewrite Hrange in Hf. cbn [bind] in Hf.
  apply sampler_length in Hf. intros E. rewrite E in Hf. simpl in Hf. lia.
Qed.

Lemma payload_without_frames (self : Coordinates F) (fm : FireMap)
    (sample_rate : Z) (d : Payload.AnimationData F) :
  Payload.prepare_animation_data self fm sample_rate = Ok d ->
  sample_rate < 0 \/ fm_frames fm = [] ->
  Payload.frames d = [].
Proof.
  intros Hd Hcase.
  destruct (payload_fields self fm sample_rate d Hd) as (Hf & _ & _).
  unfold Animation.prepare_animation_frames, py_range in Hf. cbv zeta in Hf.
  destruct (sample_rate =? 0) eqn:E0; [discriminate|].
  assert (En : (if 0 <? sample_rate
                then if 0 <? shape0 fm
                     then (shape0 fm - 0 - 1) / sample_rate + 1 else 0
                else if shape0 fm <? 0
                     then (0 - shape0 fm - 1) / - sample_rate + 1 else 0) = 0).
  { assert (H0 : 0 <= shape0 fm) by (unfold shape0; lia).
    destruct Hcase as [Hneg|Hnil].
    - destruct (Z.ltb_spec 0 sample_rate); [lia|].
      destruct (Z.ltb_spec (shape0 fm) 0); [lia|reflexivity].
    - assert (Hz : shape0 fm = 0) by (unfold shape0; rewrite Hnil; reflexivity).
      rewrite Hz. cbn. destruct (0 <? sample_rate); reflexivity. }
  rewrite En in Hf. cbn in Hf. congruence.
Qed.

End PlayerPayload.

Section PlayerRuns.
Context {F : Type} {ops : PyFloat F}.
Variable animData : Payload.AnimationData F.
Variable areaPerPixel : F.
Hypothesis Hrate : 1 <= Payload.sample_rate animData.
Hypothesis Hframes : Payload.frames animData <> [].

Let sr := Payload.sample_rate animData.
Let T := Payload.total_frames animData.

Lemma consistent_stats (s : Player.State F) :
  player_consistent animData areaPerPixel s ->
  exists st,
    Player.stats s = Some st /\
    Player.statTime st = Player.currentFrame s /\
    Player.timeSlider st = Player.currentFrame s /\
    Player.statBurned st = Z.of_nat (length (Player.burnedRects s)).
Proof.
  unfold player_consistent. cbv zeta.
  intros (_ & _ & _ & _ & _ & _ & _ & frame & _ & _ & Hst).
  apply (f_equal (@Player.stats F)) in Hst. cbn in Hst.
  eexists. split; [symmetry; exact Hst|]. repeat split.
Qed.

Lemma tick_advance (s : Player.State F) :
  player_consistent animData areaPerPixel s ->
  Player.currentFrame s < T - 1 ->
  exists s1,
    Player.tick animData areaPerPixel s = Player.Done s1 /\
    player_consistent animData areaPerPixel s1 /\
    Player.currentFrame s1 = Player.currentFrame s + sr /\
    Player.isPlaying s1 = Player.isPlaying s.
Proof.
  intros Hs Hlt. pose proof Hs as Hs'.
  unfold player_consistent in Hs'. cbv zeta in Hs'. fold sr in Hs'.
  destruct Hs' as (H1 & H2 & H3 & H4 & H5 & H6 & H7 & _).
  unfold Player.tick, Player.totalFrames, Player.sampleRate. fold sr. fold T.
  assert (E : (Player.currentFrame s >=? T - 1) = false).
  { destruct (Z.geb_spec (Player.currentFrame s) (T - 1)); [lia|reflexivity]. }
  rewrite E.
  match goal with
  | |- exists s1, Player.updateVisualization _ _ ?s0 = _ /\ _ =>
      destruct (update_consistent animData areaPerPixel Hrate Hframes s0)
        as (s1 & Hup & Hc & Hcf & Hplay & _);
      [ .. | exists s1; split; [exact Hup|]; split; [exact Hc|];
             split; [exact Hcf|exact Hplay] ];
      cbn [Player.currentFrame Player.isPlaying Player.playInterval
           Player.lastBurnedFrame Player.burnedRects Player.burnedLayer
           Player.playText]
  end.
  - unfold sr. lia.
  - fold sr. fold T. unfold sr, T in *. lia.
  - rewrite H3. split; [assert (0 <= Player.currentFrame s / sr)
                          by (apply Z.div_pos; unfold sr; lia); lia|].
    apply Z.div_le_mono; unfold sr; lia.
  - rewrite H3. exact H4.
  - exact H5.
  - exact H6.
  - exact H7.
Qed.

Lemma tick_at_end (s : Player.State F) :
  T - 1 <= Player.currentFrame s ->
  Player.tick animData areaPerPixel s = Player.Done (Player.togglePlay s).
Proof.
  intros Hge. unfold Player.tick, Player.totalFrames. fold T.
  destruct (Z.geb_spec (Player.currentFrame s) (T - 1)); [reflexivity|lia].
Qed.

Lemma remaining_ticks_zero (x : Z) :
  (Z.max 0 x + sr - 1) / sr = 0 -> x <= 0.
Proof.
  assert (Hsr : 0 < sr) by (unfold sr; lia).
  intros H. pose proof (Z.div_mod (Z.max 0 x + sr - 1) sr ltac:(lia)) as Hd.
  pose proof (Z.mod_pos_bound (Z.max 0 x + sr - 1) sr Hsr) as Hm.
  rewrite H in Hd. lia.
Qed.

Lemma remaining_ticks_succ (x : Z) (n : nat) :
  (Z.max 0 x + sr - 1) / sr = Z.of_nat (S n) ->
  0 < x /\ (Z.max 0 (x - sr) + sr - 1) / sr = Z.of_nat n.
Proof.
  assert (Hsr : 0 < sr) by (unfold sr; lia).
  intros H.
  assert (Hx : 0 < x).
  { destruct (Z.lt_ge_cases 0 x) as [Hp|Hn]; [exact Hp|].
    rewrite Z.max_l in H by lia. rewrite Z.div_small in H by lia. lia. }
  split; [exact Hx|].
  rewrite Z.max_r in H by lia.
  destruct (Z.lt_ge_cases x sr) as [Hlt|Hge].
  - rewrite Z.max_l by lia.
    assert (Hq : (x + sr - 1) / sr = 1).
    { symmetry. apply (Z.div_unique _ _ _ (x - 1)); lia. }
    rewrite Z.div_small by lia. lia.
  - rewrite Z.max_r by lia.
    replace (x - sr + sr - 1) with (x + sr - 1 + (-1) * sr) by ring.
    rewrite Z.div_add by lia. lia.
Qed.

Lemma ticks_play (n : nat) :
  forall s : Player.State F,
    player_consistent animData areaPerPixel s ->
    Player.isPlaying s = true ->
    (Z.max 0 (T - 1 - Player.currentFrame s) + sr - 1) / sr = Z.of_nat n ->
    (forall m, (m <= n)%nat ->
       exists sm,
         Player.ticks animData areaPerPixel m s = Player.Done sm /\
         Player.playInterval sm <> None /\
         Player.currentFrame sm = Player.currentFrame s + Z.of_nat m * sr) /\
    exists s',
      Player.ticks animData areaPerPixel (S n) s = Player.Done s' /\
      player_consistent animData areaPerPixel s' /\
      Player.isPlaying s' = false /\
      Player.playInterval s' = None /\
      Player.currentFrame s' = Player.currentFrame s + Z.of_nat n * sr.
Proof.
  induction n as [|n IH]; intros s Hs Hplay Hn.
  - apply remaining_ticks_zero in Hn.
    assert (Htimer : Player.playInterval s <> None).
    { unfold player_consistent in Hs. cbv zeta in Hs.
      destruct Hs as (_ & _ & _ & _ & _ & H6 & _). apply H6. exact Hplay. }
    split.
    + intros m Hm. assert (m = 0%nat) by lia. subst m.
      exists s. cbn [Player.ticks Z.of_nat]. repeat split; [exact Htimer|lia].
    + exists (Player.togglePlay s). cbn [Player.ticks].
      rewrite tick_at_end by lia.
      split; [reflexivity|].
      split; [apply (toggle_consistent animData areaPerPixel); exact Hs|].
      unfold Player.togglePlay. rewrite Hplay.
      cbn [negb Player.stopPlayback Player.isPlaying Player.playInterval
           Player.currentFrame Z.of_nat].
      repeat split. lia.
  - apply remaining_ticks_succ in Hn. destruct Hn as [Hx Hn].
    destruct (tick_advance s Hs ltac:(lia)) as (s1 & Et & Hs1 & Hcf & Hp1).
    assert (Htimer : Player.playInterval s <> None).
    { unfold player_consistent in Hs. cbv zeta in Hs.
      destruct Hs as (_ & _ & _ & _ & _ & H6 & _). apply H6. exact Hplay. }
    destruct (IH s1 Hs1) as [Hbefore (s' & Es' & Hc' & Hp' & Ht' & Hcf')].
    + congruence.
    + rewrite Hcf.
      replace (T - 1 - (Player.currentFrame s + sr))
        with (T - 1 - Player.currentFrame s - sr) by ring.
      exact Hn.
    + split.
      * intros m Hm. destruct m as [|m].
        -- exists s. cbn [Player.ticks Z.of_nat].
           repeat split; [exact Htimer|lia].
        -- destruct (Hbefore m ltac:(lia)) as (sm & Esm & Htm & Hcm).
           exists sm. cbn [Player.ticks]. rewrite Et.
           repeat split; [exact Esm|exact Htm|]. rewrite Hcm, Hcf. lia.
      * exists s'. change (Player.ticks animData areaPerPixel (S (S n)) s)
          with (match Player.tick animData areaPerPixel s with
                | Player.Done s0 => Player.ticks animData areaPerPixel (S n) s0
                | o => o
                end).
        rewrite Et. split; [exact Es'|]. split; [exact Hc'|].
        split; [exact Hp'|]. split; [exact Ht'|].
        rewrite Hcf', Hcf, Nat2Z.inj_succ. ring.
Qed.

End PlayerRuns.

Section PlayerTheorems.
Context {F : Type} {ops : PyFloat F}.

(** The page [generate_html] writes for a recording with at least one frame
    and a sample rate of at least 1 never fails and never shows a stale
    picture.  In every state the player can reach, by any sequence of
    button clicks, slider moves, speed changes and timer firings, the
    invariant [player_consistent] holds: the burned layer holds exactly the
    rectangles of the samples 0 to [currentFrame / sample_rate], so as many
    rectangles as there are burned pixels whose time falls in those samples,
    and the counter of burned pixels shows that number; the time shown is
    the current frame; the timer runs exactly while the player is playing.
    Every event that can happen in such a state is handled to the end,
    without a [TypeError] and without a loop that does not end, and leads to
    a state of the same kind. *)
Theorem player_shows_what_has_burned (self : Coordinates F) (fm : FireMap)
    (sample_rate : Z) (animData : Payload.AnimationData F) (areaPerPixel : F)
    (s : Player.State F) :
  Payload.prepare_animation_data self fm sample_rate = Ok animData ->
  1 <= sample_rate -> fm_frames fm <> [] ->
  Player.reachable animData areaPerPixel s ->
  player_consistent animData areaPerPixel s /\
  length (Player.burnedLayer s) =
    length (Player.ignited_by animData (Player.currentFrame s / sample_rate)) /\
  (exists st,
     Player.stats s = Some st /\
     Player.statTime st = Player.currentFrame s /\
     Player.timeSlider st = Player.currentFrame s /\
     Player.statBurned st =
       Z.of_nat (length (Player.ignited_by animData
                           (Player.currentFrame s / sample_rate)))) /\
  (Player.playInterval s <> None <-> Player.isPlaying s = true) /\
  forall e, Player.enabled animData e s ->
    exists s',
      Player.handle animData areaPerPixel e s = Player.Done s' /\
      Player.reachable animData areaPerPixel s'.
Proof.
  intros Hd Hs Hfm Hreach.
  destruct (payload_has_frames self fm sample_rate animData Hd Hs Hfm)
    as [Hrate Hframes].
  destruct (payload_fields self fm sample_rate animData Hd) as (_ & Hsr & _).
  pose proof (reachable_consistent animData areaPerPixel Hrate Hframes s Hreach)
    as Hc.
  pose proof Hc as Hc'. unfold player_consistent in Hc'. cbv zeta in Hc'.
  rewrite Hsr in Hc'.
  destruct Hc' as (H1 & _ & _ & H4 & H5 & H6 & _).
  assert (Hk : -1 <= Player.currentFrame s / sample_rate).
  { assert (0 <= Player.currentFrame s / sample_rate)
      by (apply Z.div_pos; lia). lia. }
  assert (Hlen : length (Player.burnedRects s) =
                 length (Player.ignited_by animData
                           (Player.currentFrame s / sample_rate))).
  { rewrite H4. apply burned_upto_length; assumption. }
  split; [exact Hc|].
  split; [rewrite H5, length_map; exact Hlen|].
  split.
  { destruct (consistent_stats animData areaPerPixel s Hc)
      as (st & Est & Ht & Hsl & Hb).
    exists st. rewrite <- Hlen. auto. }
  split; [exact H6|].
  intros e He.
  destruct (handle_consistent animData areaPerPixel Hrate Hframes e s Hc He)
    as (s' & Eh & _).
  exists s'. split; [exact Eh|].
  apply (Player.reach_event animData areaPerPixel s s' e Hreach He).
  rewrite Eh. reflexivity.
Qed.

(** Playback ends by itself.  In the page of a recording with at least one
    frame and a sample rate of at least 1, take a reachable state in which
    the player is playing and let [n] be the number of steps of
    [sample_rate] frames needed to bring the current frame to
    [total_frames - 1] or beyond (0 if it is there already).  Then the
    timer is still running before each of its first [n + 1] firings, the
    first [n] of them advance the current frame by [sample_rate] each, and
    firing [n + 1] stops the timer and the playing without moving the
    frame, which is then at least [total_frames - 1]. *)
Theorem playback_stops_at_the_end (self : Coordinates F) (fm : FireMap)
    (sample_rate : Z) (animData : Payload.AnimationData F) (areaPerPixel : F)
    (s : Player.State F) :
  Payload.prepare_animation_data self fm sample_rate = Ok animData ->
  1 <= sample_rate -> fm_frames fm <> [] ->
  Player.reachable animData areaPerPixel s ->
  Player.isPlaying s = true ->
  let n :=
    Z.to_nat ((Z.max 0 (shape0 fm - 1 - Player.currentFrame s)
               + sample_rate - 1) / sample_rate) in
  (forall m, (m <= n)%nat ->
     exists sm,
       Player.ticks animData areaPerPixel m s = Player.Done sm /\
       Player.playInterval sm <> None /\
       Player.currentFrame sm = Player.currentFrame s + Z.of_nat m * sample_rate) /\
  exists s',
    Player.ticks animData areaPerPixel (S n) s = Player.Done s' /\
    Player.isPlaying s' = false /\
    Player.playInterval s' = None /\
    Player.currentFrame s' = Player.currentFrame s + Z.of_nat n * sample_rate /\
    shape0 fm - 1 <= Player.currentFrame s'.
Proof.
  intros Hd Hs Hfm Hreach Hplay n.
  destruct (payload_has_frames self fm sample_rate animData Hd Hs Hfm)
    as [Hrate Hframes].
  destruct (payload_fields self fm sample_rate animData Hd) as (_ & Hsr & HT).
  pose proof (reachable_consistent animData areaPerPixel Hrate Hframes s Hreach)
    as Hc.
  assert (Hq : 0 <= (Z.max 0 (shape0 fm - 1 - Player.currentFrame s)
                     + sample_rate - 1) / sample_rate)
    by (apply Z.div_pos; lia).
  destruct (ticks_play animData areaPerPixel Hrate Hframes n s Hc Hplay)
    as [Hbefore (s' & Es' & _ & Hp' & Ht' & Hcf')].
  { rewrite Hsr, HT. unfold n. rewrite Z2Nat.id by exact Hq. reflexivity. }
  rewrite Hsr in Hbefore, Hcf'.
  split; [exact Hbefore|].
  exists s'. split; [exact Es'|]. split; [exact Hp'|]. split; [exact Ht'|].
  split; [exact Hcf'|].
  rewrite Hcf'. unfold n. rewrite Z2Nat.id by exact Hq.
  set (x := Z.max 0 (shape0 fm - 1 - Player.currentFrame s)).
  pose proof (Z.div_mod (x + sample_rate - 1) sample_rate ltac:(lia)) as Hdm.
  pose proof (Z.mod_pos_bound (x + sample_rate - 1) sample_rate ltac:(lia))
    as Hm.
  assert (Hx : shape0 fm - 1 - Player.currentFrame s <= x)
    by (unfold x; lia).
  nia.
Qed.

(** A page without frames is dead.  [prepare_animation_data] returns a
    payload also for a negative sample rate and for a recording of no
    frames, and its list of frames is then empty.  In the page written from
    it the call [updateVisualization()] that ends the script throws a
    [TypeError] ([frame] is [undefined]) before anything is drawn, and so
    does every later reset and every move of the slider; in no state the
    page can reach is a rectangle shown or a statistic written. *)
Theorem page_without_frames_is_dead (self : Coordinates F) (fm : FireMap)
    (sample_rate : Z) (animData : Payload.AnimationData F) (areaPerPixel : F) :
  Payload.prepare_animation_data self fm sample_rate = Ok animData ->
  sample_rate < 0 \/ fm_frames fm = [] ->
  Player.initialise animData areaPerPixel = Player.TypeError Player.loaded /\
  forall s, Player.reachable animData areaPerPixel s ->
    Player.stats s = None /\
    Player.burningLayer s = [] /\
    Player.burnedLayer s = [] /\
    (exists s',
       Player.handle animData areaPerPixel Player.Reset s =
         Player.TypeError s') /\
    forall frame, exists s',
      Player.handle animData areaPerPixel (Player.Seek frame) s =
        Player.TypeError s'.
Proof.
  intros Hd Hcase.
  pose proof (payload_without_frames self fm sample_rate animData Hd Hcase)
    as Hnil.
  assert (Hup : forall s0,
            Player.updateVisualization animData areaPerPixel s0 =
            Player.TypeError
              {| Player.currentFrame := Player.currentFrame s0;
                 Player.isPlaying := Player.isPlaying s0;
                 Player.playInterval := Player.playInterval s0;
                 Player.speed := Player.speed s0;
                 Player.burningLayer := [];
                 Player.burnedLayer := Player.burnedLayer s0;
                 Player.burnedRects := Player.burnedRects s0;
                 Player.lastBurnedFrame := Player.lastBurnedFrame s0;
                 Player.playIcon := Player.playIcon s0;
                 Player.playText := Player.playText s0;
                 Player.stats := Player.stats s0 |}).
  { intros s0. unfold Player.updateVisualization. cbv zeta. rewrite Hnil.
    unfold Player.js_index.
    destruct (Z.min _ _ <? 0); [reflexivity|].
    destruct (Z.to_nat _); reflexivity. }
  split; [unfold Player.initialise; rewrite Hup; reflexivity|].
  assert (Hinv : forall s, Player.reachable animData areaPerPixel s ->
            Player.stats s = None /\ Player.burningLayer s = [] /\
            Player.burnedLayer s = []).
  { induction 1 as [s Hinit|s s' e _ IH He Hafter].
    - unfold Player.initialise in Hinit. rewrite Hup in Hinit.
      injection Hinit as <-. repeat split.
    - destruct IH as (I1 & I2 & I3).
      destruct e; cbn [Player.handle Player.state_after] in Hafter.
      + injection Hafter as <-. unfold Player.togglePlay.
        destruct (negb (Player.isPlaying s)); cbn; auto.
      + unfold Player.resetAnimation in Hafter. rewrite Hup in Hafter.
        injection Hafter as <-. cbn. auto.
      + unfold Player.stepBackward, Player.seekTo in Hafter.
        destruct (Player.currentFrame s >? 0).
        * cbv zeta in Hafter. rewrite Hup in Hafter.
          injection Hafter as <-. cbn.
          destruct (_ <? _); auto.
        * injection Hafter as <-. auto.
      + unfold Player.stepForward in Hafter.
        destruct (Player.currentFrame s <? _).
        * rewrite Hup in Hafter. injection Hafter as <-. cbn. auto.
        * injection Hafter as <-. auto.
      + unfold Player.seekTo in Hafter. cbv zeta in Hafter.
        rewrite Hup in Hafter. injection Hafter as <-. cbn.
        destruct (_ <? _); auto.
      + injection Hafter as <-. unfold Player.changeSpeed. cbn.
        destruct (Player.isPlaying s); cbn; auto.
      + unfold Player.tick in Hafter.
        destruct (Player.currentFrame s >=? _).
        * injection Hafter as <-. unfold Player.togglePlay.
          destruct (negb (Player.isPlaying s)); cbn; auto.
        * rewrite Hup in Hafter. injection Hafter as <-. cbn. auto. }
  intros s Hreach. destruct (Hinv s Hreach) as (I1 & I2 & I3).
  split; [exact I1|]. split; [exact I2|]. split; [exact I3|].
  split.
  - cbn [Player.handle]. unfold Player.resetAnimation. rewrite Hup.
    eexists. reflexivity.
  - intros frame. cbn [Player.handle]. unfold Player.seekTo. cbv zeta.
    rewrite Hup. eexists. reflexivity.
Qed.

End PlayerTheorems.



(* ================================================================== *)
(** ** The theorems above at the examples *)

Lemma scenario_shape0 : shape0 scenario_fire_map <= 2 ^ 31.
Proof.
  unfold shape0. simpl. lia.
Defined.


Lemma empty_grid_wf : wf_fire_map empty_grid_fire_map.
Proof.
  repeat constructor.
Defined.

Lemma empty_grid_matches :
  exists self,
    _setup_coordinates (B64.from_int 1) empty_grid_config = Ok self /\
    grid_matches self empty_grid_fire_map.
Proof.
  eexists. split; [vm_compute; reflexivity|]. split; reflexivity.
Defined.

Lemma equator_grid :
  exists self,
    _setup_coordinates (B64.from_int 1) equator_config = Ok self /\
    grid_height self = 3 /\ grid_width self = 3.
Proof.
  eexists. split; [vm_compute; reflexivity|]. split; reflexivity.
Defined.


Lemma statistics_errors_witness :
  exists self stats,
    _setup_coordinates (B64.from_int 1) scenario_config = Ok self /\
    Visualizer.get_statistics self scenario_fire_map = Ok stats /\
    simulation_frames stats = shape0 scenario_fire_map.
Proof.
  destruct scenario_grid_matches as (self & Hself & _).
  destruct (@statistics_errors float B64.ops self scenario_fire_map scenario_wf)
    as (_ & _ & H).
  destruct H as (stats & Hs & Hn & _);
    [discriminate|simpl; lia|simpl; lia|].
  exists self, stats. split; [exact Hself|]. split; [exact Hs|exact Hn].
Defined.

Lemma max_burn_time_spec_witness :
  exists max_time,
    np_max (_compute_burn_time_matrix scenario_fire_map) = Ok max_time /\
    -1 <= max_time < shape0 scenario_fire_map.
Proof.
  destruct (max_burn_time_spec scenario_fire_map scenario_wf scenario_shape0
              ltac:(simpl; lia) ltac:(simpl; lia))
    as (max_time & Hmax & Hrange & _).
  exists max_time. split; [exact Hmax|exact Hrange].
Defined.

Lemma export_visits_ignited_cells_witness :
  StronglySorted row_major
    (ignited_cells (_compute_burn_time_matrix scenario_fire_map)) /\
  forall x y v,
    In (x, y, v) (ignited_cells (_compute_burn_time_matrix scenario_fire_map)) <->
    0 <= y /\ 0 <= x /\
    cell (_compute_burn_time_matrix scenario_fire_map) (Z.to_nat y) (Z.to_nat x)
      = Some v /\
    v >= 0.
Proof.
  destruct (@export_visits_ignited_cells float B64.ops (B64.from_int 1)
              scenario_config scenario_fire_map scenario_wf)
    as (_ & Hsorted & Hin & _).
  split; [exact Hsorted|exact Hin].
Defined.

Lemma create_animation_data_spec_witness :
  exists self d,
    _setup_coordinates (B64.from_int 1) scenario_config = Ok self /\
    Timeline.create_animation_data self scenario_fire_map = Ok d /\
    Timeline.total_frames d = shape0 scenario_fire_map.
Proof.
  destruct scenario_grid_matches as (self & Hself & Hgrid).
  destruct (@create_animation_data_spec float B64.ops self scenario_fire_map
              scenario_wf Hgrid) as (d & Hd & Hn & _).
  exists self, d. split; [exact Hself|]. split; [exact Hd|exact Hn].
Defined.

Lemma sampler_agrees_with_timeline_witness :
  exists self frames d,
    _setup_coordinates (B64.from_int 1) scenario_config = Ok self /\
    Animation.prepare_animation_frames self scenario_fire_map 1 = Ok frames /\
    Timeline.create_animation_data self scenario_fire_map = Ok d /\
    Forall2
      (fun a b =>
         time a = Timeline.time b /\
         length (burning a) = length (Timeline.burning b) /\
         burning_count a = Z.of_nat (length (Timeline.burning b)) /\
         burned_count a = Z.of_nat (length (Timeline.burned b)))
      frames (Timeline.frames d).
Proof.
  destruct scenario_grid_matches as (self & Hself & Hgrid).
  destruct (@sampler_agrees_with_timeline float B64.ops self scenario_fire_map
              scenario_wf Hgrid) as (frames & d & Hf & Hd & H).
  exists self, frames, d. split; [exact Hself|].
  split; [exact Hf|]. split; [exact Hd|exact H].
Defined.

Lemma payload_requires_matching_grid_witness :
  exists self,
    _setup_coordinates (B64.from_int 1) scenario_config = Ok self /\
    ((exists d, Payload.prepare_animation_data self scenario_fire_map 2 = Ok d) <->
     (grid_matches self scenario_fire_map /\
      (0 < fm_height scenario_fire_map)%nat /\
      (0 < fm_width scenario_fire_map)%nat)).
Proof.
  destruct scenario_grid_matches as (self & Hself & _).
  exists self. split; [exact Hself|].
  apply (@payload_requires_matching_grid float B64.ops self scenario_fire_map 2
           scenario_wf); [discriminate|lia].
Defined.

Lemma payload_contents_witness :
  exists self d,
    _setup_coordinates (B64.from_int 1) scenario_config = Ok self /\
    Payload.prepare_animation_data self scenario_fire_map 2 = Ok d /\
    Payload.total_frames d = shape0 scenario_fire_map /\
    Z.of_nat (length (Payload.burned_pixels d)) =
      count_ignited (_compute_burn_time_matrix scenario_fire_map).
Proof.
  destruct scenario_grid_matches as (self & Hself & Hgrid).
  destruct (@payload_contents float B64.ops self scenario_fire_map 2
              scenario_wf Hgrid ltac:(simpl; lia) ltac:(simpl; lia)
              ltac:(lia) scenario_shape0)
    as (d & Hd & _ & Hn & _ & _ & _ & _ & Hcount).
  exists self, d. split; [exact Hself|]. split; [exact Hd|].
  split; [exact Hn|exact Hcount].
Defined.

Lemma payload_empty_grid_witness :
  exists self,
    _setup_coordinates (B64.from_int 1) empty_grid_config = Ok self /\
    Payload.prepare_animation_data self empty_grid_fire_map 1 =
      Raise ZeroDivisionError.
Proof.
  destruct empty_grid_matches as (self & Hself & Hgrid).
  exists self. split; [exact Hself|].
  apply (@payload_empty_grid float B64.ops self empty_grid_fire_map 1
           empty_grid_wf Hgrid); [lia|left; reflexivity].
Defined.

Lemma fire_layer_spec_witness :
  exists self,
    _setup_coordinates (B64.from_int 1) scenario_config = Ok self /\
    forall layer,
      MapLayer.fire_layer self (_compute_burn_time_matrix scenario_fire_map)
        "YlOrRd" (B64.quotient 7 10) false = Ok layer ->
      Z.of_nat (length layer) =
        count_ignited (_compute_burn_time_matrix scenario_fire_map).
Proof.
  destruct scenario_grid_matches as (self & Hself & Hgrid).
  exists self. split; [exact Hself|].
  intros layer Hlayer.
  destruct (@fire_layer_spec float B64.ops self scenario_fire_map "YlOrRd"
              (B64.quotient 7 10) false scenario_wf Hgrid) as [_ H].
  exact (proj2 (H layer Hlayer)).
Defined.

Lemma burnt_cells_get_colours_witness :
  exists c, GeoJSON.time_to_color_rgb (F:=R) 1 2 = Ok c /\ is_rgb c.
Proof.
  exact (proj2 (burnt_cells_get_colours 1 2 "YlOrRd" ltac:(lia))).
Defined.




Lemma oversized_grid_raises_index_error_witness :
  exists self,
    _setup_coordinates (B64.from_int 1) equator_config = Ok self /\
    Animation.prepare_animation_frames self scenario_fire_map 1 =
      Raise IndexError /\
    Payload.prepare_animation_data self scenario_fire_map 1 = Raise IndexError.
Proof.
  destruct equator_grid as (self & Hself & Hgh & Hgw).
  exists self. split; [exact Hself|].
  apply (@oversized_grid_raises_index_error float B64.ops self
           scenario_fire_map 1 scenario_wf);
    [discriminate|lia|lia|lia|left; rewrite Hgh; simpl; lia].
Defined.

Lemma legend_without_fire_witness :
  exists colors,
    np_max (_compute_burn_time_matrix calm_fire_map) = Ok (-1) /\
    Legend.colors (F:=float) (-1) "YlOrRd" = Ok colors /\
    nth_error colors 5 = Some (-1, None).
Proof.
  destruct (legend_without_fire calm_fire_map "YlOrRd" calm_wf
              calm_never_ignites ltac:(simpl; lia) ltac:(simpl; lia))
    as (colors & Hmax & Hcolors & Heq & _).
  exists colors. split; [exact Hmax|]. split; [exact Hcolors|].
  rewrite Heq. reflexivity.
Defined.


Lemma player_shows_what_has_burned_witness :
  exists self d s,
    _setup_coordinates (B64.from_int 1) scenario_config = Ok self /\
    Payload.prepare_animation_data self scenario_fire_map 1 = Ok d /\
    Player.initialise d (B64.from_int 1) = Player.Done s /\
    player_consistent d (B64.from_int 1) s /\
    length (Player.burnedLayer s) =
      length (Player.ignited_by d (Player.currentFrame s / 1)).
Proof.
  eexists. eexists. eexists.
  split; [vm_compute; reflexivity|].
  match goal with
  | |- Payload.prepare_animation_data ?self _ _ = _ /\ _ =>
      pose (self0 := self)
  end.
  split; [vm_compute; reflexivity|].
  split; [vm_compute; reflexivity|].
  match goal with
  | |- player_consistent ?d ?a ?s /\ _ =>
      pose proof (@player_shows_what_has_burned float B64.ops self0
                    scenario_fire_map 1 d a s) as H
  end.
  refine (let H' := H _ _ _ _ in conj (proj1 H') (proj1 (proj2 H'))).
  - vm_compute. reflexivity.
  - lia.
  - discriminate.
  - apply Player.reach_load. vm_compute. reflexivity.
Defined.

Lemma playback_stops_at_the_end_witness :
  exists self d s0,
    _setup_coordinates (B64.from_int 1) scenario_config = Ok self /\
    Payload.prepare_animation_data self scenario_fire_map 1 = Ok d /\
    Player.initialise d (B64.from_int 1) = Player.Done s0 /\
    exists s',
      Player.ticks d (B64.from_int 1) 3 (Player.togglePlay s0) =
        Player.Done s' /\
      Player.isPlaying s' = false /\
      Player.playInterval s' = None /\
      Player.currentFrame s' = 2.
Proof.
  eexists. eexists. eexists.
  split; [vm_compute; reflexivity|].
  match goal with
  | |- Payload.prepare_animation_data ?self _ _ = _ /\ _ =>
      pose (self0 := self)
  end.
  split; [vm_compute; reflexivity|].
  split; [vm_compute; reflexivity|].
  match goal with
  | |- exists s', Player.ticks ?d ?a _ (Player.togglePlay ?s0) = _ /\ _ =>
      assert (Hreach : Player.reachable d a (Player.togglePlay s0))
        by (apply (Player.reach_event d a s0 _ Player.TogglePlay);
            [ apply Player.reach_load; vm_compute; reflexivity
            | exact I
            | reflexivity ]);
      pose proof (@playback_stops_at_the_end float B64.ops self0
                    scenario_fire_map 1 d a (Player.togglePlay s0)
                    ltac:(vm_compute; reflexivity) ltac:(lia)
                    ltac:(discriminate) Hreach ltac:(reflexivity)) as H
  end.
  destruct H as [_ (s' & Hticks & Hp & Ht & Hcf & _)].
  exists s'.
  split; [exact Hticks|]. split; [exact Hp|]. split; [exact Ht|exact Hcf].
Defined.

Lemma page_without_frames_is_dead_witness :
  exists self d,
    _setup_coordinates (B64.from_int 1) scenario_config = Ok self /\
    Payload.prepare_animation_data self scenario_fire_map (-1) = Ok d /\
    Player.initialise d (B64.from_int 1) = Player.TypeError Player.loaded.
Proof.
  eexists. eexists.
  split; [vm_compute; reflexivity|].
  match goal with
  | |- Payload.prepare_animation_data ?self _ _ = _ /\ _ =>
      pose (self0 := self)
  end.
  split; [vm_compute; reflexivity|].
  match goal with
  | |- Player.initialise ?d ?a = _ =>
      refine (proj1 (@page_without_frames_is_dead float B64.ops self0
                       scenario_fire_map (-1) d a _ _))
  end.
  - vm_compute. reflexivity.
  - left. lia.
Defined.

